(** * go-sshd: the per-connection session and forwarding multiplexer

    A shallow embedding of [server/server.go] and
    [server/pty_related_unsupported.go].  Handlers are functions in a small
    monad over a world made of the forward registry and the chronological
    trace of the calls a handler makes (replies, rejections, binds, dials,
    closes, ...).  What the operating system and the peer answer (does the
    bind succeed, which error does [cmd.Run] return, in which order do the
    two copy goroutines finish) is an explicit argument, the record [OS].
    A Go run-time panic (index out of range, nil dereference) is an outcome
    of its own: such a panic is not recovered anywhere in the package, so it
    ends the process.  A [Reply] in a trace is the call [req.Reply(ok, nil)];
    the ssh library puts it on the wire when the request wanted a reply. *)

From Stdlib Require Import ZArith NArith List String Ascii Bool Lia.
From Stdlib.Strings Require Import Byte.
From stdpp Require Import base option list gmap strings.
Import ListNotations.

Local Open Scope string_scope.
Local Open Scope Z_scope.

(** ** Bytes, Go slices and Go strings *)

Definition byte_val (b : byte) : Z := Z.of_N (Byte.to_N b).

Definition bytes_of (s : string) : list byte := list_byte_of_string s.
Definition string_of (b : list byte) : string := string_of_list_byte b.

(** [b[i]]: a run-time panic when [i] is not below [len(b)]. *)
Definition index (b : list byte) (i : Z) : option byte :=
  if (0 <=? i) && (i <? Z.of_nat (length b)) then b !! Z.to_nat i else None.

(** [b[i:]]: a run-time panic when [i] exceeds [len(b)]. *)
Definition slice_from (b : list byte) (i : Z) : option (list byte) :=
  if (0 <=? i) && (i <=? Z.of_nat (length b)) then Some (drop (Z.to_nat i) b) else None.

(** Arithmetic on Go's [byte] and [uint32] wraps around. *)
Definition wrap8 (z : Z) : Z := z mod 256.
Definition wrap32 (z : Z) : Z := z mod 4294967296.

(** [binary.BigEndian.Uint32(b)]: panics when [len(b) < 4]. *)
Definition BigEndian_Uint32 (b : list byte) : option Z :=
  match b with
  | b0 :: b1 :: b2 :: b3 :: _ =>
      Some (Z.lor (Z.shiftl (byte_val b0) 24)
             (Z.lor (Z.shiftl (byte_val b1) 16)
               (Z.lor (Z.shiftl (byte_val b2) 8) (byte_val b3))))
  | _ => None
  end.

Definition byte_of_Z (z : Z) : byte :=
  match Byte.of_N (Z.to_N (wrap8 z)) with
  | Some b => b
  | None => x00
  end.

Definition BigEndian_PutUint32 (v : Z) : list byte :=
  [byte_of_Z (Z.shiftr v 24); byte_of_Z (Z.shiftr v 16);
   byte_of_Z (Z.shiftr v 8); byte_of_Z v].

(** ** The wire codec: [ssh.Unmarshal] and [ssh.Marshal] of golang.org/x/crypto
    on the struct shapes the server uses (string and uint32 fields). *)

Inductive kind := KString | KUint32.

Inductive value :=
| VString (s : list byte)
| VUint32 (n : Z).

Definition parseUint32 (data : list byte) : option (Z * list byte) :=
  match BigEndian_Uint32 data with
  | Some n => Some (n, drop 4 data)
  | None => None
  end.

Definition parseString (data : list byte) : option (list byte * list byte) :=
  match parseUint32 data with
  | Some (len, rest) =>
      if Z.of_nat (length rest) <? len then None
      else Some (take (Z.to_nat len) rest, drop (Z.to_nat len) rest)
  | None => None
  end.

Fixpoint parseFields (shape : list kind) (data : list byte) : option (list value * list byte) :=
  match shape with
  | [] => Some ([], data)
  | KUint32 :: shape' =>
      match parseUint32 data with
      | Some (n, rest) =>
          match parseFields shape' rest with
          | Some (vs, rest') => Some (VUint32 n :: vs, rest')
          | None => None
          end
      | None => None
      end
  | KString :: shape' =>
      match parseString data with
      | Some (s, rest) =>
          match parseFields shape' rest with
          | Some (vs, rest') => Some (VString s :: vs, rest')
          | None => None
          end
      | None => None
      end
  end.

(** [ssh.Unmarshal]: empty input is an error, every field is read in order,
    and bytes left over after the last field are an error. *)
Definition Unmarshal (data : list byte) (shape : list kind) : option (list value) :=
  match data with
  | [] => None
  | _ =>
      match parseFields shape data with
      | Some (vs, []) => Some vs
      | _ => None
      end
  end.

Definition marshalValue (v : value) : list byte :=
  match v with
  | VString s => BigEndian_PutUint32 (Z.of_nat (length s)) ++ s
  | VUint32 n => BigEndian_PutUint32 n
  end.

Definition Marshal (vs : list value) : list byte :=
  concat (map marshalValue vs).

(** ** [strconv.Itoa] and [net.JoinHostPort] *)

Definition digit (d : Z) : ascii := ascii_of_N (Z.to_N (48 + d)).

Fixpoint itoa_go (fuel : nat) (n : Z) (acc : string) : string :=
  match fuel with
  | O => acc
  | S fuel' =>
      let acc' := String (digit (n mod 10)) acc in
      if n / 10 =? 0 then acc' else itoa_go fuel' (n / 10) acc'
  end.

(** Decimal rendering of a non-negative [int]; the server only calls it on
    [int(msg.Port)] with a [uint32] port, at most ten digits. *)
Definition Itoa (n : Z) : string := itoa_go 20 n "".

Fixpoint has_colon (s : string) : bool :=
  match s with
  | EmptyString => false
  | String c s' => if Ascii.eqb c ":" then true else has_colon s'
  end.

Definition JoinHostPort (host port : string) : string :=
  if has_colon host then "[" +:+ host +:+ "]:" +:+ port
  else host +:+ ":" +:+ port.

(** ** Events, the world and the handler monad *)

(** [ssh.RejectionReason] *)
Inductive RejectionReason :=
| Prohibited
| ConnectionFailed
| UnknownChannelType
| ResourceShortage.

(** A bound [net.Listener], named by a number. *)
Definition Listener := nat.

(** The two ends of a bridge, and the pipes of a spawned command. *)
Inductive stream :=
| Channel       (* the ssh.Channel: [channel], [connection] *)
| Conn          (* the backend net.Conn: [conn] *)
| Stdin
| Stdout
| Stderr.

(** The goroutines [HandleGlobalRequests] starts. *)
Inductive task :=
| TTcpipForward
| TCancelTcpipForward
| TStreamlocalForward
| TCancelStreamlocalForward.

Inductive event :=
| Log (msg : string)                              (* s.Logger.Info / Error *)
| Reply (ok : bool)                               (* req.Reply(ok, nil) *)
| Reject (reason : RejectionReason) (message : string)
| Accept                                          (* newChannel.Accept() *)
| DiscardRequests                                 (* go ssh.DiscardRequests(reqs) *)
| Dial (network address : string)                 (* net.Dial *)
| Listen (network address : string)               (* net.Listen *)
| ListenerAccept (ln : Listener)                  (* ln.Accept() *)
| ListenerClose (ln : Listener)                   (* ln.Close() *)
| Watchdog (ln : Listener)                        (* go func() { sshConn.Wait(); ln.Close() } *)
| OpenChannel (name : string) (payload : list byte)
| Close (e : stream)                              (* channel.Close() / conn.Close() *)
| CopyDone (dst src : stream)                     (* io.Copy(dst, src) has returned *)
| GoCopy (dst src : stream)                       (* go io.Copy(dst, src) *)
| Command (argv : list string)                    (* exec.Command(argv[0], argv[1:]...) *)
| Pipe (e : stream)                               (* cmd.StdinPipe() and the like *)
| Run                                             (* cmd.Run(): start the process and wait *)
| SendRequest (name : string) (wantReply : bool) (payload : list byte)
| CreatePty (shell : string)
| SetWinsize (w h : Z)
| SftpNewServer
| SftpServe
| SftpClose
| Go (t : task).

Global Instance RejectionReason_eq_dec : EqDecision RejectionReason.
Proof. solve_decision. Defined.
Global Instance stream_eq_dec : EqDecision stream.
Proof. solve_decision. Defined.
Global Instance task_eq_dec : EqDecision task.
Proof. solve_decision. Defined.
Global Instance byte_eq_dec : EqDecision byte.
Proof. intros a b. destruct (Byte.eqb a b) eqn:E.
  - left. by apply Byte.byte_dec_bl.
  - right. intros ->. by rewrite Byte.byte_dec_lb in E.
Defined.
Global Instance event_eq_dec : EqDecision event.
Proof. solve_decision. Defined.

(** The mutable part of a connection: the forward registry
    [s.bindAddressToListener] and everything done so far, oldest first. *)
Record World := mkWorld {
  bindAddressToListener : gmap string Listener;
  trace : list event
}.

(** How a handler ends: it returns, or the Go run time panics. *)
Inductive outcome (A : Type) :=
| Returned (a : A)
| Panicked (why : string).
Arguments Returned {A} a.
Arguments Panicked {A} why.

Definition M (A : Type) : Type := World -> outcome A * World.

Definition ret {A} (a : A) : M A := fun w => (Returned a, w).

Definition bind {A B} (m : M A) (k : A -> M B) : M B :=
  fun w =>
    match m w with
    | (Returned a, w') => k a w'
    | (Panicked why, w') => (Panicked why, w')
    end.

Notation "x <- m ;; k" := (bind m (fun x => k))
  (at level 100, m at next level, k at level 200, right associativity).
Notation "m ;; k" := (bind m (fun _ => k))
  (at level 100, k at level 200, right associativity).

Definition emit (e : event) : M unit :=
  fun w => (Returned tt, mkWorld (bindAddressToListener w) (trace w ++ [e])).

Definition emits (es : list event) : M unit :=
  fun w => (Returned tt, mkWorld (bindAddressToListener w) (trace w ++ es)).

Definition panic {A} (why : string) : M A := fun w => (Panicked why, w).

(** A Go expression that panics when it has no value. *)
Definition check {A} (o : option A) (why : string) : M A :=
  match o with
  | Some a => ret a
  | None => panic why
  end.

(** Modelled from the spec: the forward registry [sync_generics.Map] is
    declared outside [server/]; per the spec's section 4.6 [Store] inserts and
    overwrites any entry the key had, and [LoadAndDelete] (the spec's [take])
    removes the entry and returns it in one step.  It is a typed wrapper and
    knows nothing of listeners: an absent key gives Go's zero value, a nil
    [net.Listener], here [None]. *)
Definition Store (key : string) (ln : Listener) : M unit :=
  fun w => (Returned tt, mkWorld (<[key := ln]> (bindAddressToListener w)) (trace w)).

Definition LoadAndDelete (key : string) : M (option Listener * bool) :=
  fun w =>
    match bindAddressToListener w !! key with
    | Some ln => (Returned (Some ln, true), mkWorld (delete key (bindAddressToListener w)) (trace w))
    | None => (Returned (None, false), w)
    end.

(** ** The server, requests and channel opens *)

(** The permissions of [Server]; its logger and registry live in the [World]. *)
Record Server := mkServer {
  AllowTcpipForward : bool;
  AllowDirectTcpip : bool;
  AllowExecute : bool;
  AllowSftp : bool;
  AllowStreamlocalForward : bool;
  AllowDirectStreamlocal : bool
}.

(** [ssh.Request] *)
Record Request := mkRequest {
  Type_ : string;
  WantReply : bool;
  Payload : list byte
}.

(** [ssh.NewChannel] *)
Record NewChannel := mkNewChannel {
  ChannelType : string;
  ExtraData : list byte
}.

(** What [cmd.Run] returns. *)
Inductive RunResult :=
| RunOk                          (* nil *)
| RunExitError (exitCode : Z)    (* an *exec.ExitError, with its ExitCode() *)
| RunOtherError.                 (* any other error, e.g. the binary was not found *)

(** What the SFTP server component does. *)
Inductive SftpResult :=
| SftpNewServerFails
| SftpServeEOF
| SftpServeError
| SftpServeNil.

(** A connection the accept loop of a forward receives. *)
Record Accepted := mkAccepted {
  originator : option (string * Z);
      (* net.SplitHostPort of the remote address, the port through
         strconv.Atoi and uint32(); None when the split fails *)
  open_channel_ok : bool;       (* sshConn.OpenChannel succeeds *)
  accepted_sched : list bool    (* interleaving of its two copy goroutines *)
}.

(** What the operating system, the peer and the libraries answer. *)
Record OS := mkOS {
  windows : bool;                                   (* the build has the pty stub *)
  os_accept : bool;                                 (* newChannel.Accept() succeeds *)
  os_dial : string -> string -> bool;               (* net.Dial(network, address) succeeds *)
  os_listen : string -> string -> option Listener;  (* net.Listen(network, address) *)
  os_close_ok : Listener -> bool;                   (* ln.Close() returns nil *)
  os_accepts : list Accepted;                       (* the connections ln.Accept() yields *)
  os_accept_error : bool;                           (* after them ln.Accept() returns an error;
                                                       otherwise the goroutine is still waiting
                                                       in it when the observation ends *)
  os_sched : list bool;                             (* interleaving of a direct bridge *)
  shellwords_Parse : string -> option (list string);
  os_stdin_pipe : bool;
  os_stdout_pipe : bool;
  os_stderr_pipe : bool;
  os_run : list string -> RunResult;
  os_createPty : bool;                              (* pty allocation succeeds *)
  os_sftp : SftpResult
}.

(** ** The bridge: two copy loops and who closes

    Each of the two threads of a bridge runs a short straight-line program.
    [closeOnce.Do(closer)] is one step: [sync.Once] runs the closure under
    its lock and every later [Do] is a no-op. *)

Inductive instr :=
| ICopy (dst src : stream)     (* io.Copy(dst, src), until it returns *)
| IOnceDo                      (* closeOnce.Do(closer) *)
| IClose (e : stream).         (* e.Close() *)

Global Instance instr_eq_dec : EqDecision instr.
Proof. solve_decision. Defined.

Record Bridge := mkBridge {
  first_thread : list instr;    (* the spawning thread, or the first goroutine *)
  second_thread : list instr;   (* the goroutine, or the second goroutine *)
  once_done : bool;             (* the state of closeOnce *)
  events : list event
}.

(** [closer := func() { channel.Close(); conn.Close() }] *)
Definition closer : list event := [Close Channel; Close Conn].

Definition exec_instr (i : instr) (done : bool) : bool * list event :=
  match i with
  | ICopy dst src => (done, [CopyDone dst src])
  | IOnceDo => if done then (true, []) else (true, closer)
  | IClose e => (done, [Close e])
  end.

(** One step of the thread [who] ([false]: first, [true]: second); a thread
    that has finished does nothing. *)
Definition bridge_step (who : bool) (b : Bridge) : Bridge :=
  if who then
    match second_thread b with
    | i :: rest =>
        let r := exec_instr i (once_done b) in
        mkBridge (first_thread b) rest (fst r) (events b ++ snd r)
    | [] => b
    end
  else
    match first_thread b with
    | i :: rest =>
        let r := exec_instr i (once_done b) in
        mkBridge rest (second_thread b) (fst r) (events b ++ snd r)
    | [] => b
    end.

Definition run_sched (sched : list bool) (b : Bridge) : Bridge :=
  fold_left (fun b who => bridge_step who b) sched b.

(** Whatever the schedule left undone runs to the end. *)
Definition bridge_finish (b : Bridge) : Bridge :=
  run_sched (repeat false (length (first_thread b)) ++
             repeat true (length (second_thread b))) b.

Definition bridge_run (sched : list bool) (b : Bridge) : Bridge :=
  bridge_finish (run_sched sched b).

(** The bridge of [handleDirectTcpip] and [handleDirectStreamlocal]. *)
Definition direct_bridge : Bridge :=
  mkBridge [ICopy Conn Channel; IOnceDo]       (* io.Copy(conn, channel); closeOnce.Do(closer) *)
           [ICopy Channel Conn; IOnceDo]       (* go func() { io.Copy(channel, conn); closeOnce.Do(closer) }() *)
           false [].

(** The two goroutines of a forwarded-tcpip or forwarded-streamlocal channel. *)
Definition reverse_bridge : Bridge :=
  mkBridge [ICopy Channel Conn; IClose Conn; IClose Channel]
           [ICopy Conn Channel; IClose Conn; IClose Channel]
           false [].

(** How often [e.Close()] was called. *)
Definition closes (e : stream) (t : list event) : nat :=
  count_occ event_eq_dec t (Close e).

(** ** Channel handlers *)

Definition handleDirectTcpip (os : OS) (newChannel : NewChannel) : M unit :=
  match Unmarshal (ExtraData newChannel) [KString; KUint32; KString; KUint32] with
  | Some [VString remoteAddr; VUint32 remotePort; VString _; VUint32 _] =>
      emit Accept ;;
      if negb (os_accept os) then emit (Log "failed to accept")
      else
        emit DiscardRequests ;;
        let raddr := JoinHostPort (string_of remoteAddr) (Itoa remotePort) in
        emit (Dial "tcp" raddr) ;;
        if negb (os_dial os "tcp" raddr) then
          emit (Log "failed to dial") ;; emit (Close Channel)
        else
          emits (events (bridge_run (os_sched os) direct_bridge))
  | _ => emit (Log "failed to parse direct-tcpip message")
  end.

Definition handleDirectStreamlocal (os : OS) (newChannel : NewChannel) : M unit :=
  match Unmarshal (ExtraData newChannel) [KString; KString; KUint32] with
  | Some [VString socketPath; VString _; VUint32 _] =>
      emit Accept ;;
      if negb (os_accept os) then emit (Log "failed to accept")
      else
        emit DiscardRequests ;;
        emit (Dial "unix" (string_of socketPath)) ;;
        if negb (os_dial os "unix" (string_of socketPath)) then
          emit (Log "failed to dial") ;; emit (Close Channel)
        else
          emits (events (bridge_run (os_sched os) direct_bridge))
  | _ => emit (Log "failed to parse direct-streamlocal message")
  end.

(** ** The session *)

(** [parseDims]: both reads panic on a buffer that is too short. *)
Definition parseDims (b : list byte) : M (Z * Z) :=
  w <- check (BigEndian_Uint32 b) "index out of range" ;;
  b4 <- check (slice_from b 4) "slice bounds out of range" ;;
  h <- check (BigEndian_Uint32 b4) "index out of range" ;;
  ret (w, h).

(** [createPty] of the windows build: always an error (a nil file). *)
Definition createPty_windows (shell : string) : M bool := ret false.

(** [setWinsize] of the windows build: an error, which every caller drops. *)
Definition setWinsize_windows (w h : Z) : M unit := ret tt.

(** Modelled from the spec: the [createPty] of the other builds is not in
    [server/]; per section 4.3 it allocates a pty pair and spawns the
    configured shell on it, and an allocation failure is an error. *)
Definition createPty_unix (os : OS) (shell : string) : M bool :=
  if os_createPty os then emit (CreatePty shell) ;; ret true else ret false.

(** Modelled from the spec: the [setWinsize] of the other builds is not in
    [server/]; per section 4.3 it applies the size to the master side. *)
Definition setWinsize_unix (w h : Z) : M unit := emit (SetWinsize w h).

(** The result is whether the returned file is non-nil ([err == nil]). *)
Definition createPty (os : OS) (shell : string) : M bool :=
  if windows os then createPty_windows shell else createPty_unix os shell.

Definition setWinsize (os : OS) (w h : Z) : M unit :=
  if windows os then setWinsize_windows w h else setWinsize_unix w h.

(** [exitCode] as [handleExecRequest] derives it from what [cmd.Run] returns. *)
Definition exitCodeOf (r : RunResult) : Z :=
  match r with
  | RunOk => 0
  | RunExitError exitCode => exitCode
  | RunOtherError => 0
  end.

(** [ssh.Marshal(exitStatusMsg{Status: uint32(exitCode)})] *)
Definition exitStatusMsg (exitCode : Z) : list byte :=
  Marshal [VUint32 (wrap32 exitCode)].

Definition handleExecRequest (os : OS) (req : Request) : M unit :=
  match Unmarshal (Payload req) [KString] with
  | Some [VString command] =>
      match shellwords_Parse os (string_of command) with
      | None => ret tt
      | Some cmdSlice =>
          _ <- check (head cmdSlice) "index out of range [0] with length 0" ;;
          emit (Command cmdSlice) ;;
          emit (Pipe Stdin) ;;
          if negb (os_stdin_pipe os) then ret tt else
          emit (Pipe Stdout) ;;
          if negb (os_stdout_pipe os) then ret tt else
          emit (Pipe Stderr) ;;
          if negb (os_stderr_pipe os) then ret tt else
          emit (GoCopy Stdin Channel) ;;
          emit (GoCopy Channel Stdout) ;;
          emit (GoCopy Channel Stderr) ;;
          emit (Reply true) ;;
          emit Run ;;
          let exitCode := exitCodeOf (os_run os cmdSlice) in
          emit (SendRequest "exit-status" false (exitStatusMsg exitCode)) ;;
          emit (Close Channel)
      end
  | _ => emit (Log "failed to parse message in exec")
  end.

Definition handleSessionSubSystem (s : Server) (os : OS) (req : Request) : M unit :=
  name <- check (slice_from (Payload req) 4) "slice bounds out of range [4:]" ;;
  if negb (String.eqb (string_of name) "sftp") then emit (Reply false)
  else if negb (AllowSftp s) then
    emit (Log "sftp not allowed") ;; emit (Reply false)
  else
    emit (Reply true) ;;
    emit SftpNewServer ;;
    match os_sftp os with
    | SftpNewServerFails => emit (Log "failed to create sftp server")
    | SftpServeEOF => emit SftpServe ;; emit SftpClose
    | SftpServeError => emit SftpServe ;; emit (Log "failed to serve sftp server")
    | SftpServeNil => emit SftpServe
    end.

(** What one turn of the request loop of [handleSession] does next. *)
Inductive control :=
| Continue (shf : bool)    (* next request; [shf] tells whether the pty file is non-nil *)
| Return.                  (* [return] out of [handleSession] *)

Definition sessionRequest (s : Server) (os : OS) (shell : string)
    (shf : bool) (req : Request) : M control :=
  if String.eqb (Type_ req) "exec" then
    if negb (AllowExecute s) then
      emit (Log "execution not allowed (exec)") ;; emit (Reply false) ;; ret (Continue shf)
    else
      handleExecRequest os req ;; ret (Continue shf)
  else if String.eqb (Type_ req) "shell" then
    if (length (Payload req) =? 0)%nat then emit (Reply true) ;; ret (Continue shf)
    else ret (Continue shf)
  else if String.eqb (Type_ req) "pty-req" then
    if negb (AllowExecute s) then
      emit (Log "execution not allowed (pty-req)") ;; emit (Reply false) ;; ret (Continue shf)
    else
      termLen <- check (index (Payload req) 3) "index out of range [3]" ;;
      dims <- check (slice_from (Payload req) (wrap8 (byte_val termLen + 4)))
                    "slice bounds out of range" ;;
      wh <- parseDims dims ;;
      shf' <- createPty os shell ;;
      if negb shf' then emit (Reply false) ;; ret Return
      else
        setWinsize os (fst wh) (snd wh) ;;
        emit (Reply true) ;;
        ret (Continue shf')
  else if String.eqb (Type_ req) "window-change" then
    wh <- parseDims (Payload req) ;;
    if shf then setWinsize os (fst wh) (snd wh) ;; ret (Continue shf)
    else ret (Continue shf)
  else if String.eqb (Type_ req) "subsystem" then
    handleSessionSubSystem s os req ;; ret (Continue shf)
  else
    emit (Log "unsupported request") ;; ret (Continue shf).

(** [for req := range requests { ... }] *)
Fixpoint sessionLoop (s : Server) (os : OS) (shell : string)
    (shf : bool) (requests : list Request) : M unit :=
  match requests with
  | [] => ret tt
  | req :: rest =>
      c <- sessionRequest s os shell shf req ;;
      match c with
      | Continue shf' => sessionLoop s os shell shf' rest
      | Return => ret tt
      end
  end.

Definition handleSession (s : Server) (os : OS) (shell : string)
    (requests : list Request) : M unit :=
  emit Accept ;;
  if negb (os_accept os) then emit (Log "Could not accept channel")
  else sessionLoop s os shell false requests.

Definition handleChannel (s : Server) (os : OS) (shell : string)
    (newChannel : NewChannel) (requests : list Request) : M unit :=
  if String.eqb (ChannelType newChannel) "session" then
    handleSession s os shell requests
  else if String.eqb (ChannelType newChannel) "direct-tcpip" then
    if negb (AllowDirectTcpip s) then
      emit (Reject Prohibited "direct-tcpip not allowed")
    else handleDirectTcpip os newChannel
  else if String.eqb (ChannelType newChannel) "direct-streamlocal@openssh.com" then
    if negb (AllowDirectStreamlocal s) then
      emit (Reject Prohibited "direct-streamlocal (Unix domain socket) not allowed")
    else handleDirectStreamlocal os newChannel
  else
    emit (Reject UnknownChannelType ("unknown channel type: " +:+ ChannelType newChannel)).

(** [HandleChannels]: every new channel gets its goroutine; here one after
    the other, each with the requests its session receives. *)
Fixpoint HandleChannels (s : Server) (os : OS) (shell : string)
    (chans : list (NewChannel * list Request)) : M unit :=
  match chans with
  | [] => ret tt
  | (newChannel, requests) :: rest =>
      handleChannel s os shell newChannel requests ;;
      HandleChannels s os shell rest
  end.

(** ** Remote forwarding *)

(** The goroutine started for one accepted connection: open the reverse
    channel, then copy both ways; each copy goroutine closes both ends. *)
Definition forwardConn (name : string) (payload : list byte) (c : Accepted) : M unit :=
  emit (OpenChannel name payload) ;;
  if negb (open_channel_ok c) then
    emit (Reply false) ;; emit (Close Conn)
  else
    emit DiscardRequests ;;
    emits (events (bridge_run (accepted_sched c) reverse_bridge)).

(** [replyMsg] of [handleTcpipForward]. *)
Definition forwardedTcpipMsg (addr : list byte) (port : Z) (c : Accepted) : list byte :=
  match originator c with
  | Some (originatorAddr, originatorPort) =>
      Marshal [VString addr; VUint32 port;
               VString (bytes_of originatorAddr); VUint32 originatorPort]
  | None => Marshal [VString addr; VUint32 port; VString []; VUint32 0]
  end.

(** The accept loop of [handleTcpipForward]; [conns] is what [ln.Accept()]
    returns, and after them it returns an error or keeps waiting. *)
Fixpoint acceptTcpip (os : OS) (ln : Listener) (addr : list byte) (port : Z)
    (conns : list Accepted) : M unit :=
  match conns with
  | [] =>
      emit (ListenerAccept ln) ;;
      if os_accept_error os then emit (Log "failed to accept") else ret tt
  | c :: rest =>
      emit (ListenerAccept ln) ;;
      (match originator c with
       | Some _ => ret tt
       | None => emit (Log "failed to split remote address")
       end) ;;
      forwardConn "forwarded-tcpip" (forwardedTcpipMsg addr port c) c ;;
      acceptTcpip os ln addr port rest
  end.

Definition handleTcpipForward (os : OS) (req : Request) : M unit :=
  match Unmarshal (Payload req) [KString; KUint32] with
  | Some [VString addr; VUint32 port] =>
      let address := JoinHostPort (string_of addr) (Itoa port) in
      emit (Listen "tcp" address) ;;
      match os_listen os "tcp" address with
      | None => emit (Reply false)
      | Some ln =>
          Store address ln ;;
          emit (Reply true) ;;
          emit (Watchdog ln) ;;
          acceptTcpip os ln addr port (os_accepts os)
      end
  | _ => emit (Reply false)
  end.

Definition cancelTcpipForward (os : OS) (req : Request) : M unit :=
  match Unmarshal (Payload req) [KString; KUint32] with
  | Some [VString addr; VUint32 port] =>
      let address := JoinHostPort (string_of addr) (Itoa port) in
      r <- LoadAndDelete address ;;
      (if negb (snd r) then
         emit (Reply false) ;; emit (Log "failed to find listener")
       else ret tt) ;;
      ln <- check (fst r) "invalid memory address or nil pointer dereference" ;;
      emit (ListenerClose ln) ;;
      (if negb (os_close_ok os ln) then
         emit (Reply false) ;; emit (Log "failed to close")
       else ret tt) ;;
      emit (Reply true)
  | _ => emit (Reply false)
  end.

(** The accept loop of [handleStreamlocalForward]. *)
Fixpoint acceptStreamlocal (os : OS) (ln : Listener) (socketPath : list byte)
    (conns : list Accepted) : M unit :=
  match conns with
  | [] =>
      emit (ListenerAccept ln) ;;
      if os_accept_error os then emit (Log "failed to accept") else ret tt
  | c :: rest =>
      emit (ListenerAccept ln) ;;
      forwardConn "forwarded-streamlocal@openssh.com"
                  (Marshal [VString socketPath; VString []]) c ;;
      acceptStreamlocal os ln socketPath rest
  end.

Definition handleStreamlocalForward (os : OS) (req : Request) : M unit :=
  match Unmarshal (Payload req) [KString] with
  | Some [VString socketPath] =>
      emit (Listen "unix" (string_of socketPath)) ;;
      match os_listen os "unix" (string_of socketPath) with
      | None => emit (Reply false)
      | Some ln =>
          Store (string_of socketPath) ln ;;
          emit (Reply true) ;;
          emit (Watchdog ln) ;;
          acceptStreamlocal os ln socketPath (os_accepts os)
      end
  | _ => emit (Reply false)
  end.

Definition cancelStreamlocalForward (os : OS) (req : Request) : M unit :=
  match Unmarshal (Payload req) [KString] with
  | Some [VString socketPath] =>
      r <- LoadAndDelete (string_of socketPath) ;;
      if negb (snd r) then
        emit (Log "failed to find listener") ;; emit (Reply false)
      else
        ln <- check (fst r) "invalid memory address or nil pointer dereference" ;;
        emit (ListenerClose ln) ;;
        (if negb (os_close_ok os ln) then
           emit (Reply false) ;; emit (Log "failed to close")
         else ret tt) ;;
        emit (Reply true)
  | _ => emit (Reply false)
  end.

(** The body of a goroutine of [HandleGlobalRequests]. *)
Definition run_task (os : OS) (t : task) (req : Request) : M unit :=
  match t with
  | TTcpipForward => handleTcpipForward os req
  | TCancelTcpipForward => cancelTcpipForward os req
  | TStreamlocalForward => handleStreamlocalForward os req
  | TCancelStreamlocalForward => cancelStreamlocalForward os req
  end.

(** [go func() { ... }()]: the goroutine is started and, in this model, runs
    to its end before the next request is looked at. *)
Definition go (os : OS) (t : task) (req : Request) : M unit :=
  emit (Go t) ;; run_task os t req.

(** One turn of the loop of [HandleGlobalRequests]. *)
Definition globalRequest (s : Server) (os : OS) (req : Request) : M unit :=
  if String.eqb (Type_ req) "tcpip-forward" then
    if negb (AllowTcpipForward s) then
      emit (Log "tcpip-forward not allowed") ;; emit (Reply false)
    else go os TTcpipForward req
  else if String.eqb (Type_ req) "cancel-tcpip-forward" then
    go os TCancelTcpipForward req
  else if String.eqb (Type_ req) "streamlocal-forward@openssh.com" then
    if negb (AllowStreamlocalForward s) then
      emit (Log "streamlocal-forward not allowed") ;; emit (Reply false)
    else go os TStreamlocalForward req
  else if String.eqb (Type_ req) "cancel-streamlocal-forward@openssh.com" then
    go os TCancelStreamlocalForward req
  else
    (if WantReply req then emit (Reply false) else ret tt) ;;
    emit (Log "request discarded").

Fixpoint HandleGlobalRequests (s : Server) (os : OS) (reqs : list Request) : M unit :=
  match reqs with
  | [] => ret tt
  | req :: rest => globalRequest s os req ;; HandleGlobalRequests s os rest
  end.

(** ** Running a handler, and reading a trace *)

Definition empty_world : World := mkWorld ∅ [].

(** The trace a handler leaves when started in world [w]. *)
Definition trace_of {A} (m : M A) (w : World) : list event := trace (snd (m w)).

Definition outcome_of {A} (m : M A) (w : World) : outcome A := fst (m w).

Definition registry_of {A} (m : M A) (w : World) : gmap string Listener :=
  bindAddressToListener (snd (m w)).

Definition panics {A} (m : M A) (w : World) : Prop :=
  exists why, outcome_of m w = Panicked why.

(** What a handler adds to the trace it was started with. *)
Definition added {A} (m : M A) (w : World) : list event :=
  drop (length (trace w)) (trace_of m w).

(** Side effects on the operating system: binds, dials, spawns, ptys. *)
Definition side_effect (e : event) : bool :=
  match e with
  | Dial _ _ | Listen _ _ | Command _ | Pipe _ | Run | CreatePty _
  | Accept | OpenChannel _ _ | SftpNewServer | SftpServe | Go _ | Watchdog _
  | ListenerClose _ | Close _ | SetWinsize _ _ => true
  | _ => false
  end.

(** ** Concrete environments and inputs for the examples *)

Definition is_blank (c : ascii) : bool :=
  Ascii.eqb c " " || Ascii.eqb c "009" || Ascii.eqb c "010" || Ascii.eqb c "013".

Fixpoint words_go (s : string) (cur : string) : list string :=
  match s with
  | EmptyString => if String.eqb cur "" then [] else [cur]
  | String c s' =>
      if is_blank c then
        if String.eqb cur "" then words_go s' "" else cur :: words_go s' ""
      else words_go s' (cur +:+ String c "")
  end.

(** A stand-in for [shellwords.Parse] in the examples: it splits at blanks,
    which is what the library does on a command without quotes, backslashes,
    backticks or dollar signs.  The theorems take the parser from [OS]. *)
Definition plain_words (s : string) : option (list string) := Some (words_go s "").

(** An environment in which every operation succeeds: one listener, no
    inbound connection on it (its accept loop waits), the command exits with
    status 0. *)
Definition os_good : OS :=
  mkOS false true (fun _ _ => true) (fun _ _ => Some 1%nat) (fun _ => true)
       [] false [] plain_words true true true (fun _ => RunOk) true SftpServeEOF.

Definition with_windows (os : OS) : OS :=
  mkOS true (os_accept os) (os_dial os) (os_listen os) (os_close_ok os)
       (os_accepts os) (os_accept_error os) (os_sched os) (shellwords_Parse os)
       (os_stdin_pipe os) (os_stdout_pipe os) (os_stderr_pipe os)
       (os_run os) (os_createPty os) (os_sftp os).

Definition with_listen (ln : option Listener) (os : OS) : OS :=
  mkOS (windows os) (os_accept os) (os_dial os) (fun _ _ => ln) (os_close_ok os)
       (os_accepts os) (os_accept_error os) (os_sched os) (shellwords_Parse os)
       (os_stdin_pipe os) (os_stdout_pipe os) (os_stderr_pipe os)
       (os_run os) (os_createPty os) (os_sftp os).

Definition with_run (r : RunResult) (os : OS) : OS :=
  mkOS (windows os) (os_accept os) (os_dial os) (os_listen os) (os_close_ok os)
       (os_accepts os) (os_accept_error os) (os_sched os) (shellwords_Parse os)
       (os_stdin_pipe os) (os_stdout_pipe os) (os_stderr_pipe os)
       (fun _ => r) (os_createPty os) (os_sftp os).

Definition with_pipes (i o e : bool) (os : OS) : OS :=
  mkOS (windows os) (os_accept os) (os_dial os) (os_listen os) (os_close_ok os)
       (os_accepts os) (os_accept_error os) (os_sched os) (shellwords_Parse os)
       i o e (os_run os) (os_createPty os) (os_sftp os).

Definition with_close_ok (ok : bool) (os : OS) : OS :=
  mkOS (windows os) (os_accept os) (os_dial os) (os_listen os) (fun _ => ok)
       (os_accepts os) (os_accept_error os) (os_sched os) (shellwords_Parse os)
       (os_stdin_pipe os) (os_stdout_pipe os) (os_stderr_pipe os)
       (os_run os) (os_createPty os) (os_sftp os).

Definition with_accepts (cs : list Accepted) (os : OS) : OS :=
  mkOS (windows os) (os_accept os) (os_dial os) (os_listen os) (os_close_ok os)
       cs (os_accept_error os) (os_sched os) (shellwords_Parse os)
       (os_stdin_pipe os) (os_stdout_pipe os) (os_stderr_pipe os)
       (os_run os) (os_createPty os) (os_sftp os).

Definition allow_all : Server := mkServer true true true true true true.
Definition allow_none : Server := mkServer false false false false false false.

(** Payloads in wire form. *)
Definition execPayload (command : string) : list byte :=
  Marshal [VString (bytes_of command)].

Definition forwardPayload (addr : string) (port : Z) : list byte :=
  Marshal [VString (bytes_of addr); VUint32 port].

Definition directTcpipData (raddr : string) (rport : Z) (saddr : string) (sport : Z) : list byte :=
  Marshal [VString (bytes_of raddr); VUint32 rport; VString (bytes_of saddr); VUint32 sport].

Definition directStreamlocalData (path : string) : list byte :=
  Marshal [VString (bytes_of path); VString []; VUint32 0].

(** [pty-req]: term, width, height, pixel width, pixel height, modes. *)
Definition ptyReqPayload (term : string) (w h : Z) : list byte :=
  Marshal [VString (bytes_of term); VUint32 w; VUint32 h; VUint32 0; VUint32 0; VString []].

(** ** Vocabulary of the statements *)

Definition no_IClose (th : list instr) : Prop := forall e, ~ In (IClose e) th.

(** The latch is set exactly when the closer has run, no thread closes
    anything by itself, and while the latch is open each thread still has
    its [closeOnce.Do] ahead. *)
Definition latch_inv (b : Bridge) : Prop :=
  no_IClose (first_thread b) /\ no_IClose (second_thread b)
  /\ closes Channel (events b) = (if once_done b then 1 else 0)%nat
  /\ closes Conn (events b) = (if once_done b then 1 else 0)%nat
  /\ (once_done b = false -> In IOnceDo (first_thread b) /\ In IOnceDo (second_thread b)).

Definition pending (e : stream) (th : list instr) : nat :=
  count_occ instr_eq_dec th (IClose e).

Definition no_IOnceDo (th : list instr) : Prop := ~ In IOnceDo th.

(** Closes done plus closes still ahead; constant along a run without latch. *)
Definition close_budget (e : stream) (b : Bridge) : nat :=
  (closes e (events b) + pending e (first_thread b) + pending e (second_thread b))%nat.

Definition unlatched_inv (e : stream) (n : nat) (b : Bridge) : Prop :=
  no_IOnceDo (first_thread b) /\ no_IOnceDo (second_thread b) /\ close_budget e b = n.

(** What a forward does once it is bound: accepting, opening reverse
    channels, copying, closing channels and connections, never a listener. *)
Definition forward_event (e : event) : bool :=
  match e with
  | OpenChannel _ _ | Reply _ | Close _ | DiscardRequests | CopyDone _ _
  | ListenerAccept _ | Log _ => true
  | _ => false
  end.

Definition forward_events (es : list event) : Prop :=
  Forall (fun e => forward_event e = true) es.

(** A handler that returns, leaves the registry alone and adds [es]. *)
Definition adds {A} (m : M A) (w : World) (a : A) (es : list event) : Prop :=
  m w = (Returned a, mkWorld (bindAddressToListener w) (trace w ++ es)).

(** The operations behind a permission flag, each with the bytes it comes
    with.  A [subsystem] request for sftp has one wire form. *)
Inductive gated :=
| OpDirectTcpip (extraData : list byte)
| OpDirectStreamlocal (extraData : list byte)
| OpTcpipForward (wantReply : bool) (payload : list byte)
| OpStreamlocalForward (wantReply : bool) (payload : list byte)
| OpExec (wantReply : bool) (payload : list byte)
| OpPtyReq (wantReply : bool) (payload : list byte)
| OpSftp (wantReply : bool).

Definition permission (s : Server) (op : gated) : bool :=
  match op with
  | OpDirectTcpip _ => AllowDirectTcpip s
  | OpDirectStreamlocal _ => AllowDirectStreamlocal s
  | OpTcpipForward _ _ => AllowTcpipForward s
  | OpStreamlocalForward _ _ => AllowStreamlocalForward s
  | OpExec _ _ => AllowExecute s
  | OpPtyReq _ _ => AllowExecute s
  | OpSftp _ => AllowSftp s
  end.

(** The operation as it reaches the server: through [handleChannel],
    [HandleGlobalRequests] or the request loop of a session. *)
Definition perform (s : Server) (os : OS) (shell : string) (shf : bool)
    (op : gated) : M unit :=
  match op with
  | OpDirectTcpip extraData =>
      handleChannel s os shell (mkNewChannel "direct-tcpip" extraData) []
  | OpDirectStreamlocal extraData =>
      handleChannel s os shell (mkNewChannel "direct-streamlocal@openssh.com" extraData) []
  | OpTcpipForward wantReply payload =>
      globalRequest s os (mkRequest "tcpip-forward" wantReply payload)
  | OpStreamlocalForward wantReply payload =>
      globalRequest s os (mkRequest "streamlocal-forward@openssh.com" wantReply payload)
  | OpExec wantReply payload =>
      sessionRequest s os shell shf (mkRequest "exec" wantReply payload) ;; ret tt
  | OpPtyReq wantReply payload =>
      sessionRequest s os shell shf (mkRequest "pty-req" wantReply payload) ;; ret tt
  | OpSftp wantReply =>
      sessionRequest s os shell shf
        (mkRequest "subsystem" wantReply (Marshal [VString (bytes_of "sftp")])) ;; ret tt
  end.

(** How each operation is refused when its permission is off. *)
Definition rejection (op : gated) : list event :=
  match op with
  | OpDirectTcpip _ => [Reject Prohibited "direct-tcpip not allowed"]
  | OpDirectStreamlocal _ =>
      [Reject Prohibited "direct-streamlocal (Unix domain socket) not allowed"]
  | OpTcpipForward _ _ => [Log "tcpip-forward not allowed"; Reply false]
  | OpStreamlocalForward _ _ => [Log "streamlocal-forward not allowed"; Reply false]
  | OpExec _ _ => [Log "execution not allowed (exec)"; Reply false]
  | OpPtyReq _ _ => [Log "execution not allowed (pty-req)"; Reply false]
  | OpSftp _ => [Log "sftp not allowed"; Reply false]
  end.

(** The dimensions a [pty-req] payload yields when every read is in range. *)
Definition ptyReqDims (payload : list byte) : option (Z * Z) :=
  match index payload 3 with
  | Some termLen =>
      match slice_from payload (wrap8 (byte_val termLen + 4)) with
      | Some dims =>
          match BigEndian_Uint32 dims, slice_from dims 4 with
          | Some w, Some dims4 =>
              match BigEndian_Uint32 dims4 with
              | Some h => Some (w, h)
              | None => None
              end
          | _, _ => None
          end
      | None => None
      end
  | None => None
  end.

(** A decoded field has the kind its place in the struct asks for. *)
Definition has_kind (v : value) (k : kind) : Prop :=
  match v, k with
  | VString _, KString => True
  | VUint32 _, KUint32 => True
  | _, _ => False
  end.

(** A handler that leaves the forward registry as it found it, however it
    ends. *)
Definition keeps_registry {A} (m : M A) : Prop :=
  forall w, bindAddressToListener (snd (m w)) = bindAddressToListener w.

(** A handler that returns from every world. *)
Definition never_panics {A} (m : M A) : Prop :=
  forall w, exists a, fst (m w) = Returned a.

Definition is_OpenChannel (e : event) : bool :=
  match e with OpenChannel _ _ => true | _ => false end.

Definition is_ListenerAccept (e : event) : bool :=
  match e with ListenerAccept _ => true | _ => false end.

(** How many events of a trace satisfy [p]. *)
Definition count (p : event -> bool) (t : list event) : nat :=
  length (List.filter p t).

(** The three channel types [handleChannel] knows. *)
Definition known_channel_type (t : string) : bool :=
  String.eqb t "session" || String.eqb t "direct-tcpip"
  || String.eqb t "direct-streamlocal@openssh.com".

(** The four request types [HandleGlobalRequests] knows. *)
Definition known_global_request (t : string) : bool :=
  String.eqb t "tcpip-forward" || String.eqb t "cancel-tcpip-forward"
  || String.eqb t "streamlocal-forward@openssh.com"
  || String.eqb t "cancel-streamlocal-forward@openssh.com".

(** The five request types the loop of [handleSession] knows. *)
Definition known_session_request (t : string) : bool :=
  String.eqb t "exec" || String.eqb t "shell" || String.eqb t "pty-req"
  || String.eqb t "window-change" || String.eqb t "subsystem".

(** A [pty-req] payload as a client builds it; [rest] stands for the pixel
    sizes and the terminal modes. *)
Definition ptyReqWire (term : list byte) (w h : Z) (rest : list byte) : list byte :=
  BigEndian_PutUint32 (Z.of_nat (length term)) ++ term
  ++ BigEndian_PutUint32 w ++ BigEndian_PutUint32 h ++ rest.

Definition is_Reply (e : event) : bool :=
  match e with Reply _ => true | _ => false end.

(** What the two copy goroutines of a bridge do: copy and close. *)
Definition is_bridge_event (e : event) : bool :=
  match e with CopyDone _ _ | Close _ => true | _ => false end.

Definition with_parse (parse : string -> option (list string)) (os : OS) : OS :=
  mkOS (windows os) (os_accept os) (os_dial os) (os_listen os) (os_close_ok os)
       (os_accepts os) (os_accept_error os) (os_sched os) parse
       (os_stdin_pipe os) (os_stdout_pipe os) (os_stderr_pipe os)
       (os_run os) (os_createPty os) (os_sftp os).

Definition with_accept (ok : bool) (os : OS) : OS :=
  mkOS (windows os) ok (os_dial os) (os_listen os) (os_close_ok os)
       (os_accepts os) (os_accept_error os) (os_sched os) (shellwords_Parse os)
       (os_stdin_pipe os) (os_stdout_pipe os) (os_stderr_pipe os)
       (os_run os) (os_createPty os) (os_sftp os).

Definition with_dial (ok : bool) (os : OS) : OS :=
  mkOS (windows os) (os_accept os) (fun _ _ => ok) (os_listen os) (os_close_ok os)
       (os_accepts os) (os_accept_error os) (os_sched os) (shellwords_Parse os)
       (os_stdin_pipe os) (os_stdout_pipe os) (os_stderr_pipe os)
       (os_run os) (os_createPty os) (os_sftp os).

Definition with_sched (sched : list bool) (os : OS) : OS :=
  mkOS (windows os) (os_accept os) (os_dial os) (os_listen os) (os_close_ok os)
       (os_accepts os) (os_accept_error os) sched (shellwords_Parse os)
       (os_stdin_pipe os) (os_stdout_pipe os) (os_stderr_pipe os)
       (os_run os) (os_createPty os) (os_sftp os).

(** The accepted connections whose reverse channel could not be opened. *)
Definition failed_opens (conns : list Accepted) : nat :=
  length (List.filter (fun c => negb (open_channel_ok c)) conns).

Definition kind_of (v : value) : kind :=
  match v with VString _ => KString | VUint32 _ => KUint32 end.

(** A field that fits the wire: a string shorter than 2^32 bytes, a number
    that is a [uint32]. *)
Definition fits_wire (v : value) : Prop :=
  match v with
  | VString s => Z.of_nat (length s) < 4294967296
  | VUint32 n => 0 <= n < 4294967296
  end.

(** A handler after which the registry has no entry it did not have
    before, however the handler ends. *)
Definition shrinks_registry {A} (m : M A) : Prop :=
  forall w, bindAddressToListener (snd (m w)) ⊆ bindAddressToListener w.

(** * Properties *)

(** ** The codec on concrete payloads *)

Example Itoa_65535 : Itoa 65535 = "65535".
Proof. reflexivity. Qed.

Example JoinHostPort_v4 : JoinHostPort "127.0.0.1" (Itoa 0) = "127.0.0.1:0".
Proof. reflexivity. Qed.

Example JoinHostPort_v6 : JoinHostPort "::1" (Itoa 22) = "[::1]:22".
Proof. reflexivity. Qed.

Example Unmarshal_addr_port :
  Unmarshal (forwardPayload "127.0.0.1" 65535) [KString; KUint32]
  = Some [VString (bytes_of "127.0.0.1"); VUint32 65535].
Proof. vm_compute. reflexivity. Qed.

Example Unmarshal_trailing_bytes :
  Unmarshal (forwardPayload "127.0.0.1" 65535 ++ [x00]) [KString; KUint32] = None.
Proof. vm_compute. reflexivity. Qed.

Example Unmarshal_empty : Unmarshal [] [KString] = None.
Proof. reflexivity. Qed.

(** ** Reasoning about handlers *)

Lemma added_app {A} (m : M A) (w : World) (o : outcome A) (reg : gmap string Listener)
    (es : list event) :
  m w = (o, mkWorld reg (trace w ++ es)) -> added m w = es.
Proof.
  intros H. unfold added, trace_of. rewrite H. simpl. apply drop_app_length.
Qed.

Lemma added_nil {A} (m : M A) (w : World) (o : outcome A) :
  m w = (o, w) -> added m w = [].
Proof.
  intros H. unfold added, trace_of. rewrite H. apply drop_all.
Qed.

(** Unfold the monad down to worlds and flatten the trace. *)
Ltac monad :=
  unfold bind, emit, emits, ret, check, panic, Store; simpl;
  rewrite <- ?app_assoc; simpl.

Lemma length_zero_eqb (p : list byte) : p <> [] -> (length p =? 0)%nat = false.
Proof. destruct p; [congruence | reflexivity]. Qed.

(** ** The session dispatcher *)

(** C9. A [shell] request whose payload is not empty gets no reply from the
    session dispatcher, true or false, whether or not it asks for one: the
    world is left as it was, and the loop goes on with the requests that
    follow, with the same pty state: the request after it is dispatched as it
    would be at the head of the loop, and so are those after that. *)
Theorem shell_with_payload_no_reply (s : Server) (os : OS) (shell : string)
    (shf wantReply : bool) (payload : list byte) (rest : list Request) (w : World) :
  payload <> [] ->
  let req := mkRequest "shell" wantReply payload in
  sessionRequest s os shell shf req w = (Returned (Continue shf), w)
  /\ added (sessionRequest s os shell shf req) w = []
  /\ sessionLoop s os shell shf (req :: rest) w = sessionLoop s os shell shf rest w
  /\ (forall next later,
       sessionLoop s os shell shf (req :: next :: later) w
       = (c <- sessionRequest s os shell shf next ;;
          match c with
          | Continue shf' => sessionLoop s os shell shf' later
          | Return => ret tt
          end) w).
Proof.
  intros Hp req.
  assert (Hstep : sessionRequest s os shell shf req w = (Returned (Continue shf), w)).
  { unfold sessionRequest, req. simpl. rewrite (length_zero_eqb _ Hp). reflexivity. }
  assert (Hloop : forall l, sessionLoop s os shell shf (req :: l) w
                            = sessionLoop s os shell shf l w).
  { intros l. simpl. unfold bind. rewrite Hstep. reflexivity. }
  split; [exact Hstep|]. split; [eapply added_nil; exact Hstep|].
  split; [apply Hloop|].
  intros next later. rewrite Hloop. reflexivity.
Qed.

(** After a [shell] request with the payload "ls", which is passed over, the
    [shell] request that follows is answered true and the exec after it
    runs. *)
Lemma shell_with_payload_no_reply_witness :
  let ls := mkRequest "shell" true (bytes_of "ls") in
  let sh := mkRequest "shell" true [] in
  let echo := mkRequest "exec" true (execPayload "/bin/echo hello") in
  bytes_of "ls" <> []
  /\ sessionRequest allow_all os_good "sh" false ls empty_world
     = (Returned (Continue false), empty_world)
  /\ sessionLoop allow_all os_good "sh" false [ls; sh; echo] empty_world
     = (Returned tt,
        mkWorld ∅
          [Reply true;
           Command ["/bin/echo"; "hello"]; Pipe Stdin; Pipe Stdout; Pipe Stderr;
           GoCopy Stdin Channel; GoCopy Channel Stdout; GoCopy Channel Stderr;
           Reply true; Run; SendRequest "exit-status" false [x00; x00; x00; x00];
           Close Channel]).
Proof.
  intros ls sh echo.
  destruct (shell_with_payload_no_reply allow_all os_good "sh" false true
              (bytes_of "ls") [sh; echo] empty_world) as (Hstep & _ & _ & Hnext);
    [discriminate|].
  split; [discriminate|]. split; [exact Hstep|].
  unfold ls. rewrite (Hnext sh [echo]). vm_compute. reflexivity.
Defined.

Example shell_empty_payload_replies :
  trace_of (sessionLoop allow_all os_good "sh" false
              [mkRequest "shell" true (bytes_of "ls"); mkRequest "shell" true []])
           empty_world
  = [Reply true].
Proof. reflexivity. Qed.

(** ** The global request dispatcher *)

(** C10. The two cancel requests go to their handlers behind no permission
    check: whatever the permissions of the server, the dispatcher starts the
    cancel goroutine; in particular it does so with every permission off. *)
Theorem cancel_requests_not_gated (s : Server) (os : OS) (req : Request) (w : World) :
  (Type_ req = "cancel-tcpip-forward" ->
     globalRequest s os req w = go os TCancelTcpipForward req w
     /\ globalRequest s os req w = globalRequest allow_none os req w)
  /\ (Type_ req = "cancel-streamlocal-forward@openssh.com" ->
     globalRequest s os req w = go os TCancelStreamlocalForward req w
     /\ globalRequest s os req w = globalRequest allow_none os req w).
Proof.
  split; intros Ht; unfold globalRequest; rewrite Ht; simpl; auto.
Qed.

(** With every permission off a cancel is carried out: the listener leaves
    the registry and is closed. *)
Lemma cancel_requests_not_gated_witness :
  let req := mkRequest "cancel-tcpip-forward" true (forwardPayload "127.0.0.1" 8080) in
  let w := mkWorld {["127.0.0.1:8080" := 7%nat]} [] in
  let req' := mkRequest "cancel-streamlocal-forward@openssh.com" true
                (Marshal [VString (bytes_of "/tmp/t.sock")]) in
  let w' := mkWorld {["/tmp/t.sock" := 8%nat]} [] in
  Type_ req = "cancel-tcpip-forward"
  /\ globalRequest allow_none os_good req w = go os_good TCancelTcpipForward req w
  /\ globalRequest allow_none os_good req w
     = (Returned tt,
        mkWorld ∅ [Go TCancelTcpipForward; ListenerClose 7%nat; Reply true])
  /\ Type_ req' = "cancel-streamlocal-forward@openssh.com"
  /\ globalRequest allow_none os_good req' w' = go os_good TCancelStreamlocalForward req' w'
  /\ globalRequest allow_none os_good req' w'
     = (Returned tt,
        mkWorld ∅ [Go TCancelStreamlocalForward; ListenerClose 8%nat; Reply true]).
Proof.
  intros req w req' w'. split; [reflexivity|]. split.
  { destruct (cancel_requests_not_gated allow_none os_good req w) as [H _].
    apply H. reflexivity. }
  split; [vm_compute; reflexivity|]. split; [reflexivity|]. split.
  { destruct (cancel_requests_not_gated allow_none os_good req' w') as [_ H].
    apply H. reflexivity. }
  vm_compute. reflexivity.
Defined.

(** ** Exec *)

(** C6 (what the code does). An exec request whose command parses to an
    empty argv is not rejected: [cmdSlice[0]] is read without a length check,
    so the handler panics with an index out of range.  Nothing was spawned and
    nothing was replied before the panic. *)
Theorem exec_empty_argv_panics (os : OS) (req : Request) (command : list byte) (w : World) :
  Unmarshal (Payload req) [KString] = Some [VString command] ->
  shellwords_Parse os (string_of command) = Some [] ->
  outcome_of (handleExecRequest os req) w = Panicked "index out of range [0] with length 0"
  /\ added (handleExecRequest os req) w = [].
Proof.
  intros Hu Hp.
  assert (H : handleExecRequest os req w
              = (Panicked "index out of range [0] with length 0", w)).
  { unfold handleExecRequest. rewrite Hu, Hp. reflexivity. }
  split.
  - unfold outcome_of. rewrite H. reflexivity.
  - eapply added_nil. exact H.
Qed.

Lemma exec_empty_argv_panics_witness :
  let req := mkRequest "exec" true (execPayload "") in
  Unmarshal (Payload req) [KString] = Some [VString []]
  /\ shellwords_Parse os_good (string_of []) = Some []
  /\ outcome_of (sessionLoop allow_all os_good "sh" false [req]) empty_world
     = Panicked "index out of range [0] with length 0".
Proof.
  intros req. split; [reflexivity|]. split; [reflexivity|].
  destruct (exec_empty_argv_panics os_good req [] empty_world) as [H _];
    [reflexivity | reflexivity |].
  unfold outcome_of in *. simpl. unfold bind.
  change (sessionRequest allow_all os_good "sh" false req empty_world)
    with (bind (handleExecRequest os_good req) (fun _ => ret (Continue false)) empty_world).
  unfold bind.
  destruct (handleExecRequest os_good req empty_world) as [[a|why] w'];
    simpl in *; [discriminate | congruence].
Defined.

(** An exec request that does not parse as a string is logged and neither
    replied to nor rejected. *)
Lemma exec_malformed_no_reply (os : OS) (req : Request) (w : World) :
  Unmarshal (Payload req) [KString] = None ->
  handleExecRequest os req w
  = (Returned tt, mkWorld (bindAddressToListener w)
                          (trace w ++ [Log "failed to parse message in exec"])).
Proof.
  intros Hu. unfold handleExecRequest. rewrite Hu. reflexivity.
Qed.

(** ** Malformed session payloads *)

Lemma index_short (p : list byte) (i : Z) :
  (Z.of_nat (length p) <= i)%Z -> index p i = None.
Proof.
  intros H. unfold index.
  destruct (0 <=? i) eqn:E0; [|reflexivity].
  destruct (i <? Z.of_nat (length p)) eqn:E1; [|reflexivity].
  apply Z.ltb_lt in E1. lia.
Qed.

Lemma slice_from_short (p : list byte) (i : Z) :
  (Z.of_nat (length p) < i)%Z -> slice_from p i = None.
Proof.
  intros H. unfold slice_from.
  destruct (0 <=? i) eqn:E0; [|reflexivity].
  destruct (i <=? Z.of_nat (length p)) eqn:E1; [|reflexivity].
  apply Z.leb_le in E1. lia.
Qed.

Lemma BigEndian_Uint32_short (p : list byte) :
  (length p < 4)%nat -> BigEndian_Uint32 p = None.
Proof.
  destruct p as [|b0 [|b1 [|b2 [|b3 p]]]]; simpl; intros H; try reflexivity; lia.
Qed.

(** C5 (what the code does). A [pty-req], [window-change] or [subsystem]
    request with fewer than four payload bytes is not answered with false and
    logged: the payload is indexed and sliced unchecked, and the handler
    panics before it replies or logs anything. *)
Theorem short_session_payload_panics (s : Server) (os : OS) (shell : string)
    (shf wantReply : bool) (payload : list byte) (w : World) :
  (length payload < 4)%nat ->
  (AllowExecute s = true ->
     panics (sessionRequest s os shell shf (mkRequest "pty-req" wantReply payload)) w
     /\ added (sessionRequest s os shell shf (mkRequest "pty-req" wantReply payload)) w = [])
  /\ (panics (sessionRequest s os shell shf (mkRequest "window-change" wantReply payload)) w
     /\ added (sessionRequest s os shell shf (mkRequest "window-change" wantReply payload)) w = [])
  /\ (panics (sessionRequest s os shell shf (mkRequest "subsystem" wantReply payload)) w
     /\ added (sessionRequest s os shell shf (mkRequest "subsystem" wantReply payload)) w = []).
Proof.
  intros Hlen. repeat split.
  - eexists. unfold outcome_of, sessionRequest. simpl. rewrite H. simpl.
    unfold bind, check. rewrite index_short by lia. reflexivity.
  - eapply added_nil. unfold sessionRequest. simpl. rewrite H. simpl.
    unfold bind, check. rewrite index_short by lia. reflexivity.
  - eexists. unfold outcome_of, sessionRequest, parseDims. simpl.
    unfold bind, check. rewrite BigEndian_Uint32_short by lia. reflexivity.
  - eapply added_nil. unfold sessionRequest, parseDims. simpl.
    unfold bind, check. rewrite BigEndian_Uint32_short by lia. reflexivity.
  - eexists. unfold outcome_of, sessionRequest, handleSessionSubSystem. simpl.
    unfold bind, check. rewrite slice_from_short by lia. reflexivity.
  - eapply added_nil. unfold sessionRequest, handleSessionSubSystem. simpl.
    unfold bind, check. rewrite slice_from_short by lia. reflexivity.
Qed.

Lemma short_session_payload_panics_witness :
  (length [x00; x00; x00] < 4)%nat
  /\ AllowExecute allow_all = true
  /\ panics (sessionRequest allow_all os_good "sh" false
               (mkRequest "pty-req" true [x00; x00; x00])) empty_world
  /\ panics (sessionRequest allow_all os_good "sh" false
               (mkRequest "window-change" false [x00; x00; x00])) empty_world
  /\ panics (sessionRequest allow_all os_good "sh" false
               (mkRequest "subsystem" true [x00; x00; x00])) empty_world.
Proof.
  split; [simpl; lia|]. split; [reflexivity|].
  destruct (short_session_payload_panics allow_all os_good "sh" false true
              [x00; x00; x00] empty_world) as (Hpty & _ & Hsub & _); [simpl; lia|].
  destruct (short_session_payload_panics allow_all os_good "sh" false false
              [x00; x00; x00] empty_world) as (_ & Hwin & _); [simpl; lia|].
  split; [apply Hpty; reflexivity|]. split; [apply Hwin | apply Hsub].
Defined.

(** A [window-change] needs eight bytes; with four to seven the second read
    of [parseDims] panics. *)
Lemma window_change_short_panics (s : Server) (os : OS) (shell : string)
    (shf wantReply : bool) (payload : list byte) (w : World) :
  (length payload < 8)%nat ->
  panics (sessionRequest s os shell shf (mkRequest "window-change" wantReply payload)) w.
Proof.
  intros Hlen. unfold panics, outcome_of, sessionRequest, parseDims. simpl.
  unfold bind, check.
  destruct (BigEndian_Uint32 payload) eqn:E1; simpl; [|eauto].
  destruct (slice_from payload 4) as [b4|] eqn:E2; simpl; [|eauto].
  rewrite BigEndian_Uint32_short; simpl; [eauto|].
  unfold slice_from in E2.
  destruct ((0 <=? 4) && (4 <=? Z.of_nat (length payload))); [|discriminate].
  injection E2 as <-. rewrite length_drop. lia.
Qed.

(** The terminal-name length is a [byte] and [termLen+4] wraps at 256: with a
    length byte of 252 the dimensions are read from offset 0. *)
Example pty_req_termLen_wraps :
  trace_of (sessionRequest allow_all os_good "sh" false
              (mkRequest "pty-req" true
                 [x00; x00; x00; xfc; x00; x00; x00; x50]))
           empty_world
  = [CreatePty "sh"; SetWinsize 252 80; Reply true].
Proof. vm_compute. reflexivity. Qed.

(** A [subsystem] name other than sftp is answered false without a log line. *)
Example subsystem_other_name :
  trace_of (sessionRequest allow_all os_good "sh" false
              (mkRequest "subsystem" true (Marshal [VString (bytes_of "scp")])))
           empty_world
  = [Reply false].
Proof. vm_compute. reflexivity. Qed.

(** ** Cancelling a forward *)

Section Cancel.
Variables (os : OS) (req : Request) (w : World).

(** C2 (what the code does). For a [cancel-tcpip-forward] whose bind
    address is not in the registry the handler replies false and logs, and
    then goes on, for want of a [return], to [ln.Close()] on the nil
    listener: it panics. *)
Theorem cancelTcpipForward_absent_panics (addr : list byte) (port : Z) :
  Unmarshal (Payload req) [KString; KUint32] = Some [VString addr; VUint32 port] ->
  bindAddressToListener w !! JoinHostPort (string_of addr) (Itoa port) = None ->
  outcome_of (cancelTcpipForward os req) w
    = Panicked "invalid memory address or nil pointer dereference"
  /\ added (cancelTcpipForward os req) w = [Reply false; Log "failed to find listener"].
Proof.
  intros Hu Hreg.
  assert (H : cancelTcpipForward os req w
              = (Panicked "invalid memory address or nil pointer dereference",
                 mkWorld (bindAddressToListener w)
                         (trace w ++ [Reply false; Log "failed to find listener"]))).
  { unfold cancelTcpipForward. rewrite Hu. unfold bind, LoadAndDelete.
    rewrite Hreg. monad. reflexivity. }
  split.
  - unfold outcome_of. rewrite H. reflexivity.
  - eapply added_app. exact H.
Qed.

(** The sibling handler has the [return]: an absent socket path is logged
    and answered false, and nothing else happens. *)
Lemma cancelStreamlocalForward_absent (socketPath : list byte) :
  Unmarshal (Payload req) [KString] = Some [VString socketPath] ->
  bindAddressToListener w !! string_of socketPath = None ->
  cancelStreamlocalForward os req w
  = (Returned tt, mkWorld (bindAddressToListener w)
                          (trace w ++ [Log "failed to find listener"; Reply false])).
Proof.
  intros Hu Hreg. unfold cancelStreamlocalForward. rewrite Hu.
  unfold bind, LoadAndDelete. rewrite Hreg. monad. reflexivity.
Qed.

(** A registered bind is taken out of the registry and its listener is
    closed; when the close succeeds the only reply is true. *)
Lemma cancelTcpipForward_present (addr : list byte) (port : Z) (ln : Listener) :
  Unmarshal (Payload req) [KString; KUint32] = Some [VString addr; VUint32 port] ->
  bindAddressToListener w !! JoinHostPort (string_of addr) (Itoa port) = Some ln ->
  os_close_ok os ln = true ->
  cancelTcpipForward os req w
  = (Returned tt,
     mkWorld (delete (JoinHostPort (string_of addr) (Itoa port)) (bindAddressToListener w))
             (trace w ++ [ListenerClose ln; Reply true])).
Proof.
  intros Hu Hreg Hc. unfold cancelTcpipForward. rewrite Hu.
  unfold bind, LoadAndDelete. rewrite Hreg. monad. rewrite Hc. monad. reflexivity.
Qed.

Lemma cancelStreamlocalForward_present (socketPath : list byte) (ln : Listener) :
  Unmarshal (Payload req) [KString] = Some [VString socketPath] ->
  bindAddressToListener w !! string_of socketPath = Some ln ->
  os_close_ok os ln = true ->
  cancelStreamlocalForward os req w
  = (Returned tt,
     mkWorld (delete (string_of socketPath) (bindAddressToListener w))
             (trace w ++ [ListenerClose ln; Reply true])).
Proof.
  intros Hu Hreg Hc. unfold cancelStreamlocalForward. rewrite Hu.
  unfold bind, LoadAndDelete. rewrite Hreg. monad. rewrite Hc. monad. reflexivity.
Qed.

(** When the close fails both handlers reply twice: false, then true. *)
Lemma cancelTcpipForward_close_error (addr : list byte) (port : Z) (ln : Listener) :
  Unmarshal (Payload req) [KString; KUint32] = Some [VString addr; VUint32 port] ->
  bindAddressToListener w !! JoinHostPort (string_of addr) (Itoa port) = Some ln ->
  os_close_ok os ln = false ->
  added (cancelTcpipForward os req) w
  = [ListenerClose ln; Reply false; Log "failed to close"; Reply true].
Proof.
  intros Hu Hreg Hc. eapply added_app. unfold cancelTcpipForward. rewrite Hu.
  unfold bind, LoadAndDelete. rewrite Hreg. monad. rewrite Hc. monad. reflexivity.
Qed.

Lemma cancelStreamlocalForward_close_error (socketPath : list byte) (ln : Listener) :
  Unmarshal (Payload req) [KString] = Some [VString socketPath] ->
  bindAddressToListener w !! string_of socketPath = Some ln ->
  os_close_ok os ln = false ->
  added (cancelStreamlocalForward os req) w
  = [ListenerClose ln; Reply false; Log "failed to close"; Reply true].
Proof.
  intros Hu Hreg Hc. eapply added_app. unfold cancelStreamlocalForward. rewrite Hu.
  unfold bind, LoadAndDelete. rewrite Hreg. monad. rewrite Hc. monad. reflexivity.
Qed.
End Cancel.

(** The spec's scenario S4: cancel 127.0.0.1:65535 with nothing registered. *)
Lemma cancelTcpipForward_absent_panics_witness :
  let req := mkRequest "cancel-tcpip-forward" true (forwardPayload "127.0.0.1" 65535) in
  Unmarshal (Payload req) [KString; KUint32]
    = Some [VString (bytes_of "127.0.0.1"); VUint32 65535]
  /\ bindAddressToListener empty_world
       !! JoinHostPort (string_of (bytes_of "127.0.0.1")) (Itoa 65535) = None
  /\ outcome_of (cancelTcpipForward os_good req) empty_world
     = Panicked "invalid memory address or nil pointer dereference"
  /\ added (cancelTcpipForward os_good req) empty_world
     = [Reply false; Log "failed to find listener"].
Proof.
  intros req. split; [vm_compute; reflexivity|]. split; [reflexivity|].
  apply (cancelTcpipForward_absent_panics os_good req empty_world
           (bytes_of "127.0.0.1") 65535).
  - vm_compute. reflexivity.
  - reflexivity.
Defined.

Example cancel_after_forward :
  let fwd := mkRequest "tcpip-forward" true (forwardPayload "127.0.0.1" 8080) in
  let cancel := mkRequest "cancel-tcpip-forward" true (forwardPayload "127.0.0.1" 8080) in
  HandleGlobalRequests allow_all os_good [fwd; cancel] empty_world
  = (Returned tt,
     mkWorld ∅ [Go TTcpipForward; Listen "tcp" "127.0.0.1:8080"; Reply true;
                Watchdog 1%nat; ListenerAccept 1%nat;
                Go TCancelTcpipForward; ListenerClose 1%nat; Reply true]).
Proof. vm_compute. reflexivity. Qed.

(** ** The bridge *)

Lemma closes_app (e : stream) (t1 t2 : list event) :
  closes e (t1 ++ t2) = (closes e t1 + closes e t2)%nat.
Proof. unfold closes. apply count_occ_app. Qed.

Lemma step_threads (who : bool) (b : Bridge) :
  first_thread (bridge_step who b) = (if who then first_thread b else tail (first_thread b))
  /\ second_thread (bridge_step who b) = (if who then tail (second_thread b) else second_thread b).
Proof.
  unfold bridge_step. destruct who.
  - destruct (second_thread b) eqn:E; simpl; rewrite ?E; auto.
  - destruct (first_thread b) eqn:E; simpl; rewrite ?E; auto.
Qed.

Lemma run_sched_app (s1 s2 : list bool) (b : Bridge) :
  run_sched (s1 ++ s2) b = run_sched s2 (run_sched s1 b).
Proof. unfold run_sched. apply fold_left_app. Qed.

Lemma run_sched_cons (who : bool) (sched : list bool) (b : Bridge) :
  run_sched (who :: sched) b = run_sched sched (bridge_step who b).
Proof. reflexivity. Qed.

Lemma drain_first (n : nat) : forall b,
  length (first_thread b) = n ->
  first_thread (run_sched (repeat false n) b) = []
  /\ second_thread (run_sched (repeat false n) b) = second_thread b.
Proof.
  induction n as [|n IH]; intros b Hn.
  - simpl. split; [|reflexivity]. by destruct (first_thread b).
  - change (repeat false (S n)) with (false :: repeat false n).
    rewrite run_sched_cons. destruct (step_threads false b) as [H1 H2].
    destruct (IH (bridge_step false b)) as [IH1 IH2].
    + rewrite H1. destruct (first_thread b); simpl in *; lia.
    + split; [exact IH1 | congruence].
Qed.

Lemma drain_second (n : nat) : forall b,
  length (second_thread b) = n ->
  second_thread (run_sched (repeat true n) b) = []
  /\ first_thread (run_sched (repeat true n) b) = first_thread b.
Proof.
  induction n as [|n IH]; intros b Hn.
  - simpl. split; [|reflexivity]. by destruct (second_thread b).
  - change (repeat true (S n)) with (true :: repeat true n).
    rewrite run_sched_cons. destruct (step_threads true b) as [H1 H2].
    destruct (IH (bridge_step true b)) as [IH1 IH2].
    + rewrite H2. destruct (second_thread b); simpl in *; lia.
    + split; [exact IH1 | congruence].
Qed.

(** Both threads of a bridge that was run have reached their end. *)
Lemma bridge_finish_done (b : Bridge) :
  first_thread (bridge_finish b) = [] /\ second_thread (bridge_finish b) = [].
Proof.
  unfold bridge_finish. rewrite run_sched_app.
  destruct (drain_first (length (first_thread b)) b eq_refl) as [F1 F2].
  rewrite <- F2.
  destruct (drain_second _ (run_sched (repeat false (length (first_thread b))) b) eq_refl)
    as [S1 S2].
  split; [congruence | exact S1].
Qed.

(** An invariant of the steps holds after any schedule. *)
Lemma run_sched_invariant (I : Bridge -> Prop) :
  (forall who b, I b -> I (bridge_step who b)) ->
  forall sched b, I b -> I (run_sched sched b).
Proof.
  intros Hstep sched. induction sched as [|who sched IH]; intros b Hb; [exact Hb|].
  rewrite run_sched_cons. auto.
Qed.

Lemma bridge_run_invariant (I : Bridge -> Prop) :
  (forall who b, I b -> I (bridge_step who b)) ->
  forall sched b, I b -> I (bridge_run sched b).
Proof.
  intros Hstep sched b Hb. unfold bridge_run, bridge_finish.
  do 2 (apply run_sched_invariant; [exact Hstep|]). exact Hb.
Qed.

(** *** With the latch: [handleDirectTcpip], [handleDirectStreamlocal] *)

Lemma no_IClose_tail (i : instr) (th : list instr) : no_IClose (i :: th) -> no_IClose th.
Proof. intros H e Hin. apply (H e). by right. Qed.

Lemma latch_exec (i : instr) (rest other : list instr) (done : bool) (ev : list event) :
  no_IClose (i :: rest) ->
  closes Channel ev = (if done then 1 else 0)%nat ->
  closes Conn ev = (if done then 1 else 0)%nat ->
  (done = false -> In IOnceDo (i :: rest) /\ In IOnceDo other) ->
  let r := exec_instr i done in
  closes Channel (ev ++ snd r) = (if fst r then 1 else 0)%nat
  /\ closes Conn (ev ++ snd r) = (if fst r then 1 else 0)%nat
  /\ (fst r = false -> In IOnceDo rest /\ In IOnceDo other).
Proof.
  intros Hno Hch Hco Hp r. subst r. rewrite !closes_app, Hch, Hco.
  destruct i as [dst src| |e]; simpl.
  - split; [unfold closes; simpl; lia|]. split; [unfold closes; simpl; lia|].
    intros Hd. destruct (Hp Hd) as [[Hh|Hin] Ho]; [discriminate | auto].
  - destruct done; simpl;
      (split; [vm_compute; reflexivity|]; split; [vm_compute; reflexivity|];
       intros Hd; discriminate).
  - exfalso. apply (Hno e). by left.
Qed.

Lemma latch_inv_step (who : bool) (b : Bridge) : latch_inv b -> latch_inv (bridge_step who b).
Proof.
  intros (N1 & N2 & Hch & Hco & Hp). unfold bridge_step. destruct who.
  - destruct (second_thread b) as [|i rest] eqn:E; [by rewrite <- E in *|].
    destruct (latch_exec i rest (first_thread b) (once_done b) (events b) N2 Hch Hco)
      as (A & B & C); [intros Hd; destruct (Hp Hd); auto|].
    unfold latch_inv; simpl.
    split; [eauto using no_IClose_tail|]. split; [eauto using no_IClose_tail|].
    split; [exact A|]. split; [exact B|]. intros Hd. destruct (C Hd). auto.
  - destruct (first_thread b) as [|i rest] eqn:E; [by rewrite <- E in *|].
    destruct (latch_exec i rest (second_thread b) (once_done b) (events b) N1 Hch Hco)
      as (A & B & C); [intros Hd; destruct (Hp Hd); auto|].
    unfold latch_inv; simpl.
    split; [eauto using no_IClose_tail|]. split; [eauto using no_IClose_tail|].
    split; [exact A|]. split; [exact B|]. intros Hd. destruct (C Hd). auto.
Qed.

Lemma latch_inv_direct : latch_inv direct_bridge.
Proof.
  unfold latch_inv, direct_bridge, no_IClose; simpl.
  repeat split; auto; intros e [?|[?|[]]]; discriminate.
Qed.

(** Under [closeOnce] the closer runs exactly once, whichever copy ends
    first: in a finished direct bridge the channel and the connection have
    each been closed one time, and never more than once on the way. *)
Lemma direct_bridge_closes_once (sched : list bool) :
  closes Channel (events (bridge_run sched direct_bridge)) = 1%nat
  /\ closes Conn (events (bridge_run sched direct_bridge)) = 1%nat.
Proof.
  pose proof (bridge_run_invariant latch_inv latch_inv_step sched _ latch_inv_direct)
    as (_ & _ & Hch & Hco & Hp).
  destruct (bridge_finish_done (run_sched sched direct_bridge)) as [F1 _].
  fold (bridge_run sched direct_bridge) in F1.
  destruct (once_done (bridge_run sched direct_bridge)); [auto|].
  destruct (Hp eq_refl) as [Hin _]. rewrite F1 in Hin. destruct Hin.
Qed.

Lemma direct_bridge_at_most_once (sched : list bool) :
  (closes Channel (events (run_sched sched direct_bridge)) <= 1)%nat
  /\ (closes Conn (events (run_sched sched direct_bridge)) <= 1)%nat.
Proof.
  pose proof (run_sched_invariant latch_inv latch_inv_step sched _ latch_inv_direct)
    as (_ & _ & Hch & Hco & _).
  rewrite Hch, Hco. destruct (once_done _); lia.
Qed.

(** *** Without the latch: the forwarded channels *)

Lemma unlatched_exec (e : stream) (i : instr) (rest : list instr) (done : bool)
    (ev : list event) :
  no_IOnceDo (i :: rest) ->
  (closes e (ev ++ snd (exec_instr i done)) + pending e rest
   = closes e ev + pending e (i :: rest))%nat.
Proof.
  intros Hno. rewrite closes_app. unfold pending, closes.
  destruct i as [dst src| |e'].
  - rewrite (count_occ_cons_neq instr_eq_dec) by discriminate. simpl. lia.
  - exfalso. apply Hno. by left.
  - destruct (stream_eq_dec e' e) as [->|Hne]; cbn [exec_instr snd].
    + rewrite (count_occ_cons_eq instr_eq_dec) by reflexivity.
      rewrite (count_occ_cons_eq event_eq_dec) by reflexivity. simpl. lia.
    + rewrite (count_occ_cons_neq instr_eq_dec) by congruence.
      rewrite (count_occ_cons_neq event_eq_dec) by congruence. simpl. lia.
Qed.

Lemma unlatched_inv_step (e : stream) (n : nat) (who : bool) (b : Bridge) :
  unlatched_inv e n b -> unlatched_inv e n (bridge_step who b).
Proof.
  intros (N1 & N2 & Hb). unfold bridge_step. destruct who.
  - destruct (second_thread b) as [|i rest] eqn:E; [unfold unlatched_inv; by rewrite E|].
    unfold unlatched_inv, close_budget in *; simpl. rewrite E in Hb.
    repeat split; auto.
    + intros Hin. apply N2. by right.
    + pose proof (unlatched_exec e i rest (once_done b) (events b) N2). lia.
  - destruct (first_thread b) as [|i rest] eqn:E; [unfold unlatched_inv; by rewrite E|].
    unfold unlatched_inv, close_budget in *; simpl. rewrite E in Hb.
    repeat split; auto.
    + intros Hin. apply N1. by right.
    + pose proof (unlatched_exec e i rest (once_done b) (events b) N1). lia.
Qed.

Lemma unlatched_inv_reverse (e : stream) :
  unlatched_inv e (close_budget e reverse_bridge) reverse_bridge.
Proof.
  unfold unlatched_inv, no_IOnceDo, reverse_bridge; simpl.
  repeat split; auto; intros [?|[?|[?|[]]]]; discriminate.
Qed.

(** Without a latch every close a thread has ahead is carried out. *)
Lemma reverse_bridge_budget (sched : list bool) (e : stream) :
  closes e (events (bridge_run sched reverse_bridge)) = close_budget e reverse_bridge.
Proof.
  destruct (bridge_finish_done (run_sched sched reverse_bridge)) as [F1 F2].
  fold (bridge_run sched reverse_bridge) in F1, F2.
  pose proof (bridge_run_invariant _ (unlatched_inv_step e _) sched _
                (unlatched_inv_reverse e)) as (_ & _ & Hb).
  unfold close_budget at 1 in Hb. rewrite F1, F2 in Hb. simpl in Hb.
  unfold pending in Hb. simpl in Hb. lia.
Qed.

(** C3 (what the code does). The two copy goroutines of a forwarded-tcpip or
    forwarded-streamlocal channel share no latch: each closes the connection
    and the channel when its own copy ends.  In every interleaving both ends
    are closed twice; for the direct channels, under [closeOnce], once. *)
Theorem reverse_bridge_closes_twice (sched : list bool) :
  closes Conn (events (bridge_run sched reverse_bridge)) = 2%nat
  /\ closes Channel (events (bridge_run sched reverse_bridge)) = 2%nat
  /\ closes Conn (events (bridge_run sched direct_bridge)) = 1%nat
  /\ closes Channel (events (bridge_run sched direct_bridge)) = 1%nat.
Proof.
  rewrite !reverse_bridge_budget.
  destruct (direct_bridge_closes_once sched) as [D1 D2].
  repeat split; auto.
Qed.

(** In the handler: the goroutine of an accepted connection whose reverse
    channel opens closes the connection twice and the channel twice. *)
Lemma forwardConn_closes_twice (name : string) (payload : list byte) (c : Accepted)
    (w : World) :
  open_channel_ok c = true ->
  closes Conn (added (forwardConn name payload c) w) = 2%nat
  /\ closes Channel (added (forwardConn name payload c) w) = 2%nat.
Proof.
  intros Hok.
  assert (H : added (forwardConn name payload c) w
              = ([OpenChannel name payload; DiscardRequests]
                 ++ events (bridge_run (accepted_sched c) reverse_bridge))%list).
  { eapply added_app. unfold forwardConn. monad. rewrite Hok. monad. reflexivity. }
  rewrite H, !closes_app, !reverse_bridge_budget. split; reflexivity.
Qed.

(** The spec's scenario S3 with one inbound connection: the reverse channel
    is opened with the originator, and both ends are closed by each of the
    two copy goroutines. *)
Example forward_one_connection :
  let os := with_accepts [mkAccepted (Some ("10.0.0.1", 4000)) true [true; false]] os_good in
  trace_of (globalRequest allow_all os
              (mkRequest "tcpip-forward" true (forwardPayload "127.0.0.1" 0))) empty_world
  = [Go TTcpipForward; Listen "tcp" "127.0.0.1:0"; Reply true; Watchdog 1%nat;
     ListenerAccept 1%nat;
     OpenChannel "forwarded-tcpip"
       (Marshal [VString (bytes_of "127.0.0.1"); VUint32 0;
                 VString (bytes_of "10.0.0.1"); VUint32 4000]);
     DiscardRequests;
     CopyDone Conn Channel; CopyDone Channel Conn;
     Close Conn; Close Channel; Close Conn; Close Channel;
     ListenerAccept 1%nat].
Proof. vm_compute. reflexivity. Qed.

(** A direct channel under three interleavings: one close of each end. *)
Example direct_bridge_schedules :
  events (bridge_run [] direct_bridge)
    = [CopyDone Conn Channel; Close Channel; Close Conn; CopyDone Channel Conn]
  /\ events (bridge_run [true; true] direct_bridge)
    = [CopyDone Channel Conn; Close Channel; Close Conn; CopyDone Conn Channel]
  /\ events (bridge_run [true; false; false; true] direct_bridge)
    = [CopyDone Channel Conn; CopyDone Conn Channel; Close Channel; Close Conn].
Proof. repeat split. Qed.

(** ** The exit status *)

Lemma byte_val_of_Z (z : Z) : byte_val (byte_of_Z z) = z mod 2 ^ 8.
Proof.
  unfold byte_val, byte_of_Z, wrap8. change 256 with (2 ^ 8).
  pose proof (Z.mod_pos_bound z (2 ^ 8) ltac:(lia)) as Hb.
  destruct (Byte.of_N (Z.to_N (z mod 2 ^ 8))) as [b|] eqn:E.
  - apply Byte.to_of_N in E. rewrite E. lia.
  - apply Byte.of_N_None_iff in E. change (2 ^ 8) with 256 in *. lia.
Qed.

Lemma testbit_shifted_byte (v : Z) (k n : Z) :
  0 <= k -> 0 <= n ->
  Z.testbit (Z.shiftl (Z.shiftr v k mod 2 ^ 8) k) n
  = (k <=? n) && (n <? k + 8) && Z.testbit v n.
Proof.
  intros Hk Hn. rewrite Z.shiftl_spec by lia.
  destruct (Z.leb_spec k n) as [Hle|Hlt].
  - rewrite Z.testbit_mod_pow2 by lia. rewrite Z.shiftr_spec by lia.
    replace (n - k + k) with n by lia.
    destruct (Z.ltb_spec (n - k) 8), (Z.ltb_spec n (k + 8)); simpl; auto; lia.
  - rewrite Z.testbit_neg_r by lia. reflexivity.
Qed.

(** Writing a [uint32] big-endian and reading it back: the value modulo 2^32. *)
Lemma BigEndian_roundtrip (v : Z) (rest : list byte) :
  BigEndian_Uint32 (BigEndian_PutUint32 v ++ rest) = Some (wrap32 v).
Proof.
  unfold BigEndian_PutUint32, BigEndian_Uint32, wrap32. simpl. f_equal.
  rewrite !byte_val_of_Z. change 4294967296 with (2 ^ 32).
  apply Z.bits_inj'. intros n Hn.
  rewrite !Z.lor_spec, !testbit_shifted_byte by lia.
  rewrite !Z.testbit_mod_pow2 by lia.
  destruct (Z.leb_spec 24 n), (Z.leb_spec 16 n), (Z.leb_spec 8 n),
    (Z.ltb_spec n (24 + 8)), (Z.ltb_spec n (16 + 8)), (Z.ltb_spec n (8 + 8)),
    (Z.ltb_spec n 8), (Z.ltb_spec n 32); simpl;
    try lia; rewrite ?orb_false_r; reflexivity.
Qed.

(** The [exit-status] payload decodes to the status it was built from. *)
Lemma exitStatusMsg_decodes (exitCode : Z) :
  Unmarshal (exitStatusMsg exitCode) [KUint32] = Some [VUint32 (wrap32 exitCode)].
Proof.
  pose proof (BigEndian_roundtrip (wrap32 exitCode) []) as H.
  rewrite app_nil_r in H.
  unfold exitStatusMsg, Marshal. cbn [map concat marshalValue]. rewrite app_nil_r.
  unfold BigEndian_PutUint32 in *.
  unfold Unmarshal. cbn [parseFields]. unfold parseUint32. rewrite H.
  cbn [drop]. unfold wrap32. rewrite Z.mod_mod by lia. reflexivity.
Qed.

Lemma wrap32_small (z : Z) : 0 <= z < 4294967296 -> wrap32 z = z.
Proof. intros H. unfold wrap32. apply Z.mod_small. exact H. Qed.

(** The whole run of [handleExecRequest] once the command and its pipes exist. *)
Lemma handleExecRequest_runs (os : OS) (req : Request) (command : list byte)
    (argv0 : string) (args : list string) (w : World) :
  Unmarshal (Payload req) [KString] = Some [VString command] ->
  shellwords_Parse os (string_of command) = Some (argv0 :: args) ->
  os_stdin_pipe os = true -> os_stdout_pipe os = true -> os_stderr_pipe os = true ->
  handleExecRequest os req w
  = (Returned tt,
     mkWorld (bindAddressToListener w)
       (trace w ++
        [Command (argv0 :: args); Pipe Stdin; Pipe Stdout; Pipe Stderr;
         GoCopy Stdin Channel; GoCopy Channel Stdout; GoCopy Channel Stderr;
         Reply true; Run;
         SendRequest "exit-status" false
           (exitStatusMsg (exitCodeOf (os_run os (argv0 :: args))));
         Close Channel])).
Proof.
  intros Hu Hp Hi Ho He.
  unfold handleExecRequest. rewrite Hu, Hp. monad. rewrite Hi, Ho, He. monad.
  reflexivity.
Qed.

(** C4 (as stated, refuted). A process killed by a signal gives an
    [ExitError] whose [ExitCode()] is -1; the status the handler sends is
    [uint32(-1)], 4294967295: it is neither that code nor 0. *)
Lemma exec_exit_status_counterexample :
  let req := mkRequest "exec" true (execPayload "/bin/sleep 100") in
  let os := with_run (RunExitError (-1)) os_good in
  exitCodeOf (os_run os ["/bin/sleep"; "100"]) = -1
  /\ handleExecRequest os req empty_world
     = (Returned tt,
        mkWorld ∅
          [Command ["/bin/sleep"; "100"]; Pipe Stdin; Pipe Stdout; Pipe Stderr;
           GoCopy Stdin Channel; GoCopy Channel Stdout; GoCopy Channel Stderr;
           Reply true; Run;
           SendRequest "exit-status" false [xff; xff; xff; xff];
           Close Channel])
  /\ Unmarshal [xff; xff; xff; xff] [KUint32] = Some [VUint32 4294967295]
  /\ 4294967295 <> -1 /\ 4294967295 <> 0.
Proof.
  intros req os. split; [reflexivity|]. split; [vm_compute; reflexivity|].
  split; [vm_compute; reflexivity|]. split; discriminate.
Qed.

Lemma wrap32_negative (z : Z) : -4294967296 <= z < 0 -> wrap32 z = z + 4294967296.
Proof.
  intros H. unfold wrap32.
  rewrite <- (Z.mod_add z 1 4294967296) by lia. apply Z.mod_small. lia.
Qed.

(** C4 (amended). When the process of an exec request runs (the payload
    parses, argv is not empty, the three pipes exist), the exit code is 0
    when [cmd.Run] succeeds, the [ExitCode()] of the error when it returns an
    [ExitError], and 0 on any other error; after replying true the handler
    sends [exit-status] with want_reply false and as status that code
    converted to [uint32], and only then closes the session channel.  The
    status is the code itself when the code is not negative, and the code
    plus 2^32 when it is: 4294967295 for the -1 of a signalled process. *)
Theorem exec_exit_status (os : OS) (req : Request) (command : list byte)
    (argv0 : string) (args : list string) (w : World) :
  Unmarshal (Payload req) [KString] = Some [VString command] ->
  shellwords_Parse os (string_of command) = Some (argv0 :: args) ->
  os_stdin_pipe os = true -> os_stdout_pipe os = true -> os_stderr_pipe os = true ->
  let exitCode := exitCodeOf (os_run os (argv0 :: args)) in
  (exitCode = match os_run os (argv0 :: args) with
              | RunOk => 0
              | RunExitError code => code
              | RunOtherError => 0
              end)
  /\ handleExecRequest os req w
     = (Returned tt,
        mkWorld (bindAddressToListener w)
          (trace w ++
           [Command (argv0 :: args); Pipe Stdin; Pipe Stdout; Pipe Stderr;
            GoCopy Stdin Channel; GoCopy Channel Stdout; GoCopy Channel Stderr;
            Reply true; Run;
            SendRequest "exit-status" false (exitStatusMsg exitCode);
            Close Channel]))
  /\ Unmarshal (exitStatusMsg exitCode) [KUint32] = Some [VUint32 (wrap32 exitCode)]
  /\ (0 <= exitCode < 4294967296 -> wrap32 exitCode = exitCode)
  /\ (-4294967296 <= exitCode < 0 -> wrap32 exitCode = exitCode + 4294967296).
Proof.
  intros Hu Hp Hi Ho He exitCode. split; [reflexivity|]. split.
  - by apply (handleExecRequest_runs os req command).
  - split; [apply exitStatusMsg_decodes|].
    split; [apply wrap32_small | apply wrap32_negative].
Qed.

(** A command that exits with status 3, and one killed by a signal. *)
Lemma exec_exit_status_witness :
  let req := mkRequest "exec" true (execPayload "/bin/sh -c exit") in
  let os := with_run (RunExitError 3) os_good in
  let os' := with_run (RunExitError (-1)) os_good in
  Unmarshal (Payload req) [KString] = Some [VString (bytes_of "/bin/sh -c exit")]
  /\ shellwords_Parse os (string_of (bytes_of "/bin/sh -c exit")) = Some ["/bin/sh"; "-c"; "exit"]
  /\ added (handleExecRequest os req) empty_world
     = [Command ["/bin/sh"; "-c"; "exit"]; Pipe Stdin; Pipe Stdout; Pipe Stderr;
        GoCopy Stdin Channel; GoCopy Channel Stdout; GoCopy Channel Stderr;
        Reply true; Run;
        SendRequest "exit-status" false [x00; x00; x00; x03];
        Close Channel]
  /\ wrap32 (exitCodeOf (os_run os ["/bin/sh"; "-c"; "exit"])) = 3
  /\ added (handleExecRequest os' req) empty_world
     = [Command ["/bin/sh"; "-c"; "exit"]; Pipe Stdin; Pipe Stdout; Pipe Stderr;
        GoCopy Stdin Channel; GoCopy Channel Stdout; GoCopy Channel Stderr;
        Reply true; Run;
        SendRequest "exit-status" false [xff; xff; xff; xff];
        Close Channel]
  /\ wrap32 (exitCodeOf (os_run os' ["/bin/sh"; "-c"; "exit"])) = -1 + 4294967296.
Proof.
  intros req os os'. split; [vm_compute; reflexivity|]. split; [vm_compute; reflexivity|].
  destruct (exec_exit_status os req (bytes_of "/bin/sh -c exit") "/bin/sh" ["-c"; "exit"]
              empty_world) as (_ & H & _ & Hpos & _);
    [vm_compute; reflexivity | vm_compute; reflexivity
    | reflexivity | reflexivity | reflexivity |].
  destruct (exec_exit_status os' req (bytes_of "/bin/sh -c exit") "/bin/sh" ["-c"; "exit"]
              empty_world) as (_ & H' & _ & _ & Hneg);
    [vm_compute; reflexivity | vm_compute; reflexivity
    | reflexivity | reflexivity | reflexivity |].
  split; [eapply added_app; exact H|].
  split; [apply Hpos; simpl; lia|].
  split; [eapply added_app; exact H'|].
  apply Hneg. simpl. lia.
Defined.

(** [ExitCode()] is -1 for a process killed by a signal; as a [uint32] the
    status sent is then 4294967295. *)
Example exit_status_of_signalled :
  exitStatusMsg (exitCodeOf (RunExitError (-1))) = [xff; xff; xff; xff]
  /\ wrap32 (-1) = 4294967295.
Proof. split; reflexivity. Qed.

Example exec_echo_hello :
  trace_of (handleChannel allow_all os_good "sh" (mkNewChannel "session" [])
              [mkRequest "exec" true (execPayload "/bin/echo hello")]) empty_world
  = [Accept; Command ["/bin/echo"; "hello"]; Pipe Stdin; Pipe Stdout; Pipe Stderr;
     GoCopy Stdin Channel; GoCopy Channel Stdout; GoCopy Channel Stderr;
     Reply true; Run; SendRequest "exit-status" false [x00; x00; x00; x00];
     Close Channel].
Proof. vm_compute. reflexivity. Qed.

(** ** Exec: failures *)

(** C7 (as stated, refuted). When the binary cannot be started [cmd.Run]
    returns an error that is no [ExitError], but the handler has replied true
    before it calls [cmd.Run]; and when the stdin pipe cannot be created the
    handler returns with the session channel left open. *)
Lemma exec_failure_counterexample :
  let req := mkRequest "exec" true (execPayload "/bin/missing") in
  handleExecRequest (with_run RunOtherError os_good) req empty_world
  = (Returned tt,
     mkWorld ∅ [Command ["/bin/missing"]; Pipe Stdin; Pipe Stdout; Pipe Stderr;
                GoCopy Stdin Channel; GoCopy Channel Stdout; GoCopy Channel Stderr;
                Reply true; Run;
                SendRequest "exit-status" false [x00; x00; x00; x00];
                Close Channel])
  /\ handleExecRequest (with_pipes false true true os_good) req empty_world
     = (Returned tt, mkWorld ∅ [Command ["/bin/missing"]; Pipe Stdin]).
Proof. split; vm_compute; reflexivity. Qed.

(** C7 (amended). When one of the three pipes cannot be created the handler
    returns without any reply, so without ever replying true.  A spawn
    failure shows only in [cmd.Run], after the handler has replied true; it
    then sends [exit-status] with status 0 and closes the session channel. *)
Theorem exec_failure_paths (os : OS) (req : Request) (command : list byte)
    (argv0 : string) (args : list string) (w : World) :
  Unmarshal (Payload req) [KString] = Some [VString command] ->
  shellwords_Parse os (string_of command) = Some (argv0 :: args) ->
  (os_stdin_pipe os && os_stdout_pipe os && os_stderr_pipe os = false ->
     outcome_of (handleExecRequest os req) w = Returned tt
     /\ forall ok, ~ In (Reply ok) (added (handleExecRequest os req) w))
  /\ (os_stdin_pipe os && os_stdout_pipe os && os_stderr_pipe os = true ->
      os_run os (argv0 :: args) = RunOtherError ->
      outcome_of (handleExecRequest os req) w = Returned tt
      /\ added (handleExecRequest os req) w
         = [Command (argv0 :: args); Pipe Stdin; Pipe Stdout; Pipe Stderr;
            GoCopy Stdin Channel; GoCopy Channel Stdout; GoCopy Channel Stderr;
            Reply true; Run;
            SendRequest "exit-status" false (exitStatusMsg 0);
            Close Channel]).
Proof.
  intros Hu Hp. split.
  - intros Hpipes.
    assert (H : exists es,
               handleExecRequest os req w
               = (Returned tt, mkWorld (bindAddressToListener w) (trace w ++ es))
               /\ forall ok, ~ In (Reply ok) es).
    { unfold handleExecRequest. rewrite Hu, Hp. monad.
      destruct (os_stdin_pipe os); monad.
      - destruct (os_stdout_pipe os); monad.
        + destruct (os_stderr_pipe os); monad; [discriminate|].
          eexists. split; [reflexivity|].
          intros ok Hin. simpl in Hin. intuition discriminate.
        + eexists. split; [reflexivity|].
          intros ok Hin. simpl in Hin. intuition discriminate.
      - eexists. split; [reflexivity|].
        intros ok Hin. simpl in Hin. intuition discriminate. }
    destruct H as (es & H & Hno). split.
    + unfold outcome_of. rewrite H. reflexivity.
    + rewrite (added_app _ _ _ _ _ H). exact Hno.
  - intros Hpipes Hrun.
    apply andb_true_iff in Hpipes as [Hpipes He].
    apply andb_true_iff in Hpipes as [Hi Ho].
    pose proof (handleExecRequest_runs os req command argv0 args w Hu Hp Hi Ho He) as H.
    rewrite Hrun in H. simpl in H. split.
    + unfold outcome_of. rewrite H. reflexivity.
    + eapply added_app. exact H.
Qed.

Lemma exec_failure_paths_witness :
  let req := mkRequest "exec" true (execPayload "/bin/missing") in
  (forall ok, ~ In (Reply ok)
       (added (handleExecRequest (with_pipes true false true os_good) req) empty_world))
  /\ added (handleExecRequest (with_run RunOtherError os_good) req) empty_world
     = [Command ["/bin/missing"]; Pipe Stdin; Pipe Stdout; Pipe Stderr;
        GoCopy Stdin Channel; GoCopy Channel Stdout; GoCopy Channel Stderr;
        Reply true; Run;
        SendRequest "exit-status" false (exitStatusMsg 0);
        Close Channel].
Proof.
  intros req. split.
  - destruct (exec_failure_paths (with_pipes true false true os_good) req
                (bytes_of "/bin/missing") "/bin/missing" [] empty_world) as [H _];
      [vm_compute; reflexivity | vm_compute; reflexivity |].
    apply H. reflexivity.
  - destruct (exec_failure_paths (with_run RunOtherError os_good) req
                (bytes_of "/bin/missing") "/bin/missing" [] empty_world) as [_ H];
      [vm_compute; reflexivity | vm_compute; reflexivity |].
    apply H; reflexivity.
Defined.

(** ** Remote forwarding and the registry *)

Lemma bridge_events_step (who : bool) (b : Bridge) :
  forward_events (events b) -> forward_events (events (bridge_step who b)).
Proof.
  intros H. unfold bridge_step.
  assert (Hexec : forall i, forward_events (events b ++ snd (exec_instr i (once_done b)))).
  { intros i. apply Forall_app. split; [exact H|].
    destruct i as [dst src| |e]; simpl.
    - by repeat constructor.
    - destruct (once_done b); by repeat constructor.
    - by repeat constructor. }
  destruct who.
  - destruct (second_thread b); simpl; auto.
  - destruct (first_thread b); simpl; auto.
Qed.

Lemma bridge_run_events (sched : list bool) (b : Bridge) :
  forward_events (events b) -> forward_events (events (bridge_run sched b)).
Proof.
  apply (bridge_run_invariant (fun b => forward_events (events b))).
  intros who b'. apply bridge_events_step.
Qed.

Lemma adds_bind {A B} (m : M A) (k : A -> M B) (w : World) (a : A) (b : B)
    (es1 es2 : list event) :
  adds m w a es1 ->
  adds (k a) (mkWorld (bindAddressToListener w) (trace w ++ es1)) b es2 ->
  adds (bind m k) w b (es1 ++ es2).
Proof.
  unfold adds, bind. intros -> H2. rewrite H2. simpl. by rewrite app_assoc.
Qed.

Lemma adds_emit (e : event) (w : World) : adds (emit e) w tt [e].
Proof. reflexivity. Qed.

Lemma adds_ret {A} (a : A) (w : World) : adds (ret a) w a [].
Proof. unfold adds, ret. destruct w. simpl. by rewrite app_nil_r. Qed.

Lemma forwardConn_adds (name : string) (payload : list byte) (c : Accepted) (w : World) :
  exists es, adds (forwardConn name payload c) w tt es /\ forward_events es.
Proof.
  unfold forwardConn, adds. monad.
  destruct (open_channel_ok c); monad.
  - eexists. split; [reflexivity|].
    repeat (constructor; [reflexivity|]).
    apply bridge_run_events. constructor.
  - eexists. split; [reflexivity|]. by repeat constructor.
Qed.

Lemma acceptTcpip_adds (os : OS) (ln : Listener) (addr : list byte) (port : Z)
    (conns : list Accepted) : forall w,
  exists es, adds (acceptTcpip os ln addr port conns) w tt es /\ forward_events es.
Proof.
  induction conns as [|c rest IH]; intros w; simpl.
  - destruct (os_accept_error os).
    + exists [ListenerAccept ln; Log "failed to accept"]. split.
      * unfold adds. monad. reflexivity.
      * by repeat constructor.
    + exists [ListenerAccept ln]. split.
      * unfold adds. monad. reflexivity.
      * by repeat constructor.
  - set (w1 := mkWorld (bindAddressToListener w) (trace w ++ [ListenerAccept ln])).
    assert (Hsplit : exists es0,
               adds (match originator c with
                     | Some _ => ret tt
                     | None => emit (Log "failed to split remote address")
                     end) w1 tt es0 /\ forward_events es0).
    { destruct (originator c).
      - exists []. split; [apply adds_ret | constructor].
      - eexists. split; [apply adds_emit | by repeat constructor]. }
    destruct Hsplit as (es0 & H0 & F0).
    set (w2 := mkWorld (bindAddressToListener w1) (trace w1 ++ es0)).
    destruct (forwardConn_adds "forwarded-tcpip" (forwardedTcpipMsg addr port c) c w2)
      as (es1 & H1 & F1).
    destruct (IH (mkWorld (bindAddressToListener w2) (trace w2 ++ es1)))
      as (es2 & H2 & F2).
    exists (ListenerAccept ln :: es0 ++ es1 ++ es2)%list. split.
    + change (ListenerAccept ln :: es0 ++ es1 ++ es2)%list
        with ([ListenerAccept ln] ++ es0 ++ es1 ++ es2)%list.
      eapply adds_bind; [apply adds_emit|].
      eapply adds_bind; [exact H0|].
      eapply adds_bind; [exact H1|]. exact H2.
    + constructor; [reflexivity|]. repeat (apply Forall_app; split); auto.
Qed.

Lemma acceptStreamlocal_adds (os : OS) (ln : Listener) (socketPath : list byte)
    (conns : list Accepted) : forall w,
  exists es, adds (acceptStreamlocal os ln socketPath conns) w tt es /\ forward_events es.
Proof.
  induction conns as [|c rest IH]; intros w; simpl.
  - destruct (os_accept_error os).
    + exists [ListenerAccept ln; Log "failed to accept"]. split.
      * unfold adds. monad. reflexivity.
      * by repeat constructor.
    + exists [ListenerAccept ln]. split.
      * unfold adds. monad. reflexivity.
      * by repeat constructor.
  - set (w1 := mkWorld (bindAddressToListener w) (trace w ++ [ListenerAccept ln])).
    destruct (forwardConn_adds "forwarded-streamlocal@openssh.com"
                (Marshal [VString socketPath; VString []]) c w1) as (es1 & H1 & F1).
    destruct (IH (mkWorld (bindAddressToListener w1) (trace w1 ++ es1)))
      as (es2 & H2 & F2).
    exists (ListenerAccept ln :: es1 ++ es2)%list. split.
    + change (ListenerAccept ln :: es1 ++ es2)%list
        with ([ListenerAccept ln] ++ es1 ++ es2)%list.
      eapply adds_bind; [apply adds_emit|].
      eapply adds_bind; [exact H1|]. exact H2.
    + constructor; [reflexivity|]. repeat (apply Forall_app; split); auto.
Qed.

Lemma forward_events_no_close (es : list event) (l : Listener) :
  forward_events es -> ~ In (ListenerClose l) es.
Proof.
  intros H Hin. unfold forward_events in H. rewrite Forall_forall in H.
  apply list_elem_of_In in Hin. specialize (H _ Hin). discriminate.
Qed.

(** A forward that binds: listen, store, reply true, start the watchdog,
    then the accept loop. *)
Lemma handleTcpipForward_bound (os : OS) (req : Request) (addr : list byte) (port : Z)
    (ln : Listener) (w : World) :
  Unmarshal (Payload req) [KString; KUint32] = Some [VString addr; VUint32 port] ->
  os_listen os "tcp" (JoinHostPort (string_of addr) (Itoa port)) = Some ln ->
  exists es,
    handleTcpipForward os req w
    = (Returned tt,
       mkWorld (<[JoinHostPort (string_of addr) (Itoa port) := ln]> (bindAddressToListener w))
               (trace w ++ [Listen "tcp" (JoinHostPort (string_of addr) (Itoa port));
                            Reply true; Watchdog ln] ++ es))
    /\ forward_events es.
Proof.
  intros Hu Hl.
  set (address := JoinHostPort (string_of addr) (Itoa port)) in *.
  destruct (acceptTcpip_adds os ln addr port (os_accepts os)
              (mkWorld (<[address := ln]> (bindAddressToListener w))
                       (trace w ++ [Listen "tcp" address; Reply true; Watchdog ln])))
    as (es & H & F).
  exists es. split; [|exact F].
  unfold handleTcpipForward. rewrite Hu. fold address. monad. rewrite Hl. monad.
  unfold adds in H. simpl in H. rewrite H. rewrite <- app_assoc. reflexivity.
Qed.

Lemma handleStreamlocalForward_bound (os : OS) (req : Request) (socketPath : list byte)
    (ln : Listener) (w : World) :
  Unmarshal (Payload req) [KString] = Some [VString socketPath] ->
  os_listen os "unix" (string_of socketPath) = Some ln ->
  exists es,
    handleStreamlocalForward os req w
    = (Returned tt,
       mkWorld (<[string_of socketPath := ln]> (bindAddressToListener w))
               (trace w ++ [Listen "unix" (string_of socketPath);
                            Reply true; Watchdog ln] ++ es))
    /\ forward_events es.
Proof.
  intros Hu Hl.
  destruct (acceptStreamlocal_adds os ln socketPath (os_accepts os)
              (mkWorld (<[string_of socketPath := ln]> (bindAddressToListener w))
                       (trace w ++ [Listen "unix" (string_of socketPath);
                                    Reply true; Watchdog ln])))
    as (es & H & F).
  exists es. split; [|exact F].
  unfold handleStreamlocalForward. rewrite Hu. monad. rewrite Hl. monad.
  unfold adds in H. simpl in H. rewrite H. rewrite <- app_assoc. reflexivity.
Qed.

(** C8 (as stated, refuted). Two [tcpip-forward] requests for 127.0.0.1
    port 0 both bind (the system picks a free port each time) and both are
    stored under "127.0.0.1:0".  After the second the registry holds listener
    2 only, and listener 1 was never closed. *)
Lemma store_collision_counterexample :
  let req := mkRequest "tcpip-forward" true (forwardPayload "127.0.0.1" 0) in
  let first := handleTcpipForward (with_listen (Some 1%nat) os_good) req in
  let second := handleTcpipForward (with_listen (Some 2%nat) os_good) req in
  let w1 := snd (first empty_world) in
  bindAddressToListener w1 !! "127.0.0.1:0" = Some 1%nat
  /\ second w1
     = (Returned tt,
        mkWorld {["127.0.0.1:0" := 2%nat]}
          [Listen "tcp" "127.0.0.1:0"; Reply true; Watchdog 1%nat; ListenerAccept 1%nat;
           Listen "tcp" "127.0.0.1:0"; Reply true; Watchdog 2%nat; ListenerAccept 2%nat])
  /\ ~ In (ListenerClose 1%nat) (trace (snd (second w1))).
Proof.
  intros req first second w1. split; [vm_compute; reflexivity|]. split.
  - vm_compute. reflexivity.
  - vm_compute. intuition discriminate.
Qed.

(** C8 (amended). A store under a key that already has an entry overwrites
    the entry; the listener it displaces is closed neither by the store nor
    by the handler that stores. *)
Theorem store_overwrites_without_close (os : OS) (req : Request) (old ln : Listener)
    (w : World) :
  (forall addr port,
     Unmarshal (Payload req) [KString; KUint32] = Some [VString addr; VUint32 port] ->
     bindAddressToListener w !! JoinHostPort (string_of addr) (Itoa port) = Some old ->
     os_listen os "tcp" (JoinHostPort (string_of addr) (Itoa port)) = Some ln ->
     registry_of (handleTcpipForward os req) w
       = <[JoinHostPort (string_of addr) (Itoa port) := ln]> (bindAddressToListener w)
     /\ registry_of (handleTcpipForward os req) w
          !! JoinHostPort (string_of addr) (Itoa port) = Some ln
     /\ ~ In (ListenerClose old) (added (handleTcpipForward os req) w))
  /\ (forall socketPath,
     Unmarshal (Payload req) [KString] = Some [VString socketPath] ->
     bindAddressToListener w !! string_of socketPath = Some old ->
     os_listen os "unix" (string_of socketPath) = Some ln ->
     registry_of (handleStreamlocalForward os req) w
       = <[string_of socketPath := ln]> (bindAddressToListener w)
     /\ registry_of (handleStreamlocalForward os req) w !! string_of socketPath = Some ln
     /\ ~ In (ListenerClose old) (added (handleStreamlocalForward os req) w)).
Proof.
  split.
  - intros addr port Hu Hold Hl.
    destruct (handleTcpipForward_bound os req addr port ln w Hu Hl) as (es & H & F).
    unfold registry_of. rewrite (added_app _ _ _ _ _ H), H. simpl.
    split; [reflexivity|]. split; [apply lookup_insert_eq|].
    intros [Hin|[Hin|[Hin|Hin]]]; try discriminate.
    by apply (forward_events_no_close es old).
  - intros socketPath Hu Hold Hl.
    destruct (handleStreamlocalForward_bound os req socketPath ln w Hu Hl) as (es & H & F).
    unfold registry_of. rewrite (added_app _ _ _ _ _ H), H. simpl.
    split; [reflexivity|]. split; [apply lookup_insert_eq|].
    intros [Hin|[Hin|[Hin|Hin]]]; try discriminate.
    by apply (forward_events_no_close es old).
Qed.

Lemma store_overwrites_without_close_witness :
  let req := mkRequest "tcpip-forward" true (forwardPayload "127.0.0.1" 0) in
  let os := with_listen (Some 2%nat) os_good in
  let w := mkWorld {["127.0.0.1:0" := 1%nat]} [Listen "tcp" "127.0.0.1:0"; Reply true] in
  let req' := mkRequest "streamlocal-forward@openssh.com" true
                (Marshal [VString (bytes_of "/tmp/t.sock")]) in
  let w' := mkWorld {["/tmp/t.sock" := 1%nat]} [] in
  bindAddressToListener w !! "127.0.0.1:0" = Some 1%nat
  /\ registry_of (handleTcpipForward os req) w !! "127.0.0.1:0" = Some 2%nat
  /\ ~ In (ListenerClose 1%nat) (added (handleTcpipForward os req) w)
  /\ bindAddressToListener w' !! "/tmp/t.sock" = Some 1%nat
  /\ registry_of (handleStreamlocalForward os req') w' !! "/tmp/t.sock" = Some 2%nat
  /\ ~ In (ListenerClose 1%nat) (added (handleStreamlocalForward os req') w').
Proof.
  intros req os w req' w'. split; [reflexivity|].
  destruct (store_overwrites_without_close os req 1%nat 2%nat w) as [H _].
  destruct (H (bytes_of "127.0.0.1") 0) as (_ & H2 & H3);
    [vm_compute; reflexivity | reflexivity | reflexivity |].
  split; [exact H2|]. split; [exact H3|]. split; [reflexivity|].
  destruct (store_overwrites_without_close os req' 1%nat 2%nat w') as [_ H'].
  destruct (H' (bytes_of "/tmp/t.sock")) as (_ & H2' & H3');
    [vm_compute; reflexivity | reflexivity | reflexivity |].
  split; [exact H2' | exact H3'].
Defined.

(** ** Permission gating *)

Lemma denied (s : Server) (os : OS) (shell : string) (shf : bool) (op : gated) (w : World) :
  permission s op = false ->
  adds (perform s os shell shf op) w tt (rejection op).
Proof.
  intros H. unfold adds.
  destruct op; simpl in H; unfold perform, handleChannel, globalRequest, sessionRequest;
    simpl; rewrite ?H; monad; try reflexivity.
  unfold handleSessionSubSystem. monad. rewrite H. monad. reflexivity.
Qed.

Lemma rejection_no_side_effect (op : gated) :
  Forall (fun e => side_effect e = false) (rejection op).
Proof. destruct op; by repeat constructor. Qed.

Lemma direct_tcpip_granted (s : Server) (os : OS) (shell : string) (shf : bool) (w : World)
    (extraData raddr saddr : list byte) (rport sport : Z) :
  AllowDirectTcpip s = true ->
  Unmarshal extraData [KString; KUint32; KString; KUint32]
    = Some [VString raddr; VUint32 rport; VString saddr; VUint32 sport] ->
  os_accept os = true ->
  os_dial os "tcp" (JoinHostPort (string_of raddr) (Itoa rport)) = true ->
  adds (perform s os shell shf (OpDirectTcpip extraData)) w tt
       ([Accept; DiscardRequests; Dial "tcp" (JoinHostPort (string_of raddr) (Itoa rport))]
        ++ events (bridge_run (os_sched os) direct_bridge)).
Proof.
  intros Hp Hu Ha Hd. unfold adds, perform, handleChannel. simpl. rewrite Hp. simpl.
  unfold handleDirectTcpip. simpl. rewrite Hu. monad. rewrite Ha. monad.
  rewrite Hd. monad. reflexivity.
Qed.

Lemma direct_streamlocal_granted (s : Server) (os : OS) (shell : string) (shf : bool)
    (w : World) (extraData socketPath reserved : list byte) (reserved1 : Z) :
  AllowDirectStreamlocal s = true ->
  Unmarshal extraData [KString; KString; KUint32]
    = Some [VString socketPath; VString reserved; VUint32 reserved1] ->
  os_accept os = true ->
  os_dial os "unix" (string_of socketPath) = true ->
  adds (perform s os shell shf (OpDirectStreamlocal extraData)) w tt
       ([Accept; DiscardRequests; Dial "unix" (string_of socketPath)]
        ++ events (bridge_run (os_sched os) direct_bridge)).
Proof.
  intros Hp Hu Ha Hd. unfold adds, perform, handleChannel. simpl. rewrite Hp. simpl.
  unfold handleDirectStreamlocal. simpl. rewrite Hu. monad. rewrite Ha. monad.
  rewrite Hd. monad. reflexivity.
Qed.

Lemma tcpip_forward_granted (s : Server) (os : OS) (shell : string) (shf : bool) (w : World)
    (wantReply : bool) (payload addr : list byte) (port : Z) (ln : Listener) :
  AllowTcpipForward s = true ->
  Unmarshal payload [KString; KUint32] = Some [VString addr; VUint32 port] ->
  os_listen os "tcp" (JoinHostPort (string_of addr) (Itoa port)) = Some ln ->
  exists es,
    perform s os shell shf (OpTcpipForward wantReply payload) w
    = (Returned tt,
       mkWorld (<[JoinHostPort (string_of addr) (Itoa port) := ln]> (bindAddressToListener w))
               (trace w ++ [Go TTcpipForward;
                            Listen "tcp" (JoinHostPort (string_of addr) (Itoa port));
                            Reply true; Watchdog ln] ++ es))
    /\ forward_events es.
Proof.
  intros Hp Hu Hl.
  destruct (handleTcpipForward_bound os (mkRequest "tcpip-forward" wantReply payload)
              addr port ln (mkWorld (bindAddressToListener w) (trace w ++ [Go TTcpipForward]))
              Hu Hl) as (es & H & F).
  exists es. split; [|exact F].
  unfold perform, globalRequest. simpl. rewrite Hp. simpl.
  unfold go, run_task, bind, emit. rewrite H. simpl. rewrite <- app_assoc. reflexivity.
Qed.

Lemma streamlocal_forward_granted (s : Server) (os : OS) (shell : string) (shf : bool)
    (w : World) (wantReply : bool) (payload socketPath : list byte) (ln : Listener) :
  AllowStreamlocalForward s = true ->
  Unmarshal payload [KString] = Some [VString socketPath] ->
  os_listen os "unix" (string_of socketPath) = Some ln ->
  exists es,
    perform s os shell shf (OpStreamlocalForward wantReply payload) w
    = (Returned tt,
       mkWorld (<[string_of socketPath := ln]> (bindAddressToListener w))
               (trace w ++ [Go TStreamlocalForward;
                            Listen "unix" (string_of socketPath);
                            Reply true; Watchdog ln] ++ es))
    /\ forward_events es.
Proof.
  intros Hp Hu Hl.
  destruct (handleStreamlocalForward_bound os
              (mkRequest "streamlocal-forward@openssh.com" wantReply payload)
              socketPath ln (mkWorld (bindAddressToListener w) (trace w ++ [Go TStreamlocalForward]))
              Hu Hl) as (es & H & F).
  exists es. split; [|exact F].
  unfold perform, globalRequest. simpl. rewrite Hp. simpl.
  unfold go, run_task, bind, emit. rewrite H. simpl. rewrite <- app_assoc. reflexivity.
Qed.

Lemma exec_granted (s : Server) (os : OS) (shell : string) (shf : bool) (w : World)
    (wantReply : bool) (payload command : list byte) (argv0 : string) (args : list string) :
  AllowExecute s = true ->
  Unmarshal payload [KString] = Some [VString command] ->
  shellwords_Parse os (string_of command) = Some (argv0 :: args) ->
  os_stdin_pipe os && os_stdout_pipe os && os_stderr_pipe os = true ->
  adds (perform s os shell shf (OpExec wantReply payload)) w tt
       [Command (argv0 :: args); Pipe Stdin; Pipe Stdout; Pipe Stderr;
        GoCopy Stdin Channel; GoCopy Channel Stdout; GoCopy Channel Stderr;
        Reply true; Run;
        SendRequest "exit-status" false
          (exitStatusMsg (exitCodeOf (os_run os (argv0 :: args))));
        Close Channel].
Proof.
  intros Hperm Hu Hp Hpipes.
  apply andb_true_iff in Hpipes as [Hpipes He].
  apply andb_true_iff in Hpipes as [Hi Ho].
  pose proof (handleExecRequest_runs os (mkRequest "exec" wantReply payload) command
                argv0 args w Hu Hp Hi Ho He) as H.
  unfold adds, perform, sessionRequest. simpl. rewrite Hperm. simpl.
  unfold bind. rewrite H. reflexivity.
Qed.

Lemma pty_req_granted (s : Server) (os : OS) (shell : string) (shf : bool) (w : World)
    (wantReply : bool) (payload : list byte) (width height : Z) :
  AllowExecute s = true ->
  ptyReqDims payload = Some (width, height) ->
  windows os = false ->
  os_createPty os = true ->
  adds (perform s os shell shf (OpPtyReq wantReply payload)) w tt
       [CreatePty shell; SetWinsize width height; Reply true].
Proof.
  intros Hperm Hd Hw Hc. unfold ptyReqDims in Hd.
  destruct (index payload 3) as [termLen|] eqn:E1; [|discriminate].
  destruct (slice_from payload (wrap8 (byte_val termLen + 4))) as [dims|] eqn:E2;
    [|discriminate].
  destruct (BigEndian_Uint32 dims) as [w0|] eqn:E3; [|discriminate].
  destruct (slice_from dims 4) as [dims4|] eqn:E4; [|discriminate].
  destruct (BigEndian_Uint32 dims4) as [h0|] eqn:E5; [|discriminate].
  injection Hd as -> ->.
  unfold adds, perform, sessionRequest. simpl. rewrite Hperm. simpl.
  unfold parseDims, createPty, createPty_unix, setWinsize, setWinsize_unix.
  rewrite Hw, Hc. unfold bind, check, ret.
  rewrite E1. cbn beta iota. rewrite E2. cbn beta iota.
  rewrite E3. cbn beta iota. rewrite E4. cbn beta iota. rewrite E5.
  monad. reflexivity.
Qed.

Lemma sftp_granted (s : Server) (os : OS) (shell : string) (shf : bool) (w : World)
    (wantReply : bool) :
  AllowSftp s = true ->
  exists es,
    adds (perform s os shell shf (OpSftp wantReply)) w tt ([Reply true; SftpNewServer] ++ es).
Proof.
  intros Hperm. unfold adds, perform, sessionRequest. simpl.
  unfold handleSessionSubSystem. monad. rewrite Hperm. monad.
  destruct (os_sftp os); monad; eexists; reflexivity.
Qed.

(** C1 (as stated, refuted). With the permission on and a well-formed
    payload the operation can still be refused: the windows build has no pty
    and answers every [pty-req] false, and a [tcpip-forward] whose bind fails
    is answered false. *)
Lemma permission_gating_counterexample :
  let pty := OpPtyReq true (ptyReqPayload "xterm" 80 24) in
  let fwd := OpTcpipForward true (forwardPayload "127.0.0.1" 80) in
  permission allow_all pty = true
  /\ ptyReqDims (ptyReqPayload "xterm" 80 24) = Some (80, 24)
  /\ perform allow_all (with_windows os_good) "sh" false pty empty_world
     = (Returned tt, mkWorld ∅ [Reply false])
  /\ permission allow_all fwd = true
  /\ Unmarshal (forwardPayload "127.0.0.1" 80) [KString; KUint32]
     = Some [VString (bytes_of "127.0.0.1"); VUint32 80]
  /\ perform allow_all (with_listen None os_good) "sh" false fwd empty_world
     = (Returned tt,
        mkWorld ∅ [Go TTcpipForward; Listen "tcp" "127.0.0.1:80"; Reply false]).
Proof. repeat split; vm_compute; reflexivity. Qed.

(** C1 (amended). With its permission off, each gated operation is refused
    in the documented way, a channel open by a rejection with code
    [Prohibited] and a reason, a request by a reply false, and nothing else
    happens: no bind, no dial, no spawn, the registry as it was.  With the
    permission on and a well-formed payload the operation succeeds provided
    the system does its part: the channel is accepted and the dial succeeds
    for the direct channels, the bind succeeds for the forwards, the pipes
    can be created for exec, and for [pty-req] the build is not the windows
    one and the pty can be allocated.  The sftp subsystem is answered true
    as soon as it is permitted. *)
Theorem permission_gating (s : Server) (os : OS) (shell : string) (shf : bool) (w : World) :
  (forall op, permission s op = false ->
     adds (perform s os shell shf op) w tt (rejection op)
     /\ Forall (fun e => side_effect e = false) (rejection op))
  /\ (forall extraData raddr rport saddr sport,
     AllowDirectTcpip s = true ->
     Unmarshal extraData [KString; KUint32; KString; KUint32]
       = Some [VString raddr; VUint32 rport; VString saddr; VUint32 sport] ->
     os_accept os = true ->
     os_dial os "tcp" (JoinHostPort (string_of raddr) (Itoa rport)) = true ->
     adds (perform s os shell shf (OpDirectTcpip extraData)) w tt
          ([Accept; DiscardRequests; Dial "tcp" (JoinHostPort (string_of raddr) (Itoa rport))]
           ++ events (bridge_run (os_sched os) direct_bridge)))
  /\ (forall extraData socketPath reserved reserved1,
     AllowDirectStreamlocal s = true ->
     Unmarshal extraData [KString; KString; KUint32]
       = Some [VString socketPath; VString reserved; VUint32 reserved1] ->
     os_accept os = true ->
     os_dial os "unix" (string_of socketPath) = true ->
     adds (perform s os shell shf (OpDirectStreamlocal extraData)) w tt
          ([Accept; DiscardRequests; Dial "unix" (string_of socketPath)]
           ++ events (bridge_run (os_sched os) direct_bridge)))
  /\ (forall wantReply payload addr port ln,
     AllowTcpipForward s = true ->
     Unmarshal payload [KString; KUint32] = Some [VString addr; VUint32 port] ->
     os_listen os "tcp" (JoinHostPort (string_of addr) (Itoa port)) = Some ln ->
     exists es,
       perform s os shell shf (OpTcpipForward wantReply payload) w
       = (Returned tt,
          mkWorld (<[JoinHostPort (string_of addr) (Itoa port) := ln]>
                     (bindAddressToListener w))
                  (trace w ++ [Go TTcpipForward;
                               Listen "tcp" (JoinHostPort (string_of addr) (Itoa port));
                               Reply true; Watchdog ln] ++ es))
       /\ forward_events es)
  /\ (forall wantReply payload socketPath ln,
     AllowStreamlocalForward s = true ->
     Unmarshal payload [KString] = Some [VString socketPath] ->
     os_listen os "unix" (string_of socketPath) = Some ln ->
     exists es,
       perform s os shell shf (OpStreamlocalForward wantReply payload) w
       = (Returned tt,
          mkWorld (<[string_of socketPath := ln]> (bindAddressToListener w))
                  (trace w ++ [Go TStreamlocalForward;
                               Listen "unix" (string_of socketPath);
                               Reply true; Watchdog ln] ++ es))
       /\ forward_events es)
  /\ (forall wantReply payload command argv0 args,
     AllowExecute s = true ->
     Unmarshal payload [KString] = Some [VString command] ->
     shellwords_Parse os (string_of command) = Some (argv0 :: args) ->
     os_stdin_pipe os && os_stdout_pipe os && os_stderr_pipe os = true ->
     adds (perform s os shell shf (OpExec wantReply payload)) w tt
          [Command (argv0 :: args); Pipe Stdin; Pipe Stdout; Pipe Stderr;
           GoCopy Stdin Channel; GoCopy Channel Stdout; GoCopy Channel Stderr;
           Reply true; Run;
           SendRequest "exit-status" false
             (exitStatusMsg (exitCodeOf (os_run os (argv0 :: args))));
           Close Channel])
  /\ (forall wantReply payload width height,
     AllowExecute s = true ->
     ptyReqDims payload = Some (width, height) ->
     windows os = false ->
     os_createPty os = true ->
     adds (perform s os shell shf (OpPtyReq wantReply payload)) w tt
          [CreatePty shell; SetWinsize width height; Reply true])
  /\ (forall wantReply,
     AllowSftp s = true ->
     exists es,
       adds (perform s os shell shf (OpSftp wantReply)) w tt
            ([Reply true; SftpNewServer] ++ es)).
Proof.
  split; [intros op H; split; [by apply denied | apply rejection_no_side_effect]|].
  split; [intros; by eapply direct_tcpip_granted|].
  split; [intros; by eapply direct_streamlocal_granted|].
  split; [intros; by eapply tcpip_forward_granted|].
  split; [intros; by eapply streamlocal_forward_granted|].
  split; [intros; by eapply exec_granted|].
  split; [intros; by eapply pty_req_granted|].
  intros; by eapply sftp_granted.
Qed.

(** Every permission off: the six flags refuse; every permission on and a
    system that does its part: a forward binds (the spec's scenario S3), a
    direct channel dials (S2), a pty is allocated. *)
Lemma permission_gating_witness :
  adds (perform allow_none os_good "sh" false
          (OpExec true (execPayload "/bin/echo hi"))) empty_world tt
       [Log "execution not allowed (exec)"; Reply false]
  /\ adds (perform allow_none os_good "sh" false
          (OpDirectTcpip (directTcpipData "127.0.0.1" 80 "10.0.0.1" 4000))) empty_world tt
       [Reject Prohibited "direct-tcpip not allowed"]
  /\ adds (perform allow_all os_good "sh" false
          (OpDirectTcpip (directTcpipData "127.0.0.1" 80 "10.0.0.1" 4000))) empty_world tt
       ([Accept; DiscardRequests; Dial "tcp" "127.0.0.1:80"]
        ++ events (bridge_run [] direct_bridge))
  /\ adds (perform allow_all os_good "sh" false
          (OpDirectStreamlocal (directStreamlocalData "/tmp/t.sock"))) empty_world tt
       ([Accept; DiscardRequests; Dial "unix" "/tmp/t.sock"]
        ++ events (bridge_run [] direct_bridge))
  /\ (exists es,
       perform allow_all os_good "sh" false
         (OpTcpipForward true (forwardPayload "127.0.0.1" 0)) empty_world
       = (Returned tt,
          mkWorld {["127.0.0.1:0" := 1%nat]}
                  ([Go TTcpipForward; Listen "tcp" "127.0.0.1:0"; Reply true;
                    Watchdog 1%nat] ++ es)))
  /\ (exists es,
       perform allow_all os_good "sh" false
         (OpStreamlocalForward true (Marshal [VString (bytes_of "/tmp/t.sock")])) empty_world
       = (Returned tt,
          mkWorld {["/tmp/t.sock" := 1%nat]}
                  ([Go TStreamlocalForward; Listen "unix" "/tmp/t.sock"; Reply true;
                    Watchdog 1%nat] ++ es)))
  /\ adds (perform allow_all os_good "sh" false
          (OpExec true (execPayload "/bin/echo hi"))) empty_world tt
       [Command ["/bin/echo"; "hi"]; Pipe Stdin; Pipe Stdout; Pipe Stderr;
        GoCopy Stdin Channel; GoCopy Channel Stdout; GoCopy Channel Stderr;
        Reply true; Run; SendRequest "exit-status" false (exitStatusMsg 0);
        Close Channel]
  /\ adds (perform allow_all os_good "sh" false
          (OpPtyReq true (ptyReqPayload "xterm" 80 24))) empty_world tt
       [CreatePty "sh"; SetWinsize 80 24; Reply true]
  /\ (exists es,
       adds (perform allow_all os_good "sh" false (OpSftp true)) empty_world tt
            ([Reply true; SftpNewServer] ++ es)).
Proof.
  pose proof (permission_gating allow_none os_good "sh" false empty_world)
    as (Hdeny & _).
  pose proof (permission_gating allow_all os_good "sh" false empty_world)
    as (_ & Hdt & Hds & Hfw & Hsf & Hex & Hpty & Hsftp).
  split; [apply (Hdeny (OpExec true (execPayload "/bin/echo hi"))); reflexivity|].
  split; [apply (Hdeny (OpDirectTcpip (directTcpipData "127.0.0.1" 80 "10.0.0.1" 4000)));
          reflexivity|].
  split; [apply (Hdt (directTcpipData "127.0.0.1" 80 "10.0.0.1" 4000)
                   (bytes_of "127.0.0.1") 80 (bytes_of "10.0.0.1") 4000);
          [reflexivity | vm_compute; reflexivity | reflexivity | reflexivity]|].
  split; [apply (Hds (directStreamlocalData "/tmp/t.sock") (bytes_of "/tmp/t.sock") [] 0);
          [reflexivity | vm_compute; reflexivity | reflexivity | reflexivity]|].
  split.
  { destruct (Hfw true (forwardPayload "127.0.0.1" 0) (bytes_of "127.0.0.1") 0 1%nat)
      as (es & H & _); [reflexivity | vm_compute; reflexivity | reflexivity |].
    exists es. exact H. }
  split.
  { destruct (Hsf true (Marshal [VString (bytes_of "/tmp/t.sock")])
                (bytes_of "/tmp/t.sock") 1%nat)
      as (es & H & _); [reflexivity | vm_compute; reflexivity | reflexivity |].
    exists es. exact H. }
  split; [apply (Hex true (execPayload "/bin/echo hi") (bytes_of "/bin/echo hi")
                   "/bin/echo" ["hi"]);
          [reflexivity | vm_compute; reflexivity | vm_compute; reflexivity | reflexivity]|].
  split; [apply (Hpty true (ptyReqPayload "xterm" 80 24) 80 24);
          [reflexivity | vm_compute; reflexivity | reflexivity | reflexivity]|].
  apply (Hsftp true). reflexivity.
Defined.

(** * Further properties of the handlers *)

(** ** Dispatch of what is not known *)

(** X1. A channel open of any type other than session, direct-tcpip and
    direct-streamlocal@openssh.com is rejected with [UnknownChannelType] and
    a message that names the type; nothing else happens, whatever the
    permissions. *)
Theorem unknown_channel_type_rejected (s : Server) (os : OS) (shell : string)
    (newChannel : NewChannel) (requests : list Request) (w : World) :
  known_channel_type (ChannelType newChannel) = false ->
  adds (handleChannel s os shell newChannel requests) w tt
       [Reject UnknownChannelType
          ("unknown channel type: " +:+ ChannelType newChannel)].
Proof.
  unfold known_channel_type. intros H.
  apply orb_false_iff in H as [H H3]. apply orb_false_iff in H as [H1 H2].
  unfold adds, handleChannel. rewrite H1, H2, H3. reflexivity.
Qed.

Lemma unknown_channel_type_rejected_witness :
  known_channel_type "x11" = false
  /\ adds (handleChannel allow_all os_good "sh" (mkNewChannel "x11" []) []) empty_world tt
          [Reject UnknownChannelType "unknown channel type: x11"].
Proof.
  split; [reflexivity|].
  apply (unknown_channel_type_rejected allow_all os_good "sh" (mkNewChannel "x11" []) []
           empty_world).
  reflexivity.
Defined.

(** X2. A global request of an unknown type is answered false exactly when
    it wants a reply, and is logged as discarded; the registry is not
    touched. *)
Theorem unknown_global_request_discarded (s : Server) (os : OS) (req : Request) (w : World) :
  known_global_request (Type_ req) = false ->
  adds (globalRequest s os req) w tt
       ((if WantReply req then [Reply false] else []) ++ [Log "request discarded"]).
Proof.
  unfold known_global_request. intros H.
  apply orb_false_iff in H as [H H4]. apply orb_false_iff in H as [H H3].
  apply orb_false_iff in H as [H1 H2].
  unfold adds, globalRequest. rewrite H1, H2, H3, H4.
  destruct (WantReply req); monad; reflexivity.
Qed.

Lemma unknown_global_request_discarded_witness :
  known_global_request "keepalive@openssh.com" = false
  /\ adds (globalRequest allow_all os_good (mkRequest "keepalive@openssh.com" true []))
          empty_world tt [Reply false; Log "request discarded"]
  /\ adds (globalRequest allow_all os_good (mkRequest "keepalive@openssh.com" false []))
          empty_world tt [Log "request discarded"].
Proof.
  split; [reflexivity|]. split.
  - apply (unknown_global_request_discarded allow_all os_good
             (mkRequest "keepalive@openssh.com" true []) empty_world). reflexivity.
  - apply (unknown_global_request_discarded allow_all os_good
             (mkRequest "keepalive@openssh.com" false []) empty_world). reflexivity.
Defined.

(** X3. A session request of an unknown type is logged and gets no reply,
    even when it wants one; the loop goes on with the next request and the
    same pty state. *)
Theorem unsupported_session_request (s : Server) (os : OS) (shell : string) (shf : bool)
    (req : Request) (rest : list Request) (w : World) :
  known_session_request (Type_ req) = false ->
  adds (sessionRequest s os shell shf req) w (Continue shf) [Log "unsupported request"]
  /\ sessionLoop s os shell shf (req :: rest) w
     = sessionLoop s os shell shf rest
         (mkWorld (bindAddressToListener w) (trace w ++ [Log "unsupported request"])).
Proof.
  unfold known_session_request. intros H.
  apply orb_false_iff in H as [H H5]. apply orb_false_iff in H as [H H4].
  apply orb_false_iff in H as [H H3]. apply orb_false_iff in H as [H1 H2].
  assert (Hstep : adds (sessionRequest s os shell shf req) w (Continue shf)
                       [Log "unsupported request"]).
  { unfold adds, sessionRequest. rewrite H1, H2, H3, H4, H5. reflexivity. }
  split; [exact Hstep|].
  simpl. unfold bind. rewrite Hstep. reflexivity.
Qed.

Lemma unsupported_session_request_witness :
  known_session_request "env" = false
  /\ trace_of (sessionLoop allow_all os_good "sh" false
                 [mkRequest "env" true []; mkRequest "shell" true []]) empty_world
     = [Log "unsupported request"; Reply true].
Proof.
  split; [reflexivity|].
  destruct (unsupported_session_request allow_all os_good "sh" false
              (mkRequest "env" true []) [mkRequest "shell" true []] empty_world)
    as [_ H]; [reflexivity|].
  unfold trace_of. rewrite H. reflexivity.
Defined.

(** ** Terminal dimensions *)

Lemma length_PutUint32 (v : Z) : length (BigEndian_PutUint32 v) = 4%nat.
Proof. reflexivity. Qed.

Lemma slice_from_app (a b : list byte) :
  slice_from (a ++ b) (Z.of_nat (length a)) = Some b.
Proof.
  unfold slice_from. rewrite length_app.
  destruct (0 <=? Z.of_nat (length a)) eqn:E0; [|apply Z.leb_gt in E0; lia].
  destruct (Z.of_nat (length a) <=? Z.of_nat (length a + length b)) eqn:E1;
    [|apply Z.leb_gt in E1; lia].
  simpl. rewrite Nat2Z.id. by rewrite drop_app_length.
Qed.

Lemma slice_from_PutUint32 (v : Z) (b : list byte) :
  slice_from (BigEndian_PutUint32 v ++ b) 4 = Some b.
Proof. apply (slice_from_app (BigEndian_PutUint32 v) b). Qed.

(** [parseDims] reads back what [PutUint32] wrote, modulo 2^32. *)
Lemma parseDims_wire (w h : Z) (rest : list byte) (world : World) :
  parseDims (BigEndian_PutUint32 w ++ BigEndian_PutUint32 h ++ rest) world
  = (Returned (wrap32 w, wrap32 h), world).
Proof.
  unfold parseDims, bind, check.
  rewrite BigEndian_roundtrip. unfold ret at 1.
  rewrite slice_from_PutUint32. unfold ret at 1.
  rewrite BigEndian_roundtrip. reflexivity.
Qed.

Lemma BigEndian_Uint32_long (b : list byte) :
  (4 <= length b)%nat -> exists v, BigEndian_Uint32 b = Some v.
Proof.
  destruct b as [|b0 [|b1 [|b2 [|b3 b]]]]; simpl; intros H; try lia. eauto.
Qed.

(** X4. [parseDims] returns exactly on buffers of eight bytes or more: on
    a shorter buffer it panics, on a longer one it reads two big-endian
    words and leaves the world alone. *)
Theorem parseDims_bounds (b : list byte) (world : World) :
  ((length b < 8)%nat -> panics (parseDims b) world)
  /\ ((8 <= length b)%nat ->
      exists w h, parseDims b world = (Returned (w, h), world)
                  /\ BigEndian_Uint32 b = Some w
                  /\ BigEndian_Uint32 (drop 4 b) = Some h).
Proof.
  split; intros Hlen.
  - unfold panics, outcome_of, parseDims, bind, check.
    destruct (BigEndian_Uint32 b) eqn:E1; simpl; [|eauto].
    destruct (slice_from b 4) as [b4|] eqn:E2; simpl; [|eauto].
    rewrite BigEndian_Uint32_short; simpl; [eauto|].
    unfold slice_from in E2.
    destruct ((0 <=? 4) && (4 <=? Z.of_nat (length b))); [|discriminate].
    injection E2 as <-. rewrite length_drop. lia.
  - destruct (BigEndian_Uint32_long b ltac:(lia)) as [w Hw].
    destruct (BigEndian_Uint32_long (drop 4 b) ltac:(rewrite length_drop; lia)) as [h Hh].
    exists w, h. split; [|auto].
    unfold parseDims, bind, check. rewrite Hw. unfold ret at 1.
    assert (Hs : slice_from b 4 = Some (drop 4 b)).
    { unfold slice_from.
      destruct (4 <=? Z.of_nat (length b)) eqn:E; [reflexivity|].
      apply Z.leb_gt in E. lia. }
    rewrite Hs. unfold ret at 1. rewrite Hh. reflexivity.
Qed.

Lemma parseDims_bounds_witness :
  panics (parseDims [x00; x00; x00; x50; x00; x00; x00]) empty_world
  /\ exists w h,
       parseDims [x00; x00; x00; x50; x00; x00; x00; x18] empty_world
       = (Returned (w, h), empty_world)
       /\ BigEndian_Uint32 [x00; x00; x00; x50; x00; x00; x00; x18] = Some w
       /\ BigEndian_Uint32 (drop 4 [x00; x00; x00; x50; x00; x00; x00; x18]) = Some h.
Proof.
  split.
  - destruct (parseDims_bounds [x00; x00; x00; x50; x00; x00; x00] empty_world) as [H _].
    apply H. simpl. lia.
  - destruct (parseDims_bounds [x00; x00; x00; x50; x00; x00; x00; x18] empty_world)
      as [_ H].
    apply H. simpl. lia.
Defined.

(** X5. A [window-change] with a well-formed payload is never replied to;
    it resizes the pty to the width and height sent when the session has a
    pty, and does nothing at all when it has none. *)
Theorem window_change_resizes (s : Server) (os : OS) (shell : string) (shf wantReply : bool)
    (w h : Z) (rest : list byte) (world : World) :
  adds (sessionRequest s os shell shf
          (mkRequest "window-change" wantReply
             (BigEndian_PutUint32 w ++ BigEndian_PutUint32 h ++ rest)))
       world (Continue shf)
       (if shf && negb (windows os) then [SetWinsize (wrap32 w) (wrap32 h)] else []).
Proof.
  unfold adds, sessionRequest. cbn [Type_ Payload String.eqb Ascii.eqb Bool.eqb].
  unfold bind at 1. rewrite parseDims_wire.
  unfold setWinsize, setWinsize_windows, setWinsize_unix.
  destruct shf, (windows os); monad; rewrite ?app_nil_r; destruct world; reflexivity.
Qed.

(** X6. A [pty-req] whose terminal name is shorter than 252 bytes gets the
    pty, sized to the width and height the client sent, and a reply true
    (with the permission, on a build with ptys, when the allocation
    succeeds). *)
Theorem pty_req_reads_dimensions (s : Server) (os : OS) (shell : string) (shf wantReply : bool)
    (term : list byte) (w h : Z) (rest : list byte) (world : World) :
  (length term < 252)%nat ->
  AllowExecute s = true -> windows os = false -> os_createPty os = true ->
  adds (sessionRequest s os shell shf
          (mkRequest "pty-req" wantReply (ptyReqWire term w h rest)))
       world (Continue true)
       [CreatePty shell; SetWinsize (wrap32 w) (wrap32 h); Reply true].
Proof.
  intros Hlen Hperm Hw Hc.
  set (n := Z.of_nat (length term)).
  assert (Hidx : index (ptyReqWire term w h rest) 3 = Some (byte_of_Z n)).
  { unfold ptyReqWire, BigEndian_PutUint32, index. fold n.
    match goal with |- context [?a <? ?b] => destruct (Z.ltb_spec a b) as [_|Hge] end.
    - reflexivity.
    - simpl in Hge. lia. }
  assert (Hoff : wrap8 (byte_val (byte_of_Z n) + 4) = Z.of_nat (length (BigEndian_PutUint32 n ++ term))).
  { rewrite byte_val_of_Z, length_app, length_PutUint32. unfold wrap8.
    change 256 with (2 ^ 8). rewrite (Z.mod_small n) by (unfold n; lia).
    rewrite Z.mod_small by (unfold n; lia). unfold n. lia. }
  assert (Hslice : slice_from (ptyReqWire term w h rest) (wrap8 (byte_val (byte_of_Z n) + 4))
                   = Some (BigEndian_PutUint32 w ++ BigEndian_PutUint32 h ++ rest)%list).
  { rewrite Hoff. unfold ptyReqWire. fold n. rewrite (app_assoc (BigEndian_PutUint32 n)).
    apply slice_from_app. }
  unfold adds, sessionRequest. cbn [Type_ Payload String.eqb Ascii.eqb Bool.eqb].
  rewrite Hperm. cbn [negb].
  unfold bind at 1. unfold check at 1. rewrite Hidx. unfold ret at 1.
  unfold bind at 1. unfold check at 1. rewrite Hslice. unfold ret at 1.
  unfold bind at 1. rewrite parseDims_wire.
  unfold createPty, createPty_unix, setWinsize, setWinsize_unix. rewrite Hw, Hc.
  monad. reflexivity.
Qed.

Lemma pty_req_reads_dimensions_witness :
  (length (bytes_of "xterm-256color") < 252)%nat
  /\ adds (sessionRequest allow_all os_good "sh" false
             (mkRequest "pty-req" true (ptyReqWire (bytes_of "xterm-256color") 132 43 [])))
          empty_world (Continue true)
          [CreatePty "sh"; SetWinsize (wrap32 132) (wrap32 43); Reply true].
Proof.
  split; [simpl; lia|].
  apply (pty_req_reads_dimensions allow_all os_good "sh" false true
           (bytes_of "xterm-256color") 132 43 [] empty_world);
    [simpl; lia | reflexivity | reflexivity | reflexivity].
Defined.

Lemma BigEndian_Uint32_app (b rest : list byte) :
  (4 <= length b)%nat -> BigEndian_Uint32 (b ++ rest) = BigEndian_Uint32 b.
Proof.
  destruct b as [|b0 [|b1 [|b2 [|b3 b]]]]; simpl; intros H; try lia. reflexivity.
Qed.

(** X7. The length of the terminal name is read as one byte and [termLen+4]
    is computed in a byte: with a name of 252 bytes the sum wraps to 0, the
    dimensions are read from the start of the payload, and the pty gets the
    width 252 (the length field) and as height the first four bytes of the
    name, not what the client sent. *)
Theorem pty_req_long_term_misreads (s : Server) (os : OS) (shell : string)
    (shf wantReply : bool) (term : list byte) (w h : Z) (rest : list byte) (world : World) :
  length term = 252%nat ->
  AllowExecute s = true -> windows os = false -> os_createPty os = true ->
  exists height,
    BigEndian_Uint32 term = Some height
    /\ adds (sessionRequest s os shell shf
               (mkRequest "pty-req" wantReply (ptyReqWire term w h rest)))
            world (Continue true)
            [CreatePty shell; SetWinsize 252 height; Reply true].
Proof.
  intros Hlen Hperm Hw Hc.
  destruct (BigEndian_Uint32_long term ltac:(lia)) as [height Hh].
  exists height. split; [exact Hh|].
  assert (Hidx : index (ptyReqWire term w h rest) 3 = Some (byte_of_Z 252)).
  { unfold ptyReqWire, BigEndian_PutUint32, index. rewrite Hlen.
    match goal with |- context [?a <? ?b] => destruct (Z.ltb_spec a b) as [_|Hge] end.
    - reflexivity.
    - simpl in Hge. lia. }
  assert (Hslice : slice_from (ptyReqWire term w h rest) (wrap8 (byte_val (byte_of_Z 252) + 4))
                   = Some (ptyReqWire term w h rest)).
  { change (wrap8 (byte_val (byte_of_Z 252) + 4)) with 0.
    unfold slice_from. simpl. reflexivity. }
  assert (Hdims : parseDims (ptyReqWire term w h rest) world
                  = (Returned (252, height), world)).
  { unfold ptyReqWire. rewrite Hlen. unfold parseDims, bind, check.
    rewrite BigEndian_roundtrip. unfold ret at 1.
    rewrite slice_from_PutUint32. unfold ret at 1.
    rewrite BigEndian_Uint32_app by lia. rewrite Hh. reflexivity. }
  unfold adds, sessionRequest. cbn [Type_ Payload String.eqb Ascii.eqb Bool.eqb].
  rewrite Hperm. cbn [negb].
  unfold bind at 1. unfold check at 1. rewrite Hidx. unfold ret at 1.
  unfold bind at 1. unfold check at 1. rewrite Hslice. unfold ret at 1.
  unfold bind at 1. rewrite Hdims.
  unfold createPty, createPty_unix, setWinsize, setWinsize_unix. rewrite Hw, Hc.
  monad. reflexivity.
Qed.

Lemma pty_req_long_term_misreads_witness :
  length (repeat x61 252) = 252%nat
  /\ exists height,
       BigEndian_Uint32 (repeat x61 252) = Some height
       /\ adds (sessionRequest allow_all os_good "sh" false
                  (mkRequest "pty-req" true (ptyReqWire (repeat x61 252) 80 24 [])))
               empty_world (Continue true)
               [CreatePty "sh"; SetWinsize 252 height; Reply true].
Proof.
  split; [reflexivity|].
  apply (pty_req_long_term_misreads allow_all os_good "sh" false true
           (repeat x61 252) 80 24 [] empty_world); reflexivity.
Defined.

(** ** Ends of a session *)

(** X8. When the pty cannot be created (always so on the windows build) a
    permitted, well-formed [pty-req] is answered false and [handleSession]
    returns: the requests that follow on the session are not processed. *)
Theorem pty_failure_ends_session (s : Server) (os : OS) (shell : string)
    (shf wantReply : bool) (payload : list byte) (width height : Z)
    (rest : list Request) (w : World) :
  AllowExecute s = true ->
  ptyReqDims payload = Some (width, height) ->
  windows os || negb (os_createPty os) = true ->
  adds (sessionLoop s os shell shf (mkRequest "pty-req" wantReply payload :: rest))
       w tt [Reply false].
Proof.
  intros Hperm Hd Hfail. unfold ptyReqDims in Hd.
  destruct (index payload 3) as [termLen|] eqn:E1; [|discriminate].
  destruct (slice_from payload (wrap8 (byte_val termLen + 4))) as [dims|] eqn:E2;
    [|discriminate].
  destruct (BigEndian_Uint32 dims) as [w0|] eqn:E3; [|discriminate].
  destruct (slice_from dims 4) as [dims4|] eqn:E4; [|discriminate].
  destruct (BigEndian_Uint32 dims4) as [h0|] eqn:E5; [|discriminate].
  unfold adds. cbn [sessionLoop]. unfold sessionRequest.
  cbn [Type_ Payload String.eqb Ascii.eqb Bool.eqb]. rewrite Hperm. cbn [negb].
  unfold parseDims, createPty, createPty_windows, createPty_unix.
  unfold bind, check, ret.
  rewrite E1. cbn beta iota. rewrite E2. cbn beta iota.
  rewrite E3. cbn beta iota. rewrite E4. cbn beta iota. rewrite E5. cbn beta iota.
  destruct (windows os); [reflexivity|].
  destruct (os_createPty os); [discriminate | reflexivity].
Qed.

Lemma pty_failure_ends_session_witness :
  ptyReqDims (ptyReqPayload "xterm" 80 24) = Some (80, 24)
  /\ adds (sessionLoop allow_all (with_windows os_good) "sh" false
             [mkRequest "pty-req" true (ptyReqPayload "xterm" 80 24);
              mkRequest "exec" true (execPayload "/bin/echo hello")])
          empty_world tt [Reply false].
Proof.
  split; [vm_compute; reflexivity|].
  apply (pty_failure_ends_session allow_all (with_windows os_good) "sh" false true
           (ptyReqPayload "xterm" 80 24) 80 24); [reflexivity | vm_compute; reflexivity
                                                 | reflexivity].
Defined.

(** X9. A [subsystem] request for any name other than sftp is answered
    false, with no log line, whether sftp is permitted or not. *)
Theorem subsystem_other_name_refused (s : Server) (os : OS) (shell : string)
    (shf wantReply : bool) (payload name : list byte) (w : World) :
  slice_from payload 4 = Some name ->
  String.eqb (string_of name) "sftp" = false ->
  adds (sessionRequest s os shell shf (mkRequest "subsystem" wantReply payload))
       w (Continue shf) [Reply false].
Proof.
  intros Hs Hn. unfold adds, sessionRequest, handleSessionSubSystem.
  cbn [Type_ Payload String.eqb Ascii.eqb Bool.eqb].
  unfold bind, check. rewrite Hs. unfold ret at 1. rewrite Hn. reflexivity.
Qed.

Lemma subsystem_other_name_refused_witness :
  slice_from (Marshal [VString (bytes_of "netconf")]) 4 = Some (bytes_of "netconf")
  /\ adds (sessionRequest allow_all os_good "sh" false
             (mkRequest "subsystem" true (Marshal [VString (bytes_of "netconf")])))
          empty_world (Continue false) [Reply false].
Proof.
  split; [reflexivity|].
  apply (subsystem_other_name_refused allow_all os_good "sh" false true
           (Marshal [VString (bytes_of "netconf")]) (bytes_of "netconf") empty_world);
    reflexivity.
Defined.

(** X10. An exec request whose command the shell-word parser refuses (an
    unclosed quote, say) is dropped in silence: no reply, no log line, no
    command, and the session goes on. *)
Theorem exec_unparsable_dropped (s : Server) (os : OS) (shell : string) (shf : bool)
    (req : Request) (command : list byte) (w : World) :
  Type_ req = "exec" -> AllowExecute s = true ->
  Unmarshal (Payload req) [KString] = Some [VString command] ->
  shellwords_Parse os (string_of command) = None ->
  sessionRequest s os shell shf req w = (Returned (Continue shf), w).
Proof.
  intros Ht Hperm Hu Hp. unfold sessionRequest. rewrite Ht, Hperm. simpl.
  unfold bind, handleExecRequest. rewrite Hu, Hp. reflexivity.
Qed.

(** X11. When [newChannel.Accept] fails the handler logs and returns: a
    session processes none of its requests, a direct channel dials nothing. *)
Theorem accept_failure_stops (s : Server) (os : OS) (shell : string)
    (requests : list Request) (newChannel : NewChannel) (w : World) :
  os_accept os = false ->
  adds (handleSession s os shell requests) w tt [Accept; Log "Could not accept channel"]
  /\ (is_Some (Unmarshal (ExtraData newChannel) [KString; KUint32; KString; KUint32]) ->
      adds (handleDirectTcpip os newChannel) w tt [Accept; Log "failed to accept"])
  /\ (is_Some (Unmarshal (ExtraData newChannel) [KString; KString; KUint32]) ->
      adds (handleDirectStreamlocal os newChannel) w tt [Accept; Log "failed to accept"]).
Proof.
  intros Ha. split; [|split].
  - unfold adds, handleSession. monad. rewrite Ha. monad. reflexivity.
  - intros [vs Hu]. unfold adds, handleDirectTcpip. rewrite Hu.
    unfold Unmarshal in Hu. destruct (ExtraData newChannel) as [|b0 data]; [discriminate|].
    destruct (parseFields _ _) as [[vs' rest]|] eqn:E; [|discriminate].
    destruct rest; [|discriminate]. injection Hu as <-.
    cbn [parseFields] in E.
    destruct (parseString (b0 :: data)) as [[s1 r1]|]; [|discriminate].
    destruct (parseUint32 r1) as [[n1 r2]|]; [|discriminate].
    destruct (parseString r2) as [[s2 r3]|]; [|discriminate].
    destruct (parseUint32 r3) as [[n2 r4]|]; [|discriminate].
    injection E as <- _. monad. rewrite Ha. monad. reflexivity.
  - intros [vs Hu]. unfold adds, handleDirectStreamlocal. rewrite Hu.
    unfold Unmarshal in Hu. destruct (ExtraData newChannel) as [|b0 data]; [discriminate|].
    destruct (parseFields _ _) as [[vs' rest]|] eqn:E; [|discriminate].
    destruct rest; [|discriminate]. injection Hu as <-.
    cbn [parseFields] in E.
    destruct (parseString (b0 :: data)) as [[s1 r1]|]; [|discriminate].
    destruct (parseString r1) as [[s2 r2]|]; [|discriminate].
    destruct (parseUint32 r2) as [[n2 r3]|]; [|discriminate].
    injection E as <- _. monad. rewrite Ha. monad. reflexivity.
Qed.

Lemma exec_unparsable_dropped_witness :
  let os := with_parse (fun _ => None) os_good in
  let req := mkRequest "exec" true (execPayload "echo 'unclosed") in
  shellwords_Parse os (string_of (bytes_of "echo 'unclosed")) = None
  /\ sessionRequest allow_all os "sh" false req empty_world
     = (Returned (Continue false), empty_world).
Proof.
  intros os req. split; [reflexivity|].
  apply (exec_unparsable_dropped allow_all os "sh" false req (bytes_of "echo 'unclosed")
           empty_world); [reflexivity | reflexivity | vm_compute; reflexivity | reflexivity].
Defined.

Lemma accept_failure_stops_witness :
  let os := with_accept false os_good in
  let nc := mkNewChannel "direct-tcpip" (directTcpipData "127.0.0.1" 80 "10.0.0.1" 4000) in
  let nc' := mkNewChannel "direct-streamlocal@openssh.com"
               (directStreamlocalData "/tmp/t.sock") in
  adds (handleSession allow_all os "sh" [mkRequest "shell" true []]) empty_world tt
       [Accept; Log "Could not accept channel"]
  /\ adds (handleDirectTcpip os nc) empty_world tt [Accept; Log "failed to accept"]
  /\ adds (handleDirectStreamlocal os nc') empty_world tt [Accept; Log "failed to accept"].
Proof.
  intros os nc nc'.
  destruct (accept_failure_stops allow_all os "sh" [mkRequest "shell" true []] nc
              empty_world) as (H1 & H2 & _); [reflexivity|].
  destruct (accept_failure_stops allow_all os "sh" [] nc' empty_world)
    as (_ & _ & H3); [reflexivity|].
  split; [exact H1|]. split.
  - apply H2. vm_compute. eauto.
  - apply H3. vm_compute. eauto.
Defined.

(** ** Decoding *)

Lemma parseFields_kinds (shape : list kind) : forall data vs rest,
  parseFields shape data = Some (vs, rest) -> Forall2 has_kind vs shape.
Proof.
  induction shape as [|k shape IH]; intros data vs rest H; simpl in H.
  - injection H as <- _. constructor.
  - destruct k.
    + destruct (parseString data) as [[s r]|]; [|discriminate].
      destruct (parseFields shape r) as [[vs' r']|] eqn:E; [|discriminate].
      injection H as <- _. constructor; [exact I | eauto].
    + destruct (parseUint32 data) as [[n r]|]; [|discriminate].
      destruct (parseFields shape r) as [[vs' r']|] eqn:E; [|discriminate].
      injection H as <- _. constructor; [exact I | eauto].
Qed.

(** What [ssh.Unmarshal] returns has the fields of the struct, in order. *)
Lemma Unmarshal_kinds (data : list byte) (shape : list kind) (vs : list value) :
  Unmarshal data shape = Some vs -> Forall2 has_kind vs shape.
Proof.
  unfold Unmarshal. destruct data as [|b data]; [discriminate|].
  destruct (parseFields shape (b :: data)) as [[vs' rest]|] eqn:E; [|discriminate].
  destruct rest; [|discriminate]. intros [= <-]. eapply parseFields_kinds; eauto.
Qed.

(** Split a decoded list into the fields its shape promises. *)
Ltac fields H :=
  apply Unmarshal_kinds in H as ?Hk;
  repeat match goal with
    | Hk : Forall2 has_kind _ (_ :: _) |- _ => inversion Hk; subst; clear Hk
    | Hk : Forall2 has_kind _ [] |- _ => inversion Hk; subst; clear Hk
    | Hv : has_kind ?v _ |- _ => destruct v; simpl in Hv; try contradiction; clear Hv
    end.

Lemma Unmarshal_string_uint32 (data : list byte) :
  Unmarshal data [KString; KUint32] = None
  \/ exists a p, Unmarshal data [KString; KUint32] = Some [VString a; VUint32 p].
Proof.
  destruct (Unmarshal data [KString; KUint32]) as [vs|] eqn:Hu; [|by left].
  right. pose proof Hu as Hu'. fields Hu'. eauto.
Qed.

Lemma Unmarshal_string (data : list byte) :
  Unmarshal data [KString] = None
  \/ exists a, Unmarshal data [KString] = Some [VString a].
Proof.
  destruct (Unmarshal data [KString]) as [vs|] eqn:Hu; [|by left].
  right. pose proof Hu as Hu'. fields Hu'. eauto.
Qed.

Lemma Unmarshal_direct_tcpip (data : list byte) :
  Unmarshal data [KString; KUint32; KString; KUint32] = None
  \/ exists a p b q, Unmarshal data [KString; KUint32; KString; KUint32]
                     = Some [VString a; VUint32 p; VString b; VUint32 q].
Proof.
  destruct (Unmarshal data [KString; KUint32; KString; KUint32]) as [vs|] eqn:Hu; [|by left].
  right. pose proof Hu as Hu'. fields Hu'. eauto 6.
Qed.

Lemma Unmarshal_direct_streamlocal (data : list byte) :
  Unmarshal data [KString; KString; KUint32] = None
  \/ exists a b q, Unmarshal data [KString; KString; KUint32]
                   = Some [VString a; VString b; VUint32 q].
Proof.
  destruct (Unmarshal data [KString; KString; KUint32]) as [vs|] eqn:Hu; [|by left].
  right. pose proof Hu as Hu'. fields Hu'. eauto 6.
Qed.

(** ** Forwards that do not bind *)

(** X12. A [tcpip-forward] or [streamlocal-forward] whose payload does not
    decode is answered false without a bind attempt; one whose bind fails is
    answered false after it.  In both cases the registry is left as it was
    and no watchdog or accept loop is started. *)
Theorem forward_not_bound (os : OS) (req : Request) (w : World) :
  (Unmarshal (Payload req) [KString; KUint32] = None ->
     adds (handleTcpipForward os req) w tt [Reply false])
  /\ (forall addr port,
     Unmarshal (Payload req) [KString; KUint32] = Some [VString addr; VUint32 port] ->
     os_listen os "tcp" (JoinHostPort (string_of addr) (Itoa port)) = None ->
     adds (handleTcpipForward os req) w tt
          [Listen "tcp" (JoinHostPort (string_of addr) (Itoa port)); Reply false])
  /\ (Unmarshal (Payload req) [KString] = None ->
     adds (handleStreamlocalForward os req) w tt [Reply false])
  /\ (forall socketPath,
     Unmarshal (Payload req) [KString] = Some [VString socketPath] ->
     os_listen os "unix" (string_of socketPath) = None ->
     adds (handleStreamlocalForward os req) w tt
          [Listen "unix" (string_of socketPath); Reply false]).
Proof.
  split; [|split; [|split]].
  - intros Hu. unfold adds, handleTcpipForward. rewrite Hu. reflexivity.
  - intros addr port Hu Hl. unfold adds, handleTcpipForward. rewrite Hu.
    monad. rewrite Hl. monad. reflexivity.
  - intros Hu. unfold adds, handleStreamlocalForward. rewrite Hu. reflexivity.
  - intros socketPath Hu Hl. unfold adds, handleStreamlocalForward. rewrite Hu.
    monad. rewrite Hl. monad. reflexivity.
Qed.

Lemma forward_not_bound_witness :
  let os := with_listen None os_good in
  adds (handleTcpipForward os (mkRequest "tcpip-forward" true [x00; x00])) empty_world tt
       [Reply false]
  /\ adds (handleTcpipForward os
             (mkRequest "tcpip-forward" true (forwardPayload "127.0.0.1" 80)))
          empty_world tt [Listen "tcp" "127.0.0.1:80"; Reply false]
  /\ adds (handleStreamlocalForward os (mkRequest "streamlocal-forward@openssh.com" true []))
          empty_world tt [Reply false]
  /\ adds (handleStreamlocalForward os
             (mkRequest "streamlocal-forward@openssh.com" true
                (Marshal [VString (bytes_of "/tmp/t.sock")])))
          empty_world tt [Listen "unix" "/tmp/t.sock"; Reply false].
Proof.
  intros os. split; [|split; [|split]].
  - destruct (forward_not_bound os (mkRequest "tcpip-forward" true [x00; x00]) empty_world)
      as (H & _). apply H. reflexivity.
  - destruct (forward_not_bound os
                (mkRequest "tcpip-forward" true (forwardPayload "127.0.0.1" 80)) empty_world)
      as (_ & H & _).
    apply (H (bytes_of "127.0.0.1") 80); [vm_compute; reflexivity | reflexivity].
  - destruct (forward_not_bound os (mkRequest "streamlocal-forward@openssh.com" true [])
                empty_world) as (_ & _ & H & _). apply H. reflexivity.
  - destruct (forward_not_bound os
                (mkRequest "streamlocal-forward@openssh.com" true
                   (Marshal [VString (bytes_of "/tmp/t.sock")])) empty_world)
      as (_ & _ & _ & H).
    apply (H (bytes_of "/tmp/t.sock")); [vm_compute; reflexivity | reflexivity].
Defined.

(** ** Forward, then cancel *)

(** X13. A [cancel-tcpip-forward] for the address and port of an earlier
    [tcpip-forward] that bound closes the very listener that forward bound,
    replies true once, and leaves the registry without the key: what the
    forward stored is gone. *)
Theorem forward_then_cancel (os os' : OS) (fwd cancel : Request) (addr : list byte)
    (port : Z) (ln : Listener) (w : World) :
  Unmarshal (Payload fwd) [KString; KUint32] = Some [VString addr; VUint32 port] ->
  Payload cancel = Payload fwd ->
  os_listen os "tcp" (JoinHostPort (string_of addr) (Itoa port)) = Some ln ->
  os_close_ok os' ln = true ->
  let w1 := snd (handleTcpipForward os fwd w) in
  cancelTcpipForward os' cancel w1
  = (Returned tt,
     mkWorld (delete (JoinHostPort (string_of addr) (Itoa port)) (bindAddressToListener w))
             (trace w1 ++ [ListenerClose ln; Reply true])).
Proof.
  intros Hu Hpay Hl Hc w1.
  destruct (handleTcpipForward_bound os fwd addr port ln w Hu Hl) as (es & H & _).
  assert (Hreg : bindAddressToListener w1 !! JoinHostPort (string_of addr) (Itoa port)
                 = Some ln).
  { unfold w1. rewrite H. simpl. apply lookup_insert_eq. }
  rewrite <- Hpay in Hu.
  rewrite (cancelTcpipForward_present os' cancel w1 addr port ln Hu Hreg Hc).
  unfold w1 at 1. rewrite H. simpl. by rewrite delete_insert_eq.
Qed.

Lemma forward_then_cancel_witness :
  let fwd := mkRequest "tcpip-forward" true (forwardPayload "127.0.0.1" 8080) in
  let cancel := mkRequest "cancel-tcpip-forward" true (forwardPayload "127.0.0.1" 8080) in
  let w1 := snd (handleTcpipForward os_good fwd empty_world) in
  cancelTcpipForward os_good cancel w1
  = (Returned tt,
     mkWorld (delete "127.0.0.1:8080" ∅) (trace w1 ++ [ListenerClose 1%nat; Reply true])).
Proof.
  intros fwd cancel w1.
  apply (forward_then_cancel os_good os_good fwd cancel (bytes_of "127.0.0.1") 8080 1%nat
           empty_world); [vm_compute; reflexivity | reflexivity | reflexivity | reflexivity].
Defined.

(** X14. For a socket forward the take is once: the first
    [cancel-streamlocal-forward@openssh.com] closes the listener and replies
    true, a second one for the same path finds nothing, closes nothing and
    replies false. *)
Theorem streamlocal_cancel_twice (os os' os'' : OS) (fwd cancel : Request)
    (socketPath : list byte) (ln : Listener) (w : World) :
  Unmarshal (Payload fwd) [KString] = Some [VString socketPath] ->
  Payload cancel = Payload fwd ->
  os_listen os "unix" (string_of socketPath) = Some ln ->
  os_close_ok os' ln = true ->
  let w1 := snd (handleStreamlocalForward os fwd w) in
  let w2 := snd (cancelStreamlocalForward os' cancel w1) in
  added (cancelStreamlocalForward os' cancel) w1 = [ListenerClose ln; Reply true]
  /\ bindAddressToListener w2 = delete (string_of socketPath) (bindAddressToListener w)
  /\ cancelStreamlocalForward os'' cancel w2
     = (Returned tt,
        mkWorld (bindAddressToListener w2)
                (trace w2 ++ [Log "failed to find listener"; Reply false])).
Proof.
  intros Hu Hpay Hl Hc w1 w2.
  destruct (handleStreamlocalForward_bound os fwd socketPath ln w Hu Hl) as (es & H & _).
  assert (Hreg : bindAddressToListener w1 !! string_of socketPath = Some ln).
  { unfold w1. rewrite H. simpl. apply lookup_insert_eq. }
  rewrite <- Hpay in Hu.
  pose proof (cancelStreamlocalForward_present os' cancel w1 socketPath ln Hu Hreg Hc) as H1.
  assert (Hreg2 : bindAddressToListener w2
                  = delete (string_of socketPath) (bindAddressToListener w)).
  { unfold w2. rewrite H1. simpl. unfold w1. rewrite H. simpl. by rewrite delete_insert_eq. }
  split; [eapply added_app; exact H1|]. split; [exact Hreg2|].
  apply (cancelStreamlocalForward_absent os'' cancel w2 socketPath Hu).
  rewrite Hreg2. apply lookup_delete_eq.
Qed.

Lemma streamlocal_cancel_twice_witness :
  let fwd := mkRequest "streamlocal-forward@openssh.com" true
               (Marshal [VString (bytes_of "/tmp/t.sock")]) in
  let cancel := mkRequest "cancel-streamlocal-forward@openssh.com" true
                  (Marshal [VString (bytes_of "/tmp/t.sock")]) in
  trace_of (HandleGlobalRequests allow_all os_good [fwd; cancel; cancel]) empty_world
  = [Go TStreamlocalForward; Listen "unix" "/tmp/t.sock"; Reply true; Watchdog 1%nat;
     ListenerAccept 1%nat;
     Go TCancelStreamlocalForward; ListenerClose 1%nat; Reply true;
     Go TCancelStreamlocalForward; Log "failed to find listener"; Reply false]
  /\ added (cancelStreamlocalForward os_good cancel)
           (snd (handleStreamlocalForward os_good fwd empty_world))
     = [ListenerClose 1%nat; Reply true].
Proof.
  intros fwd cancel. split; [vm_compute; reflexivity|].
  apply (streamlocal_cancel_twice os_good os_good os_good fwd cancel
           (bytes_of "/tmp/t.sock") 1%nat empty_world);
    [vm_compute; reflexivity | reflexivity | reflexivity | reflexivity].
Defined.

(** X15. TCP and socket forwards share one registry: a
    [cancel-streamlocal-forward@openssh.com] whose socket path spells the
    host:port key of a TCP forward takes and closes that TCP listener. *)
Theorem streamlocal_cancel_closes_tcp_forward (os os' : OS) (fwd cancel : Request)
    (addr socketPath : list byte) (port : Z) (ln : Listener) (w : World) :
  Unmarshal (Payload fwd) [KString; KUint32] = Some [VString addr; VUint32 port] ->
  Unmarshal (Payload cancel) [KString] = Some [VString socketPath] ->
  string_of socketPath = JoinHostPort (string_of addr) (Itoa port) ->
  os_listen os "tcp" (JoinHostPort (string_of addr) (Itoa port)) = Some ln ->
  os_close_ok os' ln = true ->
  let w1 := snd (handleTcpipForward os fwd w) in
  cancelStreamlocalForward os' cancel w1
  = (Returned tt,
     mkWorld (delete (JoinHostPort (string_of addr) (Itoa port)) (bindAddressToListener w))
             (trace w1 ++ [ListenerClose ln; Reply true])).
Proof.
  intros Hu Hu' Hpath Hl Hc w1.
  destruct (handleTcpipForward_bound os fwd addr port ln w Hu Hl) as (es & H & _).
  assert (Hreg : bindAddressToListener w1 !! string_of socketPath = Some ln).
  { rewrite Hpath. unfold w1. rewrite H. simpl. apply lookup_insert_eq. }
  rewrite (cancelStreamlocalForward_present os' cancel w1 socketPath ln Hu' Hreg Hc).
  rewrite Hpath. unfold w1 at 1. rewrite H. simpl. by rewrite delete_insert_eq.
Qed.

Lemma streamlocal_cancel_closes_tcp_forward_witness :
  let fwd := mkRequest "tcpip-forward" true (forwardPayload "127.0.0.1" 8080) in
  let cancel := mkRequest "cancel-streamlocal-forward@openssh.com" true
                  (Marshal [VString (bytes_of "127.0.0.1:8080")]) in
  string_of (bytes_of "127.0.0.1:8080") = JoinHostPort (string_of (bytes_of "127.0.0.1")) (Itoa 8080)
  /\ HandleGlobalRequests allow_all os_good [fwd; cancel] empty_world
     = (Returned tt,
        mkWorld ∅ [Go TTcpipForward; Listen "tcp" "127.0.0.1:8080"; Reply true;
                   Watchdog 1%nat; ListenerAccept 1%nat;
                   Go TCancelStreamlocalForward; ListenerClose 1%nat; Reply true])
  /\ fst (cancelStreamlocalForward os_good cancel
            (snd (handleTcpipForward os_good fwd empty_world))) = Returned tt.
Proof.
  intros fwd cancel. split; [reflexivity|]. split; [vm_compute; reflexivity|].
  rewrite (streamlocal_cancel_closes_tcp_forward os_good os_good fwd cancel
             (bytes_of "127.0.0.1") (bytes_of "127.0.0.1:8080") 8080 1%nat empty_world);
    [reflexivity | vm_compute; reflexivity | vm_compute; reflexivity | reflexivity
    | reflexivity | reflexivity].
Defined.

(** ** What a request can do to the registry *)

(** X16. One forward request changes the registry by at most one insertion,
    at the key it bound, and only when it bound; one cancel request by at
    most one deletion, at the key it names, and only when its payload
    decodes.  No other entry is added, removed or replaced. *)
Theorem registry_change_at_most_one (os : OS) (req : Request) (w : World) :
  (registry_of (handleTcpipForward os req) w = bindAddressToListener w
   \/ exists addr port ln,
        Unmarshal (Payload req) [KString; KUint32] = Some [VString addr; VUint32 port]
        /\ os_listen os "tcp" (JoinHostPort (string_of addr) (Itoa port)) = Some ln
        /\ registry_of (handleTcpipForward os req) w
           = <[JoinHostPort (string_of addr) (Itoa port) := ln]> (bindAddressToListener w))
  /\ (registry_of (handleStreamlocalForward os req) w = bindAddressToListener w
   \/ exists socketPath ln,
        Unmarshal (Payload req) [KString] = Some [VString socketPath]
        /\ os_listen os "unix" (string_of socketPath) = Some ln
        /\ registry_of (handleStreamlocalForward os req) w
           = <[string_of socketPath := ln]> (bindAddressToListener w))
  /\ (registry_of (cancelTcpipForward os req) w = bindAddressToListener w
   \/ exists addr port,
        Unmarshal (Payload req) [KString; KUint32] = Some [VString addr; VUint32 port]
        /\ registry_of (cancelTcpipForward os req) w
           = delete (JoinHostPort (string_of addr) (Itoa port)) (bindAddressToListener w))
  /\ (registry_of (cancelStreamlocalForward os req) w = bindAddressToListener w
   \/ exists socketPath,
        Unmarshal (Payload req) [KString] = Some [VString socketPath]
        /\ registry_of (cancelStreamlocalForward os req) w
           = delete (string_of socketPath) (bindAddressToListener w)).
Proof.
  split; [|split; [|split]].
  - destruct (Unmarshal_string_uint32 (Payload req)) as [Hu|(addr & port & Hu)].
    + left. unfold registry_of, handleTcpipForward. rewrite Hu. reflexivity.
    + destruct (os_listen os "tcp" (JoinHostPort (string_of addr) (Itoa port)))
        as [ln|] eqn:Hl.
      * right. exists addr, port, ln. split; [exact Hu|]. split; [exact Hl|].
        destruct (handleTcpipForward_bound os req addr port ln w Hu Hl) as (es & H & _).
        unfold registry_of. rewrite H. reflexivity.
      * left. unfold registry_of, handleTcpipForward. rewrite Hu. monad. rewrite Hl.
        reflexivity.
  - destruct (Unmarshal_string (Payload req)) as [Hu|(socketPath & Hu)].
    + left. unfold registry_of, handleStreamlocalForward. rewrite Hu. reflexivity.
    + destruct (os_listen os "unix" (string_of socketPath)) as [ln|] eqn:Hl.
      * right. exists socketPath, ln. split; [exact Hu|]. split; [exact Hl|].
        destruct (handleStreamlocalForward_bound os req socketPath ln w Hu Hl)
          as (es & H & _).
        unfold registry_of. rewrite H. reflexivity.
      * left. unfold registry_of, handleStreamlocalForward. rewrite Hu. monad. rewrite Hl.
        reflexivity.
  - destruct (Unmarshal_string_uint32 (Payload req)) as [Hu|(addr & port & Hu)].
    + left. unfold registry_of, cancelTcpipForward. rewrite Hu. reflexivity.
    + right. exists addr, port. split; [exact Hu|].
      unfold registry_of, cancelTcpipForward. rewrite Hu. unfold bind, LoadAndDelete.
      destruct (bindAddressToListener w !! JoinHostPort (string_of addr) (Itoa port))
        as [ln|] eqn:Hreg.
      * monad. destruct (os_close_ok os ln); reflexivity.
      * monad. by rewrite delete_id.
  - destruct (Unmarshal_string (Payload req)) as [Hu|(socketPath & Hu)].
    + left. unfold registry_of, cancelStreamlocalForward. rewrite Hu. reflexivity.
    + right. exists socketPath. split; [exact Hu|].
      unfold registry_of, cancelStreamlocalForward. rewrite Hu. unfold bind, LoadAndDelete.
      destruct (bindAddressToListener w !! string_of socketPath) as [ln|] eqn:Hreg.
      * monad. destruct (os_close_ok os ln); reflexivity.
      * monad. by rewrite delete_id.
Qed.

(** ** Handlers that cannot panic *)

(** X17. The handlers that decode their payload with [ssh.Unmarshal] return
    on every payload, every registry and every answer of the system: both
    forwards, the socket cancel and both direct channels never panic. *)
Theorem decoding_handlers_never_panic (os : OS) (req : Request) (newChannel : NewChannel) :
  never_panics (handleTcpipForward os req)
  /\ never_panics (handleStreamlocalForward os req)
  /\ never_panics (cancelStreamlocalForward os req)
  /\ never_panics (handleDirectTcpip os newChannel)
  /\ never_panics (handleDirectStreamlocal os newChannel).
Proof.
  split; [|split; [|split; [|split]]]; intros w.
  - destruct (Unmarshal_string_uint32 (Payload req)) as [Hu|(addr & port & Hu)].
    + unfold handleTcpipForward. rewrite Hu. by eexists.
    + destruct (os_listen os "tcp" (JoinHostPort (string_of addr) (Itoa port)))
        as [ln|] eqn:Hl.
      * destruct (handleTcpipForward_bound os req addr port ln w Hu Hl) as (es & H & _).
        rewrite H. by eexists.
      * unfold handleTcpipForward. rewrite Hu. monad. rewrite Hl. by eexists.
  - destruct (Unmarshal_string (Payload req)) as [Hu|(socketPath & Hu)].
    + unfold handleStreamlocalForward. rewrite Hu. by eexists.
    + destruct (os_listen os "unix" (string_of socketPath)) as [ln|] eqn:Hl.
      * destruct (handleStreamlocalForward_bound os req socketPath ln w Hu Hl)
          as (es & H & _).
        rewrite H. by eexists.
      * unfold handleStreamlocalForward. rewrite Hu. monad. rewrite Hl. by eexists.
  - destruct (Unmarshal_string (Payload req)) as [Hu|(socketPath & Hu)].
    + unfold cancelStreamlocalForward. rewrite Hu. by eexists.
    + unfold cancelStreamlocalForward. rewrite Hu. unfold bind, LoadAndDelete.
      destruct (bindAddressToListener w !! string_of socketPath) as [ln|]; monad.
      * destruct (os_close_ok os ln); by eexists.
      * by eexists.
  - destruct (Unmarshal_direct_tcpip (ExtraData newChannel))
      as [Hu|(a & p & b & q & Hu)]; unfold handleDirectTcpip; rewrite Hu.
    + by eexists.
    + monad. destruct (os_accept os); monad; [|by eexists].
      destruct (os_dial os "tcp" (JoinHostPort (string_of a) (Itoa p))); by eexists.
  - destruct (Unmarshal_direct_streamlocal (ExtraData newChannel))
      as [Hu|(a & b & q & Hu)]; unfold handleDirectStreamlocal; rewrite Hu.
    + by eexists.
    + monad. destruct (os_accept os); monad; [|by eexists].
      destruct (os_dial os "unix" (string_of a)); by eexists.
Qed.

(** ** Direct channels *)

(** X18. Extra data that does not decode is only logged: the direct channel
    is neither accepted nor rejected, and nothing is dialled. *)
Theorem direct_malformed_only_logged (os : OS) (newChannel : NewChannel) (w : World) :
  (Unmarshal (ExtraData newChannel) [KString; KUint32; KString; KUint32] = None ->
     adds (handleDirectTcpip os newChannel) w tt
          [Log "failed to parse direct-tcpip message"])
  /\ (Unmarshal (ExtraData newChannel) [KString; KString; KUint32] = None ->
     adds (handleDirectStreamlocal os newChannel) w tt
          [Log "failed to parse direct-streamlocal message"]).
Proof.
  split; intros Hu.
  - unfold adds, handleDirectTcpip. rewrite Hu. reflexivity.
  - unfold adds, handleDirectStreamlocal. rewrite Hu. reflexivity.
Qed.

Lemma direct_malformed_only_logged_witness :
  let nc := mkNewChannel "direct-tcpip" (forwardPayload "127.0.0.1" 80) in
  adds (handleChannel allow_all os_good "sh" nc []) empty_world tt
       [Log "failed to parse direct-tcpip message"]
  /\ adds (handleDirectStreamlocal os_good nc) empty_world tt
          [Log "failed to parse direct-streamlocal message"].
Proof.
  intros nc.
  destruct (direct_malformed_only_logged os_good nc empty_world) as [H1 H2].
  split; [apply H1 | apply H2]; vm_compute; reflexivity.
Defined.

(** X19. A direct channel that was accepted is closed exactly once, whether
    the dial fails (closed at once, nothing else) or succeeds (closed by the
    latch, under every interleaving of the two copies); the backend
    connection is closed once when there is one and never otherwise. *)
Theorem direct_channel_closed_once (os : OS) (newChannel : NewChannel) (w : World) :
  os_accept os = true ->
  (forall raddr rport saddr sport,
     Unmarshal (ExtraData newChannel) [KString; KUint32; KString; KUint32]
       = Some [VString raddr; VUint32 rport; VString saddr; VUint32 sport] ->
     closes Channel (added (handleDirectTcpip os newChannel) w) = 1%nat
     /\ closes Conn (added (handleDirectTcpip os newChannel) w)
        = (if os_dial os "tcp" (JoinHostPort (string_of raddr) (Itoa rport))
           then 1 else 0)%nat)
  /\ (forall socketPath reserved reserved1,
     Unmarshal (ExtraData newChannel) [KString; KString; KUint32]
       = Some [VString socketPath; VString reserved; VUint32 reserved1] ->
     closes Channel (added (handleDirectStreamlocal os newChannel) w) = 1%nat
     /\ closes Conn (added (handleDirectStreamlocal os newChannel) w)
        = (if os_dial os "unix" (string_of socketPath) then 1 else 0)%nat).
Proof.
  intros Ha. destruct (direct_bridge_closes_once (os_sched os)) as [Dch Dco]. split.
  - intros raddr rport saddr sport Hu.
    set (address := JoinHostPort (string_of raddr) (Itoa rport)).
    assert (H : added (handleDirectTcpip os newChannel) w
                = ([Accept; DiscardRequests; Dial "tcp" address]
                   ++ (if os_dial os "tcp" address
                       then events (bridge_run (os_sched os) direct_bridge)
                       else [Log "failed to dial"; Close Channel]))%list).
    { eapply added_app. unfold handleDirectTcpip. rewrite Hu. fold address. monad.
      rewrite Ha. monad. destruct (os_dial os "tcp" address); monad; reflexivity. }
    rewrite H, !closes_app. destruct (os_dial os "tcp" address).
    + rewrite Dch, Dco. split; reflexivity.
    + split; reflexivity.
  - intros socketPath reserved reserved1 Hu.
    assert (H : added (handleDirectStreamlocal os newChannel) w
                = ([Accept; DiscardRequests; Dial "unix" (string_of socketPath)]
                   ++ (if os_dial os "unix" (string_of socketPath)
                       then events (bridge_run (os_sched os) direct_bridge)
                       else [Log "failed to dial"; Close Channel]))%list).
    { eapply added_app. unfold handleDirectStreamlocal. rewrite Hu. monad.
      rewrite Ha. monad. destruct (os_dial os "unix" (string_of socketPath)); monad;
        reflexivity. }
    rewrite H, !closes_app. destruct (os_dial os "unix" (string_of socketPath)).
    + rewrite Dch, Dco. split; reflexivity.
    + split; reflexivity.
Qed.

Lemma direct_channel_closed_once_witness :
  let nc := mkNewChannel "direct-tcpip" (directTcpipData "127.0.0.1" 80 "10.0.0.1" 4000) in
  let nc' := mkNewChannel "direct-streamlocal@openssh.com"
               (directStreamlocalData "/tmp/t.sock") in
  let os := with_dial false os_good in
  let os' := with_sched [true; false; true] os_good in
  (closes Channel (added (handleDirectTcpip os nc) empty_world) = 1%nat
   /\ closes Conn (added (handleDirectTcpip os nc) empty_world) = 0%nat)
  /\ (closes Channel (added (handleDirectStreamlocal os' nc') empty_world) = 1%nat
   /\ closes Conn (added (handleDirectStreamlocal os' nc') empty_world) = 1%nat).
Proof.
  intros nc nc' os os'. split.
  - destruct (direct_channel_closed_once os nc empty_world) as [H _]; [reflexivity|].
    apply (H (bytes_of "127.0.0.1") 80 (bytes_of "10.0.0.1") 4000).
    vm_compute. reflexivity.
  - destruct (direct_channel_closed_once os' nc' empty_world) as [_ H]; [reflexivity|].
    apply (H (bytes_of "/tmp/t.sock") [] 0). vm_compute. reflexivity.
Defined.

(** ** The accept loop *)

Lemma count_app (p : event -> bool) (a b : list event) :
  count p (a ++ b) = (count p a + count p b)%nat.
Proof. unfold count. by rewrite List.filter_app, length_app. Qed.

Lemma bridge_only_step (who : bool) (b : Bridge) :
  Forall (fun e => is_bridge_event e = true) (events b) ->
  Forall (fun e => is_bridge_event e = true) (events (bridge_step who b)).
Proof.
  intros H. unfold bridge_step.
  assert (Hexec : forall i, Forall (fun e => is_bridge_event e = true)
                              (events b ++ snd (exec_instr i (once_done b)))).
  { intros i. apply Forall_app. split; [exact H|].
    destruct i as [dst src| |e]; simpl.
    - by repeat constructor.
    - destruct (once_done b); by repeat constructor.
    - by repeat constructor. }
  destruct who.
  - destruct (second_thread b); simpl; auto.
  - destruct (first_thread b); simpl; auto.
Qed.

Lemma bridge_only (sched : list bool) :
  Forall (fun e => is_bridge_event e = true) (events (bridge_run sched reverse_bridge)).
Proof.
  apply (bridge_run_invariant
           (fun b => Forall (fun e => is_bridge_event e = true) (events b))).
  - intros who b. apply bridge_only_step.
  - constructor.
Qed.

Lemma count_bridge_zero (p : event -> bool) (es : list event) :
  (forall e, is_bridge_event e = true -> p e = false) ->
  Forall (fun e => is_bridge_event e = true) es -> count p es = 0%nat.
Proof.
  intros Hp H. unfold count. induction H as [|e es He _ IH]; [reflexivity|].
  simpl. rewrite (Hp e He). exact IH.
Qed.

(** What the goroutine of one accepted connection adds, counted. *)
Lemma forwardConn_counts (name : string) (payload : list byte) (c : Accepted) (w : World) :
  exists es,
    adds (forwardConn name payload c) w tt es
    /\ count is_OpenChannel es = 1%nat
    /\ count is_ListenerAccept es = 0%nat
    /\ count is_Reply es = (if open_channel_ok c then 0 else 1)%nat.
Proof.
  unfold forwardConn, adds. monad. destruct (open_channel_ok c); monad.
  - eexists. split; [reflexivity|].
    change (OpenChannel name payload :: DiscardRequests
              :: events (bridge_run (accepted_sched c) reverse_bridge))
      with ([OpenChannel name payload; DiscardRequests]
              ++ events (bridge_run (accepted_sched c) reverse_bridge))%list.
    rewrite !count_app.
    rewrite (count_bridge_zero is_OpenChannel _
               ltac:(intros [] ?; try discriminate; reflexivity) (bridge_only _)).
    rewrite (count_bridge_zero is_ListenerAccept _
               ltac:(intros [] ?; try discriminate; reflexivity) (bridge_only _)).
    rewrite (count_bridge_zero is_Reply _
               ltac:(intros [] ?; try discriminate; reflexivity) (bridge_only _)).
    repeat split.
  - eexists. split; [reflexivity|]. repeat split.
Qed.

Lemma acceptTcpip_counts (os : OS) (ln : Listener) (addr : list byte) (port : Z)
    (conns : list Accepted) : forall w,
  exists es, adds (acceptTcpip os ln addr port conns) w tt es
    /\ count is_OpenChannel es = length conns
    /\ count is_ListenerAccept es = S (length conns)
    /\ count is_Reply es = failed_opens conns.
Proof.
  induction conns as [|c rest IH]; intros w; simpl.
  - destruct (os_accept_error os).
    + exists [ListenerAccept ln; Log "failed to accept"]. split; [|repeat split].
      unfold adds. monad. reflexivity.
    + exists [ListenerAccept ln]. split; [|repeat split].
      unfold adds. monad. reflexivity.
  - set (w1 := mkWorld (bindAddressToListener w) (trace w ++ [ListenerAccept ln])).
    assert (Hsplit : exists es0,
               adds (match originator c with
                     | Some _ => ret tt
                     | None => emit (Log "failed to split remote address")
                     end) w1 tt es0
               /\ count is_OpenChannel es0 = 0%nat
               /\ count is_ListenerAccept es0 = 0%nat
               /\ count is_Reply es0 = 0%nat).
    { destruct (originator c).
      - exists []. split; [apply adds_ret | repeat split].
      - eexists. split; [apply adds_emit | repeat split]. }
    destruct Hsplit as (es0 & H0 & A0 & B0 & C0).
    set (w2 := mkWorld (bindAddressToListener w1) (trace w1 ++ es0)).
    destruct (forwardConn_counts "forwarded-tcpip" (forwardedTcpipMsg addr port c) c w2)
      as (es1 & H1 & A1 & B1 & C1).
    destruct (IH (mkWorld (bindAddressToListener w2) (trace w2 ++ es1)))
      as (es2 & H2 & A2 & B2 & C2).
    exists ([ListenerAccept ln] ++ es0 ++ es1 ++ es2)%list. split.
    + eapply adds_bind; [apply adds_emit|].
      eapply adds_bind; [exact H0|].
      eapply adds_bind; [exact H1|]. exact H2.
    + rewrite !count_app, A0, A1, A2, B0, B1, B2, C0, C1, C2.
      unfold failed_opens. simpl. destruct (open_channel_ok c); simpl; repeat split; lia.
Qed.

Lemma acceptStreamlocal_counts (os : OS) (ln : Listener) (socketPath : list byte)
    (conns : list Accepted) : forall w,
  exists es, adds (acceptStreamlocal os ln socketPath conns) w tt es
    /\ count is_OpenChannel es = length conns
    /\ count is_ListenerAccept es = S (length conns)
    /\ count is_Reply es = failed_opens conns.
Proof.
  induction conns as [|c rest IH]; intros w; simpl.
  - destruct (os_accept_error os).
    + exists [ListenerAccept ln; Log "failed to accept"]. split; [|repeat split].
      unfold adds. monad. reflexivity.
    + exists [ListenerAccept ln]. split; [|repeat split].
      unfold adds. monad. reflexivity.
  - set (w1 := mkWorld (bindAddressToListener w) (trace w ++ [ListenerAccept ln])).
    destruct (forwardConn_counts "forwarded-streamlocal@openssh.com"
                (Marshal [VString socketPath; VString []]) c w1)
      as (es1 & H1 & A1 & B1 & C1).
    destruct (IH (mkWorld (bindAddressToListener w1) (trace w1 ++ es1)))
      as (es2 & H2 & A2 & B2 & C2).
    exists ([ListenerAccept ln] ++ es1 ++ es2)%list. split.
    + eapply adds_bind; [apply adds_emit|].
      eapply adds_bind; [exact H1|]. exact H2.
    + rewrite !count_app, A1, A2, B1, B2, C1, C2.
      unfold failed_opens. simpl. destruct (open_channel_ok c); simpl; repeat split; lia.
Qed.

(** The trace of a forward that binds, with its accept loop counted. *)
Lemma handleTcpipForward_counts (os : OS) (req : Request) (addr : list byte) (port : Z)
    (ln : Listener) (w : World) :
  Unmarshal (Payload req) [KString; KUint32] = Some [VString addr; VUint32 port] ->
  os_listen os "tcp" (JoinHostPort (string_of addr) (Itoa port)) = Some ln ->
  count is_OpenChannel (added (handleTcpipForward os req) w) = length (os_accepts os)
  /\ count is_ListenerAccept (added (handleTcpipForward os req) w)
     = S (length (os_accepts os))
  /\ count is_Reply (added (handleTcpipForward os req) w)
     = S (failed_opens (os_accepts os)).
Proof.
  intros Hu Hl.
  set (address := JoinHostPort (string_of addr) (Itoa port)) in *.
  destruct (acceptTcpip_counts os ln addr port (os_accepts os)
              (mkWorld (<[address := ln]> (bindAddressToListener w))
                       (trace w ++ [Listen "tcp" address; Reply true; Watchdog ln])))
    as (es & H & A & B & C).
  assert (Hadd : added (handleTcpipForward os req) w
                 = ([Listen "tcp" address; Reply true; Watchdog ln] ++ es)%list).
  { eapply added_app. unfold handleTcpipForward. rewrite Hu. fold address. monad.
    rewrite Hl. monad. unfold adds in H. simpl in H. rewrite H.
    rewrite <- app_assoc. reflexivity. }
  rewrite Hadd, !count_app, A, B, C. repeat split.
Qed.

Lemma handleStreamlocalForward_counts (os : OS) (req : Request) (socketPath : list byte)
    (ln : Listener) (w : World) :
  Unmarshal (Payload req) [KString] = Some [VString socketPath] ->
  os_listen os "unix" (string_of socketPath) = Some ln ->
  count is_OpenChannel (added (handleStreamlocalForward os req) w) = length (os_accepts os)
  /\ count is_ListenerAccept (added (handleStreamlocalForward os req) w)
     = S (length (os_accepts os))
  /\ count is_Reply (added (handleStreamlocalForward os req) w)
     = S (failed_opens (os_accepts os)).
Proof.
  intros Hu Hl.
  destruct (acceptStreamlocal_counts os ln socketPath (os_accepts os)
              (mkWorld (<[string_of socketPath := ln]> (bindAddressToListener w))
                       (trace w ++ [Listen "unix" (string_of socketPath);
                                    Reply true; Watchdog ln])))
    as (es & H & A & B & C).
  assert (Hadd : added (handleStreamlocalForward os req) w
                 = ([Listen "unix" (string_of socketPath); Reply true; Watchdog ln]
                    ++ es)%list).
  { eapply added_app. unfold handleStreamlocalForward. rewrite Hu. monad.
    rewrite Hl. monad. unfold adds in H. simpl in H. rewrite H.
    rewrite <- app_assoc. reflexivity. }
  rewrite Hadd, !count_app, A, B, C. repeat split.
Qed.

(** X20. A forward that binds asks for one reverse channel per connection
    its listener accepts, no more and no fewer, and calls [ln.Accept] once
    more than it got connections. *)
Theorem reverse_channel_per_connection (os : OS) (req : Request) (ln : Listener) (w : World) :
  (forall addr port,
     Unmarshal (Payload req) [KString; KUint32] = Some [VString addr; VUint32 port] ->
     os_listen os "tcp" (JoinHostPort (string_of addr) (Itoa port)) = Some ln ->
     count is_OpenChannel (added (handleTcpipForward os req) w) = length (os_accepts os)
     /\ count is_ListenerAccept (added (handleTcpipForward os req) w)
        = S (length (os_accepts os)))
  /\ (forall socketPath,
     Unmarshal (Payload req) [KString] = Some [VString socketPath] ->
     os_listen os "unix" (string_of socketPath) = Some ln ->
     count is_OpenChannel (added (handleStreamlocalForward os req) w)
       = length (os_accepts os)
     /\ count is_ListenerAccept (added (handleStreamlocalForward os req) w)
        = S (length (os_accepts os))).
Proof.
  split.
  - intros addr port Hu Hl.
    destruct (handleTcpipForward_counts os req addr port ln w Hu Hl) as (A & B & _). auto.
  - intros socketPath Hu Hl.
    destruct (handleStreamlocalForward_counts os req socketPath ln w Hu Hl) as (A & B & _).
    auto.
Qed.

(** X21. The request of a forward that binds is replied to once, true, and
    then once more, false, for every accepted connection whose reverse
    channel cannot be opened: the handler calls [req.Reply] again on the
    request it has answered. *)
Theorem forward_replied_per_failed_open (os : OS) (req : Request) (ln : Listener)
    (w : World) :
  (forall addr port,
     Unmarshal (Payload req) [KString; KUint32] = Some [VString addr; VUint32 port] ->
     os_listen os "tcp" (JoinHostPort (string_of addr) (Itoa port)) = Some ln ->
     count is_Reply (added (handleTcpipForward os req) w)
     = S (failed_opens (os_accepts os)))
  /\ (forall socketPath,
     Unmarshal (Payload req) [KString] = Some [VString socketPath] ->
     os_listen os "unix" (string_of socketPath) = Some ln ->
     count is_Reply (added (handleStreamlocalForward os req) w)
     = S (failed_opens (os_accepts os))).
Proof.
  split.
  - intros addr port Hu Hl.
    by destruct (handleTcpipForward_counts os req addr port ln w Hu Hl) as (_ & _ & C).
  - intros socketPath Hu Hl.
    by destruct (handleStreamlocalForward_counts os req socketPath ln w Hu Hl)
      as (_ & _ & C).
Qed.

Lemma reverse_channel_per_connection_witness :
  let conns := [mkAccepted (Some ("10.0.0.1", 4000)) true [true];
                mkAccepted None false [];
                mkAccepted (Some ("10.0.0.2", 4001)) true []] in
  let os := with_accepts conns os_good in
  let fwd := mkRequest "tcpip-forward" true (forwardPayload "127.0.0.1" 0) in
  let fwd' := mkRequest "streamlocal-forward@openssh.com" true
                (Marshal [VString (bytes_of "/tmp/t.sock")]) in
  (count is_OpenChannel (added (handleTcpipForward os fwd) empty_world) = 3%nat
   /\ count is_ListenerAccept (added (handleTcpipForward os fwd) empty_world) = 4%nat)
  /\ (count is_OpenChannel (added (handleStreamlocalForward os fwd') empty_world) = 3%nat
   /\ count is_ListenerAccept (added (handleStreamlocalForward os fwd') empty_world) = 4%nat).
Proof.
  intros conns os fwd fwd'. split.
  - destruct (reverse_channel_per_connection os fwd 1%nat empty_world) as [H _].
    apply (H (bytes_of "127.0.0.1") 0); [vm_compute; reflexivity | reflexivity].
  - destruct (reverse_channel_per_connection os fwd' 1%nat empty_world) as [_ H].
    apply (H (bytes_of "/tmp/t.sock")); [vm_compute; reflexivity | reflexivity].
Defined.

Lemma forward_replied_per_failed_open_witness :
  let conns := [mkAccepted (Some ("10.0.0.1", 4000)) true [true];
                mkAccepted None false [];
                mkAccepted (Some ("10.0.0.2", 4001)) false []] in
  let os := with_accepts conns os_good in
  let fwd := mkRequest "tcpip-forward" true (forwardPayload "127.0.0.1" 0) in
  let fwd' := mkRequest "streamlocal-forward@openssh.com" true
                (Marshal [VString (bytes_of "/tmp/t.sock")]) in
  count is_Reply (added (handleTcpipForward os fwd) empty_world) = 3%nat
  /\ count is_Reply (added (handleStreamlocalForward os fwd') empty_world) = 3%nat.
Proof.
  intros conns os fwd fwd'. split.
  - destruct (forward_replied_per_failed_open os fwd 1%nat empty_world) as [H _].
    apply (H (bytes_of "127.0.0.1") 0); [vm_compute; reflexivity | reflexivity].
  - destruct (forward_replied_per_failed_open os fwd' 1%nat empty_world) as [_ H].
    apply (H (bytes_of "/tmp/t.sock")); [vm_compute; reflexivity | reflexivity].
Defined.

(** ** Who owns the registry *)

Lemma keeps_ret {A} (a : A) : keeps_registry (ret a).
Proof. by intros w. Qed.

Lemma keeps_emit (e : event) : keeps_registry (emit e).
Proof. by intros w. Qed.

Lemma keeps_emits (es : list event) : keeps_registry (emits es).
Proof. by intros w. Qed.

Lemma keeps_panic {A} (why : string) : keeps_registry (@panic A why).
Proof. by intros w. Qed.

Lemma keeps_check {A} (o : option A) (why : string) : keeps_registry (check o why).
Proof. destruct o; [apply keeps_ret | apply keeps_panic]. Qed.

Lemma keeps_bind {A B} (m : M A) (k : A -> M B) :
  keeps_registry m -> (forall a, keeps_registry (k a)) -> keeps_registry (bind m k).
Proof.
  intros Hm Hk w. unfold bind. specialize (Hm w).
  destruct (m w) as [[a|why] w'] eqn:E; simpl in *.
  - rewrite (Hk a w'). exact Hm.
  - exact Hm.
Qed.

(** Break a handler into its steps; a branch of the code is a case here. *)
Ltac keeps :=
  repeat first
    [ apply keeps_ret | apply keeps_emit | apply keeps_emits | apply keeps_panic
    | apply keeps_check
    | apply keeps_bind; [|intros ?]
    | match goal with
      | |- keeps_registry (if ?b then _ else _) => destruct b
      | |- keeps_registry (match ?x with _ => _ end) => destruct x
      end ].

Lemma keeps_handleExecRequest (os : OS) (req : Request) :
  keeps_registry (handleExecRequest os req).
Proof. unfold handleExecRequest. keeps. Qed.

Lemma keeps_handleSessionSubSystem (s : Server) (os : OS) (req : Request) :
  keeps_registry (handleSessionSubSystem s os req).
Proof. unfold handleSessionSubSystem. keeps. Qed.

Lemma keeps_sessionRequest (s : Server) (os : OS) (shell : string) (shf : bool)
    (req : Request) :
  keeps_registry (sessionRequest s os shell shf req).
Proof.
  unfold sessionRequest, parseDims, createPty, createPty_windows, createPty_unix,
    setWinsize, setWinsize_windows, setWinsize_unix.
  pose proof (keeps_handleExecRequest os req).
  pose proof (keeps_handleSessionSubSystem s os req).
  keeps; assumption.
Qed.

Lemma keeps_sessionLoop (s : Server) (os : OS) (shell : string)
    (requests : list Request) : forall shf,
  keeps_registry (sessionLoop s os shell shf requests).
Proof.
  induction requests as [|req rest IH]; intros shf; simpl.
  - apply keeps_ret.
  - apply keeps_bind; [apply keeps_sessionRequest|].
    intros [shf'|]; [apply IH | apply keeps_ret].
Qed.

(** X22. Handling a channel never touches the forward registry: whatever
    the channel type, the requests of the session, the permissions and the
    answers of the system, and also when the handler panics, the registry is
    afterwards what it was.  Only the global requests change it. *)
Theorem channels_keep_registry (s : Server) (os : OS) (shell : string)
    (newChannel : NewChannel) (requests : list Request) (w : World) :
  registry_of (handleChannel s os shell newChannel requests) w = bindAddressToListener w.
Proof.
  revert w. change (keeps_registry (handleChannel s os shell newChannel requests)).
  unfold handleChannel, handleSession, handleDirectTcpip, handleDirectStreamlocal.
  pose proof (keeps_sessionLoop s os shell requests false).
  keeps; assumption.
Qed.

(** ** Payloads the server builds *)

Lemma parseUint32_wire (v : Z) (rest : list byte) :
  parseUint32 (BigEndian_PutUint32 v ++ rest) = Some (wrap32 v, rest).
Proof.
  unfold parseUint32. rewrite BigEndian_roundtrip. reflexivity.
Qed.

Lemma parseString_wire (s rest : list byte) :
  Z.of_nat (length s) < 4294967296 ->
  parseString (BigEndian_PutUint32 (Z.of_nat (length s)) ++ s ++ rest) = Some (s, rest).
Proof.
  intros H. unfold parseString. rewrite parseUint32_wire.
  rewrite wrap32_small by lia.
  destruct (Z.ltb_spec (Z.of_nat (length (s ++ rest))) (Z.of_nat (length s))) as [Hlt|_].
  - rewrite length_app in Hlt. lia.
  - rewrite Nat2Z.id. by rewrite take_app_length, drop_app_length.
Qed.

Lemma parseFields_wire (vs : list value) : forall rest,
  Forall fits_wire vs ->
  parseFields (map kind_of vs) (Marshal vs ++ rest) = Some (vs, rest).
Proof.
  induction vs as [|v vs IH]; intros rest H; [reflexivity|].
  inversion H as [|? ? Hv Hvs]; subst.
  unfold Marshal in *. cbn [map concat kind_of]. rewrite <- app_assoc.
  destruct v as [s|n]; cbn [marshalValue kind_of parseFields].
  - rewrite <- app_assoc. rewrite parseString_wire by exact Hv.
    rewrite (IH rest Hvs). reflexivity.
  - rewrite parseUint32_wire. rewrite (IH rest Hvs).
    simpl in Hv. rewrite wrap32_small by exact Hv. reflexivity.
Qed.

(** What [ssh.Marshal] writes, [ssh.Unmarshal] reads back. *)
Lemma Unmarshal_Marshal (vs : list value) :
  vs <> [] -> Forall fits_wire vs -> Unmarshal (Marshal vs) (map kind_of vs) = Some vs.
Proof.
  intros Hne H. pose proof (parseFields_wire vs [] H) as Hp. rewrite app_nil_r in Hp.
  unfold Unmarshal. rewrite Hp.
  destruct vs as [|v vs]; [congruence|].
  destruct (Marshal (v :: vs)) as [|b data] eqn:E; [|reflexivity].
  exfalso. unfold Marshal in E. cbn [map concat] in E.
  destruct v; cbn [marshalValue] in E; unfold BigEndian_PutUint32 in E; discriminate.
Qed.

(** X23. The payload with which a forward opens its reverse channel decodes,
    field by field, to what the code put in: for forwarded-tcpip the bound
    address and port of the request, then the originator, or an empty
    address and port 0 when the remote address could not be split; for
    forwarded-streamlocal the socket path and an empty reserved string. *)
Theorem forwarded_payload_decodes (addr socketPath : list byte) (port : Z) (c : Accepted) :
  Z.of_nat (length addr) < 4294967296 -> 0 <= port < 4294967296 ->
  Z.of_nat (length socketPath) < 4294967296 ->
  (forall a p, originator c = Some (a, p) ->
     Z.of_nat (length (bytes_of a)) < 4294967296 /\ 0 <= p < 4294967296) ->
  Unmarshal (forwardedTcpipMsg addr port c) [KString; KUint32; KString; KUint32]
  = Some [VString addr; VUint32 port;
          VString (match originator c with Some (a, _) => bytes_of a | None => [] end);
          VUint32 (match originator c with Some (_, p) => p | None => 0 end)]
  /\ Unmarshal (Marshal [VString socketPath; VString []]) [KString; KString]
     = Some [VString socketPath; VString []].
Proof.
  intros Ha Hp Hs Ho. split.
  - unfold forwardedTcpipMsg. destruct (originator c) as [[a p]|] eqn:E.
    + destruct (Ho a p eq_refl) as [Hla Hlp].
      apply (Unmarshal_Marshal [VString addr; VUint32 port; VString (bytes_of a); VUint32 p]);
        [discriminate|].
      repeat (constructor; [simpl; auto; lia|]). constructor.
    + apply (Unmarshal_Marshal [VString addr; VUint32 port; VString []; VUint32 0]);
        [discriminate|].
      repeat (constructor; [simpl; auto; lia|]). constructor.
  - apply (Unmarshal_Marshal [VString socketPath; VString []]); [discriminate|].
    repeat (constructor; [simpl; auto; lia|]). constructor.
Qed.

Lemma forwarded_payload_decodes_witness :
  let c := mkAccepted (Some ("10.0.0.1", 4000)) true [] in
  Unmarshal (forwardedTcpipMsg (bytes_of "127.0.0.1") 8080 c)
            [KString; KUint32; KString; KUint32]
  = Some [VString (bytes_of "127.0.0.1"); VUint32 8080;
          VString (bytes_of "10.0.0.1"); VUint32 4000]
  /\ Unmarshal (Marshal [VString (bytes_of "/tmp/t.sock"); VString []]) [KString; KString]
     = Some [VString (bytes_of "/tmp/t.sock"); VString []].
Proof.
  intros c.
  apply (forwarded_payload_decodes (bytes_of "127.0.0.1") (bytes_of "/tmp/t.sock") 8080 c);
    try (simpl; lia).
  intros a p [= <- <-]. simpl. lia.
Defined.

(** ** After an exec *)

(** X24. An exec that ran closes the session channel but does not end the
    request loop: the requests that follow on the session are processed
    after it, with the pty state unchanged. *)
Theorem exec_does_not_end_session (s : Server) (os : OS) (shell : string) (shf : bool)
    (req : Request) (command : list byte) (argv0 : string) (args : list string)
    (rest : list Request) (w : World) :
  Type_ req = "exec" -> AllowExecute s = true ->
  Unmarshal (Payload req) [KString] = Some [VString command] ->
  shellwords_Parse os (string_of command) = Some (argv0 :: args) ->
  os_stdin_pipe os = true -> os_stdout_pipe os = true -> os_stderr_pipe os = true ->
  sessionLoop s os shell shf (req :: rest) w
  = sessionLoop s os shell shf rest
      (mkWorld (bindAddressToListener w)
         (trace w ++
          [Command (argv0 :: args); Pipe Stdin; Pipe Stdout; Pipe Stderr;
           GoCopy Stdin Channel; GoCopy Channel Stdout; GoCopy Channel Stderr;
           Reply true; Run;
           SendRequest "exit-status" false
             (exitStatusMsg (exitCodeOf (os_run os (argv0 :: args))));
           Close Channel])).
Proof.
  intros Ht Hperm Hu Hp Hi Ho He.
  pose proof (handleExecRequest_runs os req command argv0 args w Hu Hp Hi Ho He) as H.
  cbn [sessionLoop]. unfold sessionRequest. rewrite Ht, Hperm. simpl.
  unfold bind. rewrite H. reflexivity.
Qed.

Lemma exec_does_not_end_session_witness :
  let req := mkRequest "exec" true (execPayload "/bin/true") in
  closes Channel
    (trace_of (sessionLoop allow_all os_good "sh" false [req; req]) empty_world) = 2%nat
  /\ count is_Reply
       (trace_of (sessionLoop allow_all os_good "sh" false [req; req]) empty_world) = 2%nat.
Proof.
  intros req. unfold trace_of.
  rewrite (exec_does_not_end_session allow_all os_good "sh" false req
             (bytes_of "/bin/true") "/bin/true" [] [req] empty_world);
    [| reflexivity | reflexivity | vm_compute; reflexivity | vm_compute; reflexivity
     | reflexivity | reflexivity | reflexivity].
  split; vm_compute; reflexivity.
Defined.

(** ** Without the forward permissions *)

Lemma shrinks_of_keeps {A} (m : M A) : keeps_registry m -> shrinks_registry m.
Proof. intros H w. by rewrite (H w). Qed.

Lemma shrinks_bind {A B} (m : M A) (k : A -> M B) :
  shrinks_registry m -> (forall a, shrinks_registry (k a)) -> shrinks_registry (bind m k).
Proof.
  intros Hm Hk w. unfold bind. specialize (Hm w).
  destruct (m w) as [[a|why] w'] eqn:E; simpl in *.
  - etrans; [apply (Hk a w') | exact Hm].
  - exact Hm.
Qed.

Lemma shrinks_cancelTcpipForward (os : OS) (req : Request) :
  shrinks_registry (cancelTcpipForward os req).
Proof.
  intros w. unfold cancelTcpipForward.
  destruct (Unmarshal_string_uint32 (Payload req)) as [Hu|(addr & port & Hu)]; rewrite Hu.
  - reflexivity.
  - unfold bind, LoadAndDelete.
    destruct (bindAddressToListener w !! JoinHostPort (string_of addr) (Itoa port))
      as [ln|]; monad.
    + destruct (os_close_ok os ln); simpl; apply delete_subseteq.
    + reflexivity.
Qed.

Lemma shrinks_cancelStreamlocalForward (os : OS) (req : Request) :
  shrinks_registry (cancelStreamlocalForward os req).
Proof.
  intros w. unfold cancelStreamlocalForward.
  destruct (Unmarshal_string (Payload req)) as [Hu|(socketPath & Hu)]; rewrite Hu.
  - reflexivity.
  - unfold bind, LoadAndDelete.
    destruct (bindAddressToListener w !! string_of socketPath) as [ln|]; monad.
    + destruct (os_close_ok os ln); simpl; apply delete_subseteq.
    + reflexivity.
Qed.

Lemma shrinks_globalRequest (s : Server) (os : OS) (req : Request) :
  AllowTcpipForward s = false -> AllowStreamlocalForward s = false ->
  shrinks_registry (globalRequest s os req).
Proof.
  intros H1 H2. unfold globalRequest, go, run_task. rewrite H1, H2. cbn [negb].
  pose proof (shrinks_cancelTcpipForward os req).
  pose proof (shrinks_cancelStreamlocalForward os req).
  repeat match goal with
    | |- shrinks_registry (if ?b then _ else _) => destruct b
    end;
    try (apply shrinks_bind; [apply shrinks_of_keeps, keeps_emit | intros _; assumption]);
    apply shrinks_of_keeps; keeps.
Qed.

(** X25. With both forward permissions off, no sequence of global requests
    ever adds to the registry: after [HandleGlobalRequests] every entry is
    one that was there before (cancels may have removed some), also when a
    handler panics on the way. *)
Theorem registry_never_grows_without_permission (s : Server) (os : OS)
    (reqs : list Request) (w : World) :
  AllowTcpipForward s = false -> AllowStreamlocalForward s = false ->
  registry_of (HandleGlobalRequests s os reqs) w ⊆ bindAddressToListener w.
Proof.
  intros H1 H2. revert w.
  change (shrinks_registry (HandleGlobalRequests s os reqs)).
  induction reqs as [|req rest IH]; simpl.
  - apply shrinks_of_keeps, keeps_ret.
  - apply shrinks_bind; [by apply shrinks_globalRequest | intros _; exact IH].
Qed.

Lemma registry_never_grows_without_permission_witness :
  let reqs := [mkRequest "tcpip-forward" true (forwardPayload "127.0.0.1" 8080);
               mkRequest "cancel-tcpip-forward" true (forwardPayload "127.0.0.1" 22);
               mkRequest "streamlocal-forward@openssh.com" true
                 (Marshal [VString (bytes_of "/tmp/t.sock")])] in
  let w := mkWorld {["127.0.0.1:22" := 5%nat]} [] in
  registry_of (HandleGlobalRequests allow_none os_good reqs) w ⊆ bindAddressToListener w
  /\ registry_of (HandleGlobalRequests allow_none os_good reqs) w = ∅.
Proof.
  intros reqs w. split.
  - apply (registry_never_grows_without_permission allow_none os_good reqs w); reflexivity.
  - vm_compute. reflexivity.
Defined.

(** ** Cancel when the close fails *)

(** X26. When [ln.Close] returns an error a cancel replies twice on the
    same request, first false and then true; the listener has been taken out
    of the registry all the same. *)
Theorem cancel_close_error_replies_twice (os : OS) (req : Request) (ln : Listener)
    (w : World) :
  os_close_ok os ln = false ->
  (forall addr port,
     Unmarshal (Payload req) [KString; KUint32] = Some [VString addr; VUint32 port] ->
     bindAddressToListener w !! JoinHostPort (string_of addr) (Itoa port) = Some ln ->
     added (cancelTcpipForward os req) w
       = [ListenerClose ln; Reply false; Log "failed to close"; Reply true]
     /\ registry_of (cancelTcpipForward os req) w
        !! JoinHostPort (string_of addr) (Itoa port) = None)
  /\ (forall socketPath,
     Unmarshal (Payload req) [KString] = Some [VString socketPath] ->
     bindAddressToListener w !! string_of socketPath = Some ln ->
     added (cancelStreamlocalForward os req) w
       = [ListenerClose ln; Reply false; Log "failed to close"; Reply true]
     /\ registry_of (cancelStreamlocalForward os req) w !! string_of socketPath = None).
Proof.
  intros Hc. split.
  - intros addr port Hu Hreg. split.
    + by apply (cancelTcpipForward_close_error os req w addr port ln).
    + unfold registry_of, cancelTcpipForward. rewrite Hu. unfold bind, LoadAndDelete.
      rewrite Hreg. monad. rewrite Hc. simpl. apply lookup_delete_eq.
  - intros socketPath Hu Hreg. split.
    + by apply (cancelStreamlocalForward_close_error os req w socketPath ln).
    + unfold registry_of, cancelStreamlocalForward. rewrite Hu. unfold bind, LoadAndDelete.
      rewrite Hreg. monad. rewrite Hc. simpl. apply lookup_delete_eq.
Qed.

Lemma cancel_close_error_replies_twice_witness :
  let os := with_close_ok false os_good in
  let w := mkWorld {["127.0.0.1:8080" := 7%nat]} [] in
  let w' := mkWorld {["/tmp/t.sock" := 7%nat]} [] in
  let req := mkRequest "cancel-tcpip-forward" true (forwardPayload "127.0.0.1" 8080) in
  let req' := mkRequest "cancel-streamlocal-forward@openssh.com" true
                (Marshal [VString (bytes_of "/tmp/t.sock")]) in
  added (cancelTcpipForward os req) w
    = [ListenerClose 7%nat; Reply false; Log "failed to close"; Reply true]
  /\ added (cancelStreamlocalForward os req') w'
    = [ListenerClose 7%nat; Reply false; Log "failed to close"; Reply true].
Proof.
  intros os w w' req req'. split.
  - destruct (cancel_close_error_replies_twice os req 7%nat w) as [H _]; [reflexivity|].
    apply (H (bytes_of "127.0.0.1") 8080); [vm_compute; reflexivity | reflexivity].
  - destruct (cancel_close_error_replies_twice os req' 7%nat w') as [_ H]; [reflexivity|].
    apply (H (bytes_of "/tmp/t.sock")); [vm_compute; reflexivity | reflexivity].
Defined.

(** ** A malformed exec *)

(** X27. An exec request whose payload does not decode as one string is
    logged and gets no reply, false or true, even with the permission and
    when it wants one; nothing is spawned and the session goes on. *)
Theorem exec_malformed_logged_only (s : Server) (os : OS) (shell : string) (shf : bool)
    (req : Request) (w : World) :
  Type_ req = "exec" -> AllowExecute s = true ->
  Unmarshal (Payload req) [KString] = None ->
  adds (sessionRequest s os shell shf req) w (Continue shf)
       [Log "failed to parse message in exec"].
Proof.
  intros Ht Hperm Hu. unfold adds, sessionRequest. rewrite Ht, Hperm. simpl.
  unfold bind. rewrite (exec_malformed_no_reply os req w Hu). reflexivity.
Qed.

Lemma exec_malformed_logged_only_witness :
  let req := mkRequest "exec" true [x00; x00; x00; x09; x6c; x73] in
  Unmarshal (Payload req) [KString] = None
  /\ adds (sessionRequest allow_all os_good "sh" false req) empty_world (Continue false)
          [Log "failed to parse message in exec"].
Proof.
  intros req. split; [reflexivity|].
  apply (exec_malformed_logged_only allow_all os_good "sh" false req empty_world);
    reflexivity.
Defined.

(** ** The latch, on the way *)

(** X28. At every point of every interleaving of a direct bridge each end
    has been closed at most once, and as soon as either of the two threads
    has finished both ends are closed: no copy outlives its bridge by more
    than its own return. *)
Theorem latch_closes_by_first_finish (sched : list bool) :
  let b := run_sched sched direct_bridge in
  (closes Channel (events b) <= 1)%nat
  /\ (closes Conn (events b) <= 1)%nat
  /\ (first_thread b = [] \/ second_thread b = [] ->
      closes Channel (events b) = 1%nat /\ closes Conn (events b) = 1%nat).
Proof.
  intros b.
  pose proof (run_sched_invariant latch_inv latch_inv_step sched _ latch_inv_direct)
    as (_ & _ & Hch & Hco & Hp).
  fold b in Hch, Hco, Hp. rewrite Hch, Hco.
  destruct (once_done b).
  - repeat split; lia.
  - destruct (Hp eq_refl) as [H1 H2].
    split; [lia|]. split; [lia|].
    intros [E|E]; [rewrite E in H1 | rewrite E in H2]; contradiction.
Qed.

Lemma latch_closes_by_first_finish_witness :
  let b := run_sched [true; true] direct_bridge in
  second_thread b = []
  /\ first_thread b = [ICopy Conn Channel; IOnceDo]
  /\ closes Channel (events b) = 1%nat /\ closes Conn (events b) = 1%nat.
Proof.
  intros b. split; [reflexivity|]. split; [reflexivity|].
  destruct (latch_closes_by_first_finish [true; true]) as (_ & _ & H).
  apply H. right. reflexivity.
Defined.
